(** * Shipment enrichment pipeline (main.py): a shallow embedding

    The Python program pulls shipped orders from an order API, extracts device
    serial numbers from free-text notes, looks each serial up in a browser-only
    admin console, and publishes a tabular payload.

    Conventions of the embedding.
    - A Python [str] is a Rocq [string]; the regular-expression engine scans
      its character list.  Characters are the 8-bit [ascii] type and the
      classes [\d], [\w], [\s] are the ones Python's [re] uses on code points
      below 128.  Beyond these [re] follows Unicode, which knows more digits,
      letters and blanks; that is not modelled, so every statement about
      what a pattern finds in a text is made for texts that satisfy
      [ascii_text].
    - A JSON object read with [.get(key, default)] is a record of optional
      fields, [None] meaning that the key is absent.
    - Network, browser, file-system and document-store calls are answered by
      a [World]: the k-th call of each kind gets the k-th answer.  Every call is
      appended to a trace.
    - Python exceptions are values of [exn]; a computation returns [Ret],
      raises ([Raise]) or, for the one unbounded loop, runs out of [Fuel]. *)

From Stdlib Require Import String Ascii List Arith Bool Lia PeanoNat ZArith.
From Stdlib Require Import Permutation DecimalString DecimalNat.
Import ListNotations.
Open Scope string_scope.
Open Scope list_scope.
Open Scope nat_scope.

Set Implicit Arguments.

(* ================================================================== *)
(** * Character classes of Python's [re] (code points below 128)        *)
(* ================================================================== *)

Definition is_digit (c : ascii) : bool :=
  let n := nat_of_ascii c in (48 <=? n) && (n <=? 57).

Definition is_alpha (c : ascii) : bool :=
  let n := nat_of_ascii c in
  ((65 <=? n) && (n <=? 90)) || ((97 <=? n) && (n <=? 122)).

(** [\w]: letters, digits and the underscore. *)
Definition is_word (c : ascii) : bool :=
  is_alpha c || is_digit c || (nat_of_ascii c =? 95).

(** [\s]: tab, newline, vertical tab, form feed, carriage return, the four
    separator controls 28-31, and the space. *)
Definition is_space (c : ascii) : bool :=
  let n := nat_of_ascii c in
  ((9 <=? n) && (n <=? 13)) || ((28 <=? n) && (n <=? 32)).

Definition is_word_opt (o : option ascii) : bool :=
  match o with Some c => is_word c | None => false end.

(** A code point below 128, and a text made of such code points: the texts
    on which the classes above are those of [re]. *)
Definition is_ascii (c : ascii) : bool := nat_of_ascii c <? 128.

Definition ascii_text (s : string) : bool :=
  forallb is_ascii (list_ascii_of_string s).

(* ================================================================== *)
(** * The fragment of [re] the program uses                            *)
(* ================================================================== *)

(** A pattern is a sequence of atoms.  The source only quantifies single
    character classes, always greedily: [\d{5,7}], [\s*], [\s+], ... *)
Inductive atom : Type :=
| Lit (l : list ascii)                 (* literal text, also re.escape(...) *)
| Rep (cls : ascii -> bool) (lo : nat) (hi : option nat) (capture : bool)
| WordB.                               (* \b *)

Definition pattern := list atom.

Fixpoint span (cls : ascii -> bool) (s : list ascii) : nat :=
  match s with
  | c :: s' => if cls c then S (span cls s') else 0
  | [] => 0
  end.

(** The character just before offset [k] of [s], where [prev] precedes [s]. *)
Definition char_before (prev : option ascii) (s : list ascii) (k : nat)
  : option ascii :=
  match k with
  | 0 => prev
  | S j => nth_error s j
  end.

(** [\b]: exactly one of the two neighbours is a word character; the edges of
    the text count as non-word. *)
Definition at_boundary (prev : option ascii) (s : list ascii) : bool :=
  xorb (is_word_opt prev) (is_word_opt (hd_error s)).

Fixpoint starts_with (l s : list ascii) : bool :=
  match l, s with
  | [], _ => true
  | a :: l', b :: s' => Ascii.eqb a b && starts_with l' s'
  | _ :: _, [] => false
  end.

(** Greedy backtracking: try [k], [k-1], ... down to [lo]. *)
Fixpoint try_down {A : Type} (lo k : nat) (f : nat -> option A) : option A :=
  match k with
  | 0 => if lo =? 0 then f 0 else None
  | S k' =>
      if lo <=? S k' then
        match f (S k') with
        | Some r => Some r
        | None => try_down lo k' f
        end
      else None
  end.

(** Match [p] at the head of [s]; [prev] is the character before [s].
    The result is the length consumed and the captured groups in order. *)
Fixpoint match_here (p : pattern) (prev : option ascii) (s : list ascii)
  : option (nat * list (list ascii)) :=
  match p with
  | [] => Some (0, [])
  | WordB :: p' =>
      if at_boundary prev s then match_here p' prev s else None
  | Lit l :: p' =>
      if starts_with l s then
        let k := length l in
        match match_here p' (char_before prev s k) (skipn k s) with
        | Some (n, gs) => Some (k + n, gs)
        | None => None
        end
      else None
  | Rep cls lo hi cap :: p' =>
      let avail := span cls s in
      let kmax := match hi with Some h => Nat.min h avail | None => avail end in
      try_down lo kmax (fun k =>
        match match_here p' (char_before prev s k) (skipn k s) with
        | Some (n, gs) => Some (k + n, if cap then firstn k s :: gs else gs)
        | None => None
        end)
  end.

(** A match object: where the match starts and its groups. *)
Record Match : Type := mkMatch {
  m_start : nat;
  m_len : nat;
  m_groups : list (list ascii)
}.

Definition group (n : nat) (m : Match) : string :=
  string_of_list_ascii (nth (n - 1) (m_groups m) []).

Fixpoint search_from (p : pattern) (prev : option ascii) (s : list ascii)
  (pos : nat) : option Match :=
  match match_here p prev s with
  | Some (n, gs) => Some (mkMatch pos n gs)
  | None =>
      match s with
      | [] => None
      | c :: s' => search_from p (Some c) s' (S pos)
      end
  end.

(** [re.search(p, text)]: the leftmost match. *)
Definition re_search (p : pattern) (text : string) : option Match :=
  search_from p None (list_ascii_of_string text) 0.

(** Scanning for successive non-overlapping matches; [skip] counts the
    characters of the previous match still to be stepped over.  An empty
    match, which none of the patterns below can produce, just advances. *)
Fixpoint findall_from (p : pattern) (prev : option ascii) (s : list ascii)
  (skip : nat) : list (list (list ascii)) :=
  match skip with
  | S k =>
      match s with
      | [] => []
      | c :: s' => findall_from p (Some c) s' k
      end
  | 0 =>
      match match_here p prev s with
      | Some (n, gs) =>
          gs :: match s with
                | [] => []
                | c :: s' => findall_from p (Some c) s' (n - 1)
                end
      | None =>
          match s with
          | [] => []
          | c :: s' => findall_from p (Some c) s' 0
          end
      end
  end.

(** [re.findall(p, text)] for a pattern with one group: the list of the
    group's text, one entry per match. *)
Definition re_findall (p : pattern) (text : string) : list string :=
  map (fun gs => string_of_list_ascii (nth 0 gs []))
      (findall_from p None (list_ascii_of_string text) 0).

(* ================================================================== *)
(** * STEP 2: serial numbers from internal notes                       *)
(* ================================================================== *)

(** r'\b(\d{5,7})\b' *)
Definition notes_serial_re : pattern :=
  [WordB; Rep is_digit 5 (Some 7) true; WordB].

Definition str_empty (s : string) : bool :=
  match s with EmptyString => true | _ => false end.

Definition extract_serial_numbers (internal_notes : string) : list string :=
  if str_empty internal_notes then []
  else re_findall notes_serial_re internal_notes.

(** ** The serial tokens as the specification words them

    A token occurrence at offset [i] with length [k]: [k] digits, with the
    character on each side either absent (text edge) or accepted by [sep].
    [bounded_runs sep text] lists the occurrences of length 5 to 7 by
    increasing offset, repeats included. *)

Definition edge_ok (sep : ascii -> bool) (o : option ascii) : bool :=
  match o with None => true | Some c => sep c end.

Definition run_at (sep : ascii -> bool) (prev : option ascii)
  (s : list ascii) (k : nat) : bool :=
  (k <=? length s) && forallb is_digit (firstn k s)
  && edge_ok sep prev && edge_ok sep (nth_error s k).

Definition runs_here (sep : ascii -> bool) (prev : option ascii)
  (s : list ascii) : list (list ascii) :=
  flat_map (fun k => if run_at sep prev s k then [firstn k s] else [])
           [5; 6; 7].

Definition runs_from (sep : ascii -> bool) (prev : option ascii)
  (s : list ascii) : list (list ascii) :=
  flat_map (fun i => runs_here sep (char_before prev s i) (skipn i s))
           (seq 0 (length s)).

Definition bounded_runs (sep : ascii -> bool) (text : string) : list string :=
  map string_of_list_ascii (runs_from sep None (list_ascii_of_string text)).

(** The condition under which a serial token starts at the head of [s]. *)
Definition serial_here (prev : option ascii) (s : list ascii) : bool :=
  let n := span is_digit s in
  (5 <=? n) && (n <=? 7)
  && negb (is_word_opt prev) && negb (is_word_opt (nth_error s n)).


(** The boundary the pattern's [\b] enforces next to a digit: a non-word
    character. *)
Definition non_word (c : ascii) : bool := negb (is_word c).

(* ================================================================== *)
(** * Data model                                                       *)
(* ================================================================== *)

(** A line item of an order, read with [item.get("sku", "")]: the text of
    its SKU, [None] when the key is absent. *)
Record Item : Type := mkItem {
  item_sku : option string
}.

(** A shipment of the listing endpoint, read with [s.get("orderId")]. *)
Record Shipment : Type := mkShipment {
  orderId : option nat
}.

(** A JSON object of the order API, with the keys the program reads.  A
    page of the shipment listing carries [shipments] and [pages]; an order
    carries [orderNumber], [internalNotes] and [items].  For
    [internalNotes], [None] also stands for a JSON null.

    The fields have the types the API documents: a SKU is a text, the
    items are a list.  A JSON null in their place is outside this record.
    With one the source raises TypeError - when it joins the SKUs of an
    order without a serial, or when it walks through the items - and builds
    no record at all; so what is stated of [parse_orders] below is stated
    of the records it builds when it returns. *)
Record Json : Type := mkJson {
  shipments : option (list Shipment);
  pages : option nat;
  orderNumber : option string;
  internalNotes : option string;
  items : option (list Item)
}.

Definition dict_get {A : Type} (field : option A) (default : A) : A :=
  match field with Some v => v | None => default end.

(** The flat record threaded through the pipeline (a Python dict with
    these nine keys). *)
Record EnrichmentRecord : Type := mkRecord {
  sku : string;
  serial : string;
  imei : string;
  iccid : string;
  sim_provider : string;
  retailer : string;
  status : string;
  order_number : string;
  raw_notes : string
}.

(** [s[:n]] *)
Definition str_prefix (n : nat) (s : string) : string := substring 0 n s.

(** [skus[i] if i < len(skus) else (skus[0] if skus else "")] *)
Definition sku_for (skus : list string) (i : nat) : string :=
  if i <? length skus then nth i skus EmptyString
  else match skus with
       | s0 :: _ => s0
       | [] => EmptyString
       end.

(** The loop [for i, sn in enumerate(serials)] of [parse_orders], from
    index [i] on. *)
Fixpoint serial_records (skus : list string) (order_number : string)
  (i : nat) (serials : list string) : list EnrichmentRecord :=
  match serials with
  | [] => []
  | sn :: rest =>
      {| sku := sku_for skus i;
         serial := sn;
         imei := EmptyString;
         iccid := EmptyString;
         sim_provider := EmptyString;
         retailer := "shopify";
         status := "unassigned";
         order_number := order_number;
         raw_notes := EmptyString |}
      :: serial_records skus order_number (S i) rest
  end.

(** The loop [for order in orders], appending to [records]. *)
Fixpoint parse_orders_loop (orders : list Json)
  (records : list EnrichmentRecord) : list EnrichmentRecord :=
  match orders with
  | [] => records
  | order :: rest =>
      let order_number := dict_get (orderNumber order) EmptyString in
      let internal_notes := dict_get (internalNotes order) EmptyString in
      let items := dict_get (items order) [] in
      let skus := map (fun item => dict_get (item_sku item) EmptyString) items in
      let serials := extract_serial_numbers internal_notes in
      match serials with
      | [] =>
          parse_orders_loop rest
            (records ++
             [{| sku := String.concat ", " skus;
                 serial := "NOT FOUND";
                 imei := EmptyString;
                 iccid := EmptyString;
                 sim_provider := EmptyString;
                 retailer := "shopify";
                 status := "unassigned";
                 order_number := order_number;
                 raw_notes := str_prefix 200 internal_notes |}])
      | _ :: _ =>
          parse_orders_loop rest
            (records ++ serial_records skus order_number 0 serials)
      end
  end.

Definition parse_orders (orders : list Json) : list EnrichmentRecord :=
  parse_orders_loop orders [].

(** The notes text and the SKUs [parse_orders] reads off an order. *)
Definition notes_of (order : Json) : string :=
  dict_get (internalNotes order) EmptyString.

Definition skus_of (order : Json) : list string :=
  map (fun item => dict_get (item_sku item) EmptyString)
      (dict_get (items order) []).

(* ================================================================== *)
(** * Effects: exceptions, the outside world, the trace                *)
(* ================================================================== *)

(** The exceptions the program can meet.  All but [SystemExit] derive from
    Python's [Exception], which is what [except Exception] catches. *)
Inductive exn : Type :=
| HTTPError (status : nat)     (* requests: resp.raise_for_status() *)
| RequestException             (* requests: the call itself failing *)
| JSONDecodeError              (* resp.json() on a body that is not JSON *)
| RateLimitExceeded            (* Exception(... rate limit exceeded after retries) *)
| ValueError                   (* int() on text that is no integer; a negative sleep *)
| OverflowError                (* time.sleep on a wait too long for its clock *)
| PlaywrightError              (* a browser call failing or timing out *)
| OSError                      (* a file-system call failing *)
| GoogleError                  (* the Drive client failing *)
| SystemExit (code : nat).     (* sys.exit(code) *)

Definition is_Exception (e : exn) : bool :=
  match e with
  | SystemExit _ => false
  | _ => true
  end.

(** A date as [--date YYYY-MM-DD] gives it. *)
Record Date : Type := mkDate {
  year : nat;
  month : nat;
  day : nat
}.

(** Why [time.sleep] refuses a whole number of seconds: it is negative
    (ValueError), its nanoseconds do not fit the 64 bits of the clock
    (OverflowError), or the platform rejects the deadline (OSError). *)
Inductive SleepError : Type :=
| NegativeLength
| TooLarge
| InvalidArgument.

(** A whole number of seconds, by what [time.sleep] makes of it: it waits
    that long, or it raises. *)
Inductive Wait : Type :=
| Seconds (n : nat)
| Unsleepable (seconds : Z) (why : SleepError).

(** The text of a Retry-After header, by what [int(...)] makes of it: a
    whole number, or a ValueError (an HTTP date, a fraction, ...). *)
Inductive RetryAfter : Type :=
| Whole (wait : Wait)
| NotWhole.

(** An HTTP response as the program reads it: the status, the Retry-After
    header ([None] when there is none) and the decoded JSON body ([None]
    when the body does not decode). *)
Record Response : Type := mkResponse {
  status_code : nat;
  retry_after : option RetryAfter;
  json_body : option Json
}.

(** The requests [_get] is called with (endpoint and parameters). *)
Inductive Request : Type :=
| GetStores
| GetShipments (ship_date : Date) (storeId page_size page : nat)
| GetOrder (oid : nat).

(** The locators of the console UI, named after what they select. *)
Inductive Selector : Type :=
| SelEmail | SelPassword | SelSubmit
| SelText (text : string)
| SelSearch            (* the four-placeholder search input *)
| SelSearchShort       (* the two-placeholder search input *)
| SelCloseButton
| SelDevices | SelActions | SelUpdateRetailer
| SelFileInput | SelVerifyData | SelUpdateDevices.

(** The Playwright calls that reach the browser. *)
Inductive PageOp : Type :=
| PwStart                              (* sync_playwright().start() *)
| PwLaunch (headless : bool)           (* chromium.launch *)
| PwNewContext
| PwNewPage
| PwGoto (url : string)
| PwFill (sel : Selector) (value : string)
| PwClick (sel : Selector)
| PwTripleClick (sel : Selector)       (* click(click_count=3) *)
| PwPress (sel : Selector) (key : string)
| PwWaitLoad                           (* wait_for_load_state *)
| PwInnerText                          (* page.inner_text(body) *)
| PwScreenshot (path : string)
| PwSetInputFiles (sel : Selector) (file : string)
| PwScroll (sel : Selector)
| PwBrowserClose                       (* browser.close() *)
| PwStop.                              (* playwright.stop() *)

Inductive FsOp : Type :=
| FsMakedirs (path : string)
| FsTempFile (prefix suffix : string)     (* tempfile.NamedTemporaryFile *)
| FsWrite (path : string) (rows : list (list string))
| FsCopy (src dst : string)
| FsUnlink (path : string).

Inductive LogMsg : Type :=
| RateLimitWait (seconds : Z)
| CouldNotFetchOrder (oid : nat) (e : exn)
| LoginFailed (e : exn)
| SerialNoIds (serial : string)          (* found but no IMEI/ICCID *)
| SerialNotInResults (serial : string)
| LookupError (serial : string) (e : exn)
| UploadFailed (e : exn)
| NoSerialsToLookUp
| GpxLookupFailed (e : exn)
| GpxUploadNonFatal (e : exn)
| ScraperNotAvailable
| NoShippedOrders
| NoRecords
| TokenMissing.

(** What the run does to the outside, in order. *)
Inductive Event : Type :=
| EGet (req : Request)                     (* session.get *)
| ESleep (seconds : nat)                   (* the rate-limit wait *)
| ELog (msg : LogMsg)                      (* log.warning / log.error *)
| EPage (op : PageOp)
| EFs (op : FsOp)
| EGoogleAuth                              (* get_google_services *)
| EDriveCreate (name : string) (rows : list (list string))
| EClose.                                  (* GPXScraper.close() entered *)

Inductive Answer (A : Type) : Type :=
| Returns (a : A)
| Fails.
Arguments Fails {A}.

(** The outside world: configuration, and the answer to the k-th call of
    each kind.  [set_list] is the iteration order of a Python set. *)
Record World : Type := mkWorld {
  store_id : nat;                          (* int(SHIPSTATION_STORE_ID) *)
  gpx_username : string;
  gpx_password : string;
  headless_cfg : bool;
  today : Date;
  http_answers : nat -> Answer Response;
  page_answers : nat -> Answer string;
  fs_answers : nat -> bool;
  token_exists : bool;                     (* os.path.exists(token.json) *)
  google_answers : nat -> Answer string;
  set_list : list nat -> list nat;
  set_list_perm :
    forall l, Permutation (set_list l) (nodup Nat.eq_dec l)
}.

Record LookupResult : Type := mkLookup {
  lr_imei : string;
  lr_iccid : string;
  lr_sim_provider : string
}.

(** The program state: how many answers of each kind were consumed, the
    trace, and the mutable Python objects (the scraper's handles, the
    [result] dict of the running lookup, the record dicts). *)
Record State : Type := mkState {
  http_calls : nat;
  page_calls : nat;
  fs_calls : nat;
  google_calls : nat;
  trace : list Event;
  scraper_pw : bool;                       (* self._pw is set *)
  scraper_browser : bool;                  (* self._browser is set *)
  result_dict : LookupResult;
  record_dicts : list EnrichmentRecord
}.

Definition empty_result : LookupResult :=
  mkLookup EmptyString EmptyString EmptyString.

Definition initial_state : State :=
  mkState 0 0 0 0 [] false false empty_result [].

Inductive result (A : Type) : Type :=
| Ret (a : A)
| Raise (e : exn)
| Fuel.
Arguments Raise {A} e.
Arguments Fuel {A}.

Definition M (A : Type) : Type := World -> State -> result A * State.

Definition ret {A : Type} (a : A) : M A := fun _ st => (Ret a, st).

Definition raise {A : Type} (e : exn) : M A := fun _ st => (Raise e, st).

Definition out_of_fuel {A : Type} : M A := fun _ st => (Fuel, st).

Definition bind {A B : Type} (m : M A) (f : A -> M B) : M B :=
  fun w st =>
    match m w st with
    | (Ret a, st') => f a w st'
    | (Raise e, st') => (Raise e, st')
    | (Fuel, st') => (Fuel, st')
    end.

Notation "x <- m ;; k" := (bind m (fun x => k))
  (at level 61, m at next level, right associativity).
Notation "m ;; k" := (bind m (fun _ => k))
  (at level 61, right associativity).

(** [try: body except Exception as e: handler e] *)
Definition try_except {A : Type} (body : M A) (handler : exn -> M A) : M A :=
  fun w st =>
    match body w st with
    | (Raise e, st') =>
        if is_Exception e then handler e w st' else (Raise e, st')
    | other => other
    end.

(** [try: body finally: fin]; an exception of [fin] replaces the pending
    outcome. *)
Definition try_finally {A : Type} (body : M A) (fin : M unit) : M A :=
  fun w st =>
    match body w st with
    | (Fuel, st') => (Fuel, st')
    | (r, st') =>
        match fin w st' with
        | (Ret _, st'') => (r, st'')
        | (Raise e, st'') => (Raise e, st'')
        | (Fuel, st'') => (Fuel, st'')
        end
    end.

(** ** Primitive effects *)

Definition with_trace (st : State) (tr : list Event) : State :=
  mkState (http_calls st) (page_calls st) (fs_calls st) (google_calls st)
          tr (scraper_pw st) (scraper_browser st)
          (result_dict st) (record_dicts st).

Definition record_event (e : Event) (st : State) : State :=
  with_trace st (trace st ++ [e]).

Definition emit (e : Event) : M unit :=
  fun _ st => (Ret tt, record_event e st).

Definition log (msg : LogMsg) : M unit := emit (ELog msg).

Definition answered {A : Type} (a : Answer A) (e : exn) (st : State)
  : result A * State :=
  match a with
  | Returns v => (Ret v, st)
  | Fails => (Raise e, st)
  end.

Definition count_http (st : State) : State :=
  mkState (S (http_calls st)) (page_calls st) (fs_calls st) (google_calls st)
          (trace st) (scraper_pw st) (scraper_browser st)
          (result_dict st) (record_dicts st).

Definition count_page (st : State) : State :=
  mkState (http_calls st) (S (page_calls st)) (fs_calls st) (google_calls st)
          (trace st) (scraper_pw st) (scraper_browser st)
          (result_dict st) (record_dicts st).

Definition count_fs (st : State) : State :=
  mkState (http_calls st) (page_calls st) (S (fs_calls st)) (google_calls st)
          (trace st) (scraper_pw st) (scraper_browser st)
          (result_dict st) (record_dicts st).

Definition count_google (st : State) : State :=
  mkState (http_calls st) (page_calls st) (fs_calls st) (S (google_calls st))
          (trace st) (scraper_pw st) (scraper_browser st)
          (result_dict st) (record_dicts st).

(** [self.session.get(url, params=params)] *)
Definition session_get (req : Request) : M Response :=
  fun w st =>
    answered (http_answers w (http_calls st)) RequestException
             (count_http (record_event (EGet req) st)).

(** A Playwright call; the text answered is what [inner_text] returns and
    is ignored by the other calls. *)
Definition page_call (op : PageOp) : M string :=
  fun w st =>
    answered (page_answers w (page_calls st)) PlaywrightError
             (count_page (record_event (EPage op) st)).

Definition fs_call (op : FsOp) : M unit :=
  fun w st =>
    let st' := count_fs (record_event (EFs op) st) in
    if fs_answers w (fs_calls st) then (Ret tt, st') else (Raise OSError, st').

(** A call of the Google client; [e] is the event it leaves. *)
Definition google_call (e : Event) : M string :=
  fun w st =>
    answered (google_answers w (google_calls st)) GoogleError
             (count_google (record_event e st)).

Definition ask {A : Type} (f : World -> A) : M A :=
  fun w st => (Ret (f w), st).

Definition get_state {A : Type} (f : State -> A) : M A :=
  fun _ st => (Ret (f st), st).

Definition with_pw (b : bool) (st : State) : State :=
  mkState (http_calls st) (page_calls st) (fs_calls st) (google_calls st)
          (trace st) b (scraper_browser st) (result_dict st) (record_dicts st).

Definition with_browser (b : bool) (st : State) : State :=
  mkState (http_calls st) (page_calls st) (fs_calls st) (google_calls st)
          (trace st) (scraper_pw st) b (result_dict st) (record_dicts st).

Definition with_result (r : LookupResult) (st : State) : State :=
  mkState (http_calls st) (page_calls st) (fs_calls st) (google_calls st)
          (trace st) (scraper_pw st) (scraper_browser st) r (record_dicts st).

Definition with_records (rs : list EnrichmentRecord) (st : State) : State :=
  mkState (http_calls st) (page_calls st) (fs_calls st) (google_calls st)
          (trace st) (scraper_pw st) (scraper_browser st) (result_dict st) rs.

(** [self._pw = ...] and [self._browser = ...] *)
Definition set_pw (b : bool) : M unit := fun _ st => (Ret tt, with_pw b st).

Definition set_browser (b : bool) : M unit :=
  fun _ st => (Ret tt, with_browser b st).

Definition set_result (r : LookupResult) : M unit :=
  fun _ st => (Ret tt, with_result r st).

Definition set_records (rs : list EnrichmentRecord) : M unit :=
  fun _ st => (Ret tt, with_records rs st).

(* ================================================================== *)
(** * STEP 1: shipped orders from the order API                        *)
(* ================================================================== *)

(** [resp.raise_for_status()]: statuses 400 to 599 raise. *)
Definition raise_for_status (resp : Response) : M unit :=
  let s := status_code resp in
  if (400 <=? s) && (s <? 600) then raise (HTTPError s) else ret tt.

(** [resp.json()] *)
Definition resp_json (resp : Response) : M Json :=
  match json_body resp with
  | Some j => ret j
  | None => raise JSONDecodeError
  end.

(** [int(resp.headers.get("Retry-After", 30))]: the header read as a whole
    number, 30 without a header. *)
Definition int_retry_after (resp : Response) : M Wait :=
  match retry_after resp with
  | None => ret (Seconds 30)
  | Some (Whole wait) => ret wait
  | Some NotWhole => raise ValueError
  end.

(** The number the warning shows with [%d]. *)
Definition seconds_of (wait : Wait) : Z :=
  match wait with
  | Seconds n => Z.of_nat n
  | Unsleepable seconds _ => seconds
  end.

Definition sleep_exn (why : SleepError) : exn :=
  match why with
  | NegativeLength => ValueError
  | TooLarge => OverflowError
  | InvalidArgument => OSError
  end.

(** [time.sleep(wait)] *)
Definition time_sleep (wait : Wait) : M unit :=
  match wait with
  | Seconds n => emit (ESleep n)
  | Unsleepable _ why => raise (sleep_exn why)
  end.

(** The body of [for attempt in range(5)], with [n] attempts left. *)
Fixpoint _get_attempts (n : nat) (req : Request) : M Json :=
  match n with
  | 0 => raise RateLimitExceeded
  | S n' =>
      resp <- session_get req ;;
      if status_code resp =? 429 then
        wait <- int_retry_after resp ;;
        log (RateLimitWait (seconds_of wait)) ;;
        time_sleep wait ;;
        _get_attempts n' req
      else
        raise_for_status resp ;;
        resp_json resp
  end.

Definition _get (req : Request) : M Json := _get_attempts 5 req.

(** The loop [while True] over the pages of /shipments. *)
Fixpoint shipments_pages (fuel : nat) (ship_date : Date) (storeId : nat)
  (page : nat) (all_shipments : list Shipment) : M (list Shipment) :=
  match fuel with
  | 0 => out_of_fuel
  | S fuel' =>
      data <- _get (GetShipments ship_date storeId 100 page) ;;
      let all_shipments := all_shipments ++ dict_get (shipments data) [] in
      if dict_get (pages data) 1 <=? page then ret all_shipments
      else shipments_pages fuel' ship_date storeId (page + 1) all_shipments
  end.

(** [s.get("orderId")] when it is truthy, that is present and nonzero. *)
Definition order_id_if_set (s : Shipment) : list nat :=
  match orderId s with
  | Some (S n) => [S n]
  | _ => []
  end.

(** The loop [for oid in order_ids] with its [try]/[except Exception]. *)
Fixpoint fetch_orders (order_ids : list nat) (all_orders : list Json)
  : M (list Json) :=
  match order_ids with
  | [] => ret all_orders
  | oid :: rest =>
      all_orders <-
        try_except
          (order <- _get (GetOrder oid) ;; ret (all_orders ++ [order]))
          (fun e => log (CouldNotFetchOrder oid e) ;; ret all_orders) ;;
      fetch_orders rest all_orders
  end.

Definition get_shipped_orders (fuel : nat) (ship_date : Date) (storeId : nat)
  : M (list Json) :=
  all_shipments <- shipments_pages fuel ship_date storeId 1 [] ;;
  match all_shipments with
  | [] => ret []
  | _ :: _ =>
      order_ids <- ask (fun w => set_list w (flat_map order_id_if_set all_shipments)) ;;
      fetch_orders order_ids []
  end.

(* ================================================================== *)
(** * STEP 3: the admin console, driven through a browser              *)
(* ================================================================== *)

Definition GPX_ADMIN_URL : string := "https://admin.gpx.co/".

Definition chars (s : string) : list ascii := list_ascii_of_string s.

(** rf'Serial:\s*{re.escape(serial)}\s+IMEI:\s*(\d{14,15})\s+ICCID:\s*(\d{19,22})'
    ([re.escape] makes the serial match literally). *)
Definition primary_pattern (serial : string) : pattern :=
  [ Lit (chars "Serial:"); Rep is_space 0 None false; Lit (chars serial);
    Rep is_space 1 None false;
    Lit (chars "IMEI:"); Rep is_space 0 None false;
    Rep is_digit 14 (Some 15) true;
    Rep is_space 1 None false;
    Lit (chars "ICCID:"); Rep is_space 0 None false;
    Rep is_digit 19 (Some 22) true ].

(** rf'Serial:\s*{re.escape(serial)}' *)
Definition serial_pattern (serial : string) : pattern :=
  [ Lit (chars "Serial:"); Rep is_space 0 None false; Lit (chars serial) ].

(** r'IMEI:\s*(\d{14,15})' and r'ICCID:\s*(\d{19,22})' *)
Definition imei_pattern : pattern :=
  [ Lit (chars "IMEI:"); Rep is_space 0 None false;
    Rep is_digit 14 (Some 15) true ].

Definition iccid_pattern : pattern :=
  [ Lit (chars "ICCID:"); Rep is_space 0 None false;
    Rep is_digit 19 (Some 22) true ].

Definition update_result (f : LookupResult -> LookupResult) : M unit :=
  r <- get_state result_dict ;; set_result (f r).

(** [result["imei"] = v] and [result["iccid"] = v] *)
Definition assign_imei (v : string) (r : LookupResult) : LookupResult :=
  mkLookup v (lr_iccid r) (lr_sim_provider r).

Definition assign_iccid (v : string) (r : LookupResult) : LookupResult :=
  mkLookup (lr_imei r) v (lr_sim_provider r).

Definition truthy (s : string) : bool := negb (str_empty s).

Definition search_screenshot (serial : string) : string :=
  String.append "/app/screenshots/gpx_search_" (String.append serial ".png").

Definition error_screenshot (serial : string) : string :=
  String.append "/app/screenshots/gpx_error_" (String.append serial ".png").

(** The block that clears the search for the next lookup: close button
    first, the input itself as a second try, and nothing if both fail. *)
Definition clear_search : M unit :=
  try_except
    (page_call (PwClick SelCloseButton) ;; ret tt)
    (fun _ =>
       try_except
         (page_call (PwTripleClick SelSearchShort) ;;
          page_call (PwPress SelSearchShort "Backspace") ;;
          ret tt)
         (fun _ => ret tt)).

(** The SEARCH block of [lookup_serial], up to reading the text of the
    result surface. *)
Definition lookup_search (serial : string) : M string :=
  page_call (PwClick SelSearch) ;;
  page_call (PwTripleClick SelSearch) ;;
  page_call (PwFill SelSearch serial) ;;
  page_call (PwPress SelSearch "Enter") ;;
  page_call PwWaitLoad ;;
  page_call PwInnerText.

(** The EXTRACT block of [lookup_serial]. *)
Definition lookup_extract (serial page_text : string) : M unit :=
  match re_search (primary_pattern serial) page_text with
  | Some m =>
      update_result (assign_imei (group 1 m)) ;;
      update_result (assign_iccid (group 2 m))
  | None =>
      match re_search (serial_pattern serial) page_text with
      | Some serial_match =>
          let nearby := substring (m_start serial_match) 300 page_text in
          match re_search imei_pattern nearby with
          | Some imei_m => update_result (assign_imei (group 1 imei_m))
          | None => ret tt
          end ;;
          match re_search iccid_pattern nearby with
          | Some iccid_m => update_result (assign_iccid (group 1 iccid_m))
          | None => ret tt
          end ;;
          result <- get_state result_dict ;;
          if truthy (lr_imei result) || truthy (lr_iccid result) then ret tt
          else
            page_call (PwScreenshot (search_screenshot serial)) ;;
            log (SerialNoIds serial)
      | None =>
          page_call (PwScreenshot (search_screenshot serial)) ;;
          log (SerialNotInResults serial)
      end
  end.

(** The [try] block of [lookup_serial]: search, extract, clear. *)
Definition lookup_try (serial : string) : M unit :=
  page_text <- lookup_search serial ;;
  lookup_extract serial page_text ;;
  clear_search.

Definition lookup_serial (serial : string) : M LookupResult :=
  set_result empty_result ;;
  try_except
    (lookup_try serial)
    (fun e =>
       page_call (PwScreenshot (error_screenshot serial)) ;;
       log (LookupError serial e) ;;
       try_except (page_call (PwGoto GPX_ADMIN_URL) ;; ret tt)
                  (fun _ => ret tt)) ;;
  get_state result_dict.

(** The loop over the dismiss texts of the passkey prompt: the first click
    that succeeds ends it, a failing click moves on to the next text. *)
Fixpoint dismiss_popup (texts : list string) : M unit :=
  match texts with
  | [] => ret tt
  | dismiss_text :: rest =>
      clicked <-
        try_except (page_call (PwClick (SelText dismiss_text)) ;; ret true)
                   (fun _ => ret false) ;;
      if clicked then ret tt else dismiss_popup rest
  end.

Definition _login : M unit :=
  page_call (PwGoto GPX_ADMIN_URL) ;;
  fs_call (FsMakedirs "/app/screenshots") ;;
  try_except
    (username <- ask gpx_username ;;
     page_call (PwFill SelEmail username) ;;
     password <- ask gpx_password ;;
     page_call (PwFill SelPassword password) ;;
     page_call (PwClick SelSubmit) ;;
     page_call PwWaitLoad ;;
     dismiss_popup ["Not now"; "Don't ask again"; "No thanks"; "Skip"; "Close"] ;;
     page_call (PwScreenshot "/app/screenshots/02_after_login.png") ;;
     ret tt)
    (fun e =>
       page_call (PwScreenshot "/app/screenshots/02_login_error.png") ;;
       log (LoginFailed e) ;;
       raise e).

(** [GPXScraper.start]: launch the browser, open a page, log in. *)
Definition start : M unit :=
  page_call PwStart ;;
  set_pw true ;;
  headless <- ask headless_cfg ;;
  page_call (PwLaunch headless) ;;
  set_browser true ;;
  page_call PwNewContext ;;
  page_call PwNewPage ;;
  _login.

(** [GPXScraper.upload_csv] *)
Definition upload_csv (csv_path : string) : M unit :=
  try_except
    (page_call (PwClick SelDevices) ;;
     page_call PwWaitLoad ;;
     page_call (PwClick SelActions) ;;
     page_call (PwClick SelUpdateRetailer) ;;
     page_call PwWaitLoad ;;
     page_call (PwScreenshot "/app/screenshots/04_upload_dialog.png") ;;
     page_call (PwSetInputFiles SelFileInput csv_path) ;;
     page_call (PwScreenshot "/app/screenshots/05_file_uploaded.png") ;;
     page_call (PwClick SelVerifyData) ;;
     page_call PwWaitLoad ;;
     page_call (PwScreenshot "/app/screenshots/06_verified.png") ;;
     page_call (PwScroll SelUpdateDevices) ;;
     page_call (PwClick SelUpdateDevices) ;;
     page_call PwWaitLoad ;;
     page_call (PwScreenshot "/app/screenshots/07_updated.png") ;;
     ret tt)
    (fun e =>
       page_call (PwScreenshot "/app/screenshots/gpx_upload_error.png") ;;
       log (UploadFailed e) ;;
       raise e).

(** [GPXScraper.close]; [EClose] marks that the method was entered. *)
Definition close : M unit :=
  emit EClose ;;
  browser <- get_state scraper_browser ;;
  (if browser then page_call PwBrowserClose ;; ret tt else ret tt) ;;
  pw <- get_state scraper_pw ;;
  (if pw then page_call PwStop ;; ret tt else ret tt).

(** The handle [enrich_with_gpx] hands to [run]: the one scraper object,
    or Python's [None]. *)
Inductive GPXScraper : Type := TheScraper.

Definition is_not_found (r : EnrichmentRecord) : bool :=
  String.eqb (serial r) "NOT FOUND".

(** The positions in [records] of the dicts that [to_lookup] shares with
    it: those whose serial is not the sentinel. *)
Fixpoint to_lookup_from (i : nat) (records : list EnrichmentRecord)
  : list nat :=
  match records with
  | [] => []
  | r :: rest =>
      if is_not_found r then to_lookup_from (S i) rest
      else i :: to_lookup_from (S i) rest
  end.

Fixpoint update_nth {A : Type} (i : nat) (f : A -> A) (l : list A) : list A :=
  match l, i with
  | [], _ => []
  | x :: l', 0 => f x :: l'
  | x :: l', S j => x :: update_nth j f l'
  end.

(** The four assignments to [record] after a lookup. *)
Definition merge_lookup (gpx_data : LookupResult) (r : EnrichmentRecord)
  : EnrichmentRecord :=
  mkRecord (sku r) (serial r)
           (lr_imei gpx_data) (lr_iccid gpx_data) (lr_sim_provider gpx_data)
           "shopify" (status r) (order_number r) (raw_notes r).

Definition blank_record : EnrichmentRecord :=
  mkRecord EmptyString EmptyString EmptyString EmptyString EmptyString
           EmptyString EmptyString EmptyString EmptyString.

(** The loop [for record in to_lookup]; the record dicts are updated in
    place, so an exception leaves the earlier updates visible. *)
Fixpoint lookup_loop (to_lookup : list nat) : M unit :=
  match to_lookup with
  | [] => ret tt
  | i :: rest =>
      records <- get_state record_dicts ;;
      gpx_data <- lookup_serial (serial (nth i records blank_record)) ;;
      records <- get_state record_dicts ;;
      set_records (update_nth i (merge_lookup gpx_data) records) ;;
      lookup_loop rest
  end.

Definition enrich_with_gpx (records : list EnrichmentRecord)
  : M (list EnrichmentRecord * option GPXScraper) :=
  set_records records ;;
  match to_lookup_from 0 records with
  | [] =>
      log NoSerialsToLookUp ;;
      ret (records, None)
  | to_lookup =>
      set_pw false ;; set_browser false ;;        (* GPXScraper(...) *)
      (* the [return records, scraper] after the [try] cannot fail, so it
         is written as the last step of the body *)
      try_except
        (start ;;
         lookup_loop to_lookup ;;
         records <- get_state record_dicts ;;
         ret (records, Some TheScraper))
        (fun e =>
           log (GpxLookupFailed e) ;;
           close ;;
           records <- get_state record_dicts ;;
           ret (records, None))
  end.

(* ================================================================== *)
(** * STEP 4: the tabular payload and the document store               *)
(* ================================================================== *)

Definition SHEET_HEADERS : list string :=
  ["SKU"; EmptyString; "Serial"; "IMEI"; "ICCID"; EmptyString;
   "SIM Provider"; "Retailer"; "Status"].

Definition nat_to_string (n : nat) : string :=
  DecimalString.NilEmpty.string_of_uint (Nat.to_uint n).

(** [f"{n:02d}"] *)
Definition pad2 (n : nat) : string :=
  if n <? 10 then String.append "0" (nat_to_string n) else nat_to_string n.

(** [format_sheet_date]: month as it is, day on two digits, year on its
    last two digits. *)
Definition format_sheet_date (d : Date) : string :=
  String.append (nat_to_string (month d))
    (String.append "."
      (String.append (pad2 (day d))
        (String.append "." (pad2 (year d mod 100))))).

(** The text of [target_date], YYYY-MM-DD. *)
Definition date_text (d : Date) : string :=
  String.append (nat_to_string (year d))
    (String.append "-"
      (String.append (pad2 (month d)) (String.append "-" (pad2 (day d))))).

(** [tempfile.NamedTemporaryFile(prefix=..., suffix=..., delete=False)]:
    creates the file and gives its name, here numbered by the call. *)
Definition temp_file (prefix suffix : string) : M string :=
  k <- get_state fs_calls ;;
  fs_call (FsTempFile prefix suffix) ;;
  ret (String.append prefix (String.append (nat_to_string k) suffix)).

(** The rows [create_and_populate_sheet] hands to [csv.writer]. *)
Definition sheet_rows (records : list EnrichmentRecord) : list (list string) :=
  SHEET_HEADERS ::
  map (fun r =>
         [EmptyString; EmptyString; serial r; imei r; iccid r;
          EmptyString; sim_provider r; retailer r; status r])
      records.

Definition create_and_populate_sheet (records : list EnrichmentRecord)
  (date : Date) : M string :=
  let sheet_date := format_sheet_date date in
  let title := String.append "Shopify Shipment - " sheet_date in
  let csv_content := sheet_rows records in
  temp_path <- temp_file EmptyString ".csv" ;;
  fs_call (FsWrite temp_path csv_content) ;;
  try_finally
    (google_call (EDriveCreate (String.append title ".csv") csv_content))
    (fs_call (FsUnlink temp_path)).

(** [get_google_services]: without token.json the program exits; loading
    and refreshing the credentials and building the client is one call of
    the Google client. *)
Definition get_google_services : M unit :=
  present <- ask token_exists ;;
  if present then google_call EGoogleAuth ;; ret tt
  else log TokenMissing ;; raise (SystemExit 1).

(* ================================================================== *)
(** * The orchestrator                                                  *)
(* ================================================================== *)

(** The rows [run] hands to its own [csv.writer]. *)
Definition run_rows (records : list EnrichmentRecord) : list (list string) :=
  SHEET_HEADERS ::
  map (fun r =>
         [EmptyString; EmptyString; serial r; imei r; iccid r;
          EmptyString; sim_provider r; retailer r; status r])
      records.

(** [if gpx_scraper: gpx_scraper.close()] *)
Definition close_if_open (gpx_scraper : option GPXScraper) : M unit :=
  match gpx_scraper with
  | Some _ => close
  | None => ret tt
  end.

(** The part of [run] after the enrichment: build the CSV file, then the
    dry-run or the live branch. *)
Definition run_publish (records : list EnrichmentRecord)
  (gpx_scraper : option GPXScraper) (target_date : Date) (dry_run : bool)
  : M unit :=
  csv_path <- temp_file "shopify_shipment_" ".csv" ;;
  fs_call (FsWrite csv_path (run_rows records)) ;;
  if dry_run then
    fs_call (FsCopy csv_path
               (String.append (date_text target_date) "_dry_run.csv")) ;;
    close_if_open gpx_scraper ;;
    fs_call (FsUnlink csv_path)
  else
    try_finally
      (get_google_services ;;
       create_and_populate_sheet records target_date ;;
       match gpx_scraper with
       | Some _ =>
           try_except (upload_csv csv_path)
                      (fun e => log (GpxUploadNonFatal e))
       | None => log ScraperNotAvailable
       end)
      (close_if_open gpx_scraper ;;
       fs_call (FsUnlink csv_path)).

Definition run (fuel : nat) (target_date : option Date) (dry_run : bool)
  : M unit :=
  target_date <- match target_date with
                 | Some d => ret d
                 | None => ask today
                 end ;;
  storeId <- ask store_id ;;
  orders <- get_shipped_orders fuel target_date storeId ;;
  match orders with
  | [] => log NoShippedOrders
  | _ :: _ =>
      match parse_orders orders with
      | [] => log NoRecords
      | records =>
          enriched <- enrich_with_gpx records ;;
          run_publish (fst enriched) (snd enriched) target_date dry_run
      end
  end.

(* ================================================================== *)
(** * Worlds to run the program in                                     *)
(* ================================================================== *)

Definition empty_json : Json := mkJson None None None None None.

(** The answer 200 OK with a JSON body. *)
Definition ok_json (j : Json) : Answer Response :=
  Returns (mkResponse 200 None (Some j)).

(** A world given by its answers; sets iterate in first-occurrence order. *)
Definition world_of (http : nat -> Answer Response)
  (page : nat -> Answer string) (fs : nat -> bool) (token : bool)
  (google : nat -> Answer string) : World :=
  mkWorld 42 "operator" "secret" true (mkDate 2026 2 26)
          http page fs token google
          (nodup Nat.eq_dec) (fun l => Permutation_refl _).

(** The k-th element of a script of answers, [last] once it is used up. *)
Definition script {A : Type} (answers : list A) (last : A) (k : nat) : A :=
  nth k answers last.

(** ** States reached by the retry loop

    [rate_limited req wait st] is the state after one attempt answered 429:
    the request sent, the warning logged, the wait slept. *)
Definition rate_limited (req : Request) (wait : nat) (st : State) : State :=
  record_event (ESleep wait)
    (record_event (ELog (RateLimitWait (Z.of_nat wait)))
       (count_http (record_event (EGet req) st))).

Definition waited (req : Request) (waits : list nat) (st : State) : State :=
  fold_left (fun s wait => rate_limited req wait s) waits st.

(** The header can be waited for: there is none, or it reads as a whole
    number of seconds that [time.sleep] accepts. *)
Definition waitable (resp : Response) : bool :=
  match retry_after resp with
  | None | Some (Whole (Seconds _)) => true
  | _ => false
  end.

(** The seconds waited after a 429 answer whose header can be waited for:
    those of the header, 30 without one. *)
Definition wait_of (resp : Response) : nat :=
  match retry_after resp with
  | Some (Whole (Seconds n)) => n
  | _ => 30
  end.

(** What a 429 answer whose header cannot be waited for raises, and whether
    the warning was logged before. *)
Definition wait_failure (resp : Response) : exn * list Event :=
  match retry_after resp with
  | Some (Whole (Unsleepable seconds why)) =>
      (sleep_exn why, [ELog (RateLimitWait seconds)])
  | _ => (ValueError, [])
  end.

(** The status is one [raise_for_status] rejects. *)
Definition is_error_status (s : nat) : bool := (400 <=? s) && (s <? 600).

(** A world whose k-th HTTP answer is the response [rs k]; every other
    kind of call succeeds with an empty answer. *)
Definition http_world (rs : nat -> Response) : World :=
  world_of (fun k => Returns (rs k)) (fun _ => Returns EmptyString)
           (fun _ => true) true (fun _ => Returns EmptyString).

(** Four 429 answers, two of them with a wait hint, then 200 with a body. *)
Definition four_429_then_ok : nat -> Response :=
  script [mkResponse 429 None None;
          mkResponse 429 (Some (Whole (Seconds 2))) None;
          mkResponse 429 None None;
          mkResponse 429 (Some (Whole (Seconds 1))) None]
         (mkResponse 200 None (Some empty_json)).

Definition always_429 : nat -> Response := fun _ => mkResponse 429 None None.

Definition always_500 : nat -> Response := fun _ => mkResponse 500 None None.

(** Not Modified, with a body that decodes. *)
Definition always_304 : nat -> Response :=
  fun _ => mkResponse 304 None (Some empty_json).

(** A success status as the specification has it: 200 to 299. *)
Definition is_success_status (s : nat) : bool := (200 <=? s) && (s <? 300).

(** The state after the events [evs], recorded in turn. *)
Definition record_events (evs : list Event) (st : State) : State :=
  fold_left (fun s e => record_event e s) evs st.

(** The state after a request that was sent and answered at once. *)
Definition sent (req : Request) (st : State) : State :=
  count_http (record_event (EGet req) st).

(** Three pages holding two, three and no shipments, each reporting a
    total of three pages. *)
Definition three_pages : nat -> Json :=
  script
    [mkJson (Some [mkShipment (Some 7); mkShipment (Some 8)]) (Some 3)
            None None None;
     mkJson (Some [mkShipment (Some 7); mkShipment (Some 9);
                   mkShipment None]) (Some 3) None None None]
    (mkJson (Some []) (Some 3) None None None).

(** ** The per-order fetches of a batch, one after the other

    [fetch_chain w st ids outs st'] holds when fetching the orders [ids] in
    turn, each [_get] starting in the state its predecessor left (after
    the warning of a failed one), gives the outcomes [outs] and ends in
    [st']. *)
Inductive fetch_chain (w : World)
  : State -> list nat -> list (result Json) -> State -> Prop :=
| chain_nil (st : State) : fetch_chain w st [] [] st
| chain_fetched (st st1 st' : State) (oid : nat) (order : Json)
    (rest : list nat) (outs : list (result Json)) :
    _get (GetOrder oid) w st = (Ret order, st1) ->
    fetch_chain w st1 rest outs st' ->
    fetch_chain w st (oid :: rest) (Ret order :: outs) st'
| chain_failed (st st1 st' : State) (oid : nat) (e : exn)
    (rest : list nat) (outs : list (result Json)) :
    _get (GetOrder oid) w st = (Raise e, st1) ->
    fetch_chain w (record_event (ELog (CouldNotFetchOrder oid e)) st1)
                rest outs st' ->
    fetch_chain w st (oid :: rest) (Raise e :: outs) st'.

(** The orders among the outcomes of a batch. *)
Definition fetched (outs : list (result Json)) : list Json :=
  flat_map (fun out => match out with Ret order => [order] | _ => [] end) outs.

(** Order 7 answers 500, order 8 is rate limited once and then answers,
    order 9 answers with a body that is not JSON. *)
Definition flaky_orders : nat -> Response :=
  script [mkResponse 500 None None;
          mkResponse 429 (Some (Whole (Seconds 1))) None;
          mkResponse 200 None
            (Some (mkJson None None (Some "1008") (Some "263384") None));
          mkResponse 200 None None]
         (mkResponse 200 None (Some empty_json)).

(* ================================================================== *)
(** * Assertions on computations                                       *)
(* ================================================================== *)

(** [inv I m]: [m] keeps the state invariant [I], however it ends. *)
Definition inv {A : Type} (I : State -> Prop) (m : M A) : Prop :=
  forall w st, I st -> I (snd (m w st)).

(** An invariant that no counter and no scraper handle can break, and that
    recording an event accepted by [ok] keeps. *)
Record stable (ok : Event -> Prop) (I : State -> Prop) : Prop := mkStable {
  stable_event : forall e st, ok e -> I st -> I (record_event e st);
  stable_http : forall st, I st -> I (count_http st);
  stable_page : forall st, I st -> I (count_page st);
  stable_fs : forall st, I st -> I (count_fs st);
  stable_google : forall st, I st -> I (count_google st);
  stable_pw : forall b st, I st -> I (with_pw b st);
  stable_browser : forall b st, I st -> I (with_browser b st)
}.

(** ** What the payloads look like

    The rows an event writes to a file or uploads, if it does. *)
Definition event_payload (e : Event) : option (list (list string)) :=
  match e with
  | EFs (FsWrite _ rows) => Some rows
  | EDriveCreate _ rows => Some rows
  | _ => None
  end.

(** The row holds the empty string in each of the columns [cols] (column A
    is 0). *)
Definition row_blank_at (cols : list nat) (row : list string) : Prop :=
  Forall (fun i => nth_error row i = Some EmptyString) cols.

(** The payload starts with the header row and every data row is blank in
    the columns [cols]. *)
Definition payload_blank_at (cols : list nat) (rows : list (list string))
  : Prop :=
  match rows with
  | header :: data =>
      header = SHEET_HEADERS /\ Forall (row_blank_at cols) data
  | [] => False
  end.

Definition payloads_blank_at (cols : list nat) (tr : list Event) : Prop :=
  Forall (fun e => match event_payload e with
                   | Some rows => payload_blank_at cols rows
                   | None => True
                   end) tr.

Definition no_sim_provider (r : EnrichmentRecord) : Prop :=
  sim_provider r = EmptyString.

(** The invariant of a run: the payloads so far are blank in columns A, B,
    F and G, and neither a record dict nor the lookup's result dict holds a
    SIM provider. *)
Definition run_invariant (st : State) : Prop :=
  payloads_blank_at [0; 1; 5; 6] (trace st)
  /\ Forall no_sim_provider (record_dicts st)
  /\ lr_sim_provider (result_dict st) = EmptyString.

Definition payload_event_ok (e : Event) : Prop :=
  match event_payload e with
  | Some rows => payload_blank_at [0; 1; 5; 6] rows
  | None => True
  end.

(** The record with its sku erased. *)
Definition forget_sku (r : EnrichmentRecord) : EnrichmentRecord :=
  mkRecord EmptyString (serial r) (imei r) (iccid r) (sim_provider r)
           (retailer r) (status r) (order_number r) (raw_notes r).

(** ** How the enrichment ends when the session or a lookup raises

    [enrich_failure w e s]: what the [except Exception] clause of
    [enrich_with_gpx] makes of the exception [e] raised in state [s]. *)
Definition enrich_failure (w : World) (e : exn) (s : State)
  : result (list EnrichmentRecord * option GPXScraper) * State :=
  if is_Exception e then
    match close w (record_event (ELog (GpxLookupFailed e)) s) with
    | (Ret _, s') => (Ret (record_dicts s', None), s')
    | (Raise e', s') => (Raise e', s')
    | (Fuel, s') => (Fuel, s')
    end
  else (Raise e, s).

(** The state in which [scraper.start()] is entered: the record dicts in
    place and a scraper object just built. *)
Definition before_start (records : list EnrichmentRecord) (st : State)
  : State :=
  with_browser false (with_pw false (with_records records st)).

(** The result dict of the running lookup holds no SIM provider. *)
Definition result_without_sim (st : State) : Prop :=
  lr_sim_provider (result_dict st) = EmptyString.

(** A console whose result surface shows the device card of serial 274341,
    every browser call succeeding. *)
Definition card_text : string :=
  "274341 ID: 337927  Serial: 274341  IMEI: 862601768000477  ICCID: 8901176000000000001".

Definition console_world (page_text : string) : World :=
  world_of (fun _ => Fails) (fun _ => Returns page_text)
           (fun _ => true) true (fun _ => Returns EmptyString).

(** ** What a match is made of

    [piece_of a x]: the text [x] is what the atom [a] may consume. *)
Inductive piece_of : atom -> list ascii -> Prop :=
| piece_lit (l : list ascii) : piece_of (Lit l) l
| piece_rep (cls : ascii -> bool) (lo : nat) (hi : option nat)
    (capture : bool) (x : list ascii) :
    forallb cls x = true ->
    lo <= length x ->
    match hi with Some h => length x <= h | None => True end ->
    piece_of (Rep cls lo hi capture) x
| piece_wordb : piece_of WordB [].

(** The pieces of the capturing atoms, in order. *)
Fixpoint captures (p : pattern) (pieces : list (list ascii))
  : list (list ascii) :=
  match p, pieces with
  | Rep _ _ _ true :: p', x :: xs => x :: captures p' xs
  | _ :: p', _ :: xs => captures p' xs
  | _, _ => []
  end.

(** ** The two-tier extraction as the specification words it *)

Definition group_or_empty (m : option Match) : string :=
  match m with
  | Some m => group 1 m
  | None => EmptyString
  end.

(** Primary tier: the combined pattern gives both identifiers.  Fallback
    tier: when the serial label is found, the IMEI and the ICCID are looked
    for separately in the 300 characters that start at the label.
    Otherwise every field stays empty. *)
Definition two_tier (serial page_text : string) : LookupResult :=
  match re_search (primary_pattern serial) page_text with
  | Some m => mkLookup (group 1 m) (group 2 m) EmptyString
  | None =>
      match re_search (serial_pattern serial) page_text with
      | Some serial_match =>
          let nearby := substring (m_start serial_match) 300 page_text in
          mkLookup (group_or_empty (re_search imei_pattern nearby))
                   (group_or_empty (re_search iccid_pattern nearby))
                   EmptyString
      | None => empty_result
      end
  end.

(** Neither identifier was found. *)
Definition unresolved (r : LookupResult) : bool :=
  negb (truthy (lr_imei r) || truthy (lr_iccid r)).

(** ** States reached by successful browser calls *)

Definition called (ops : list PageOp) (st : State) : State :=
  fold_left (fun s op => count_page (record_event (EPage op) s)) ops st.

(** The six calls of the SEARCH block. *)
Definition search_calls (serial : string) : list PageOp :=
  [PwClick SelSearch; PwTripleClick SelSearch; PwFill SelSearch serial;
   PwPress SelSearch "Enter"; PwWaitLoad; PwInnerText].

(** The text a match covers. *)
Definition matched_text (text : string) (m : Match) : list ascii :=
  firstn (m_len m) (skipn (m_start m) (chars text)).

(** [lo] to [hi] characters, all digits. *)
Definition digits_between (lo hi : nat) (x : list ascii) : Prop :=
  forallb is_digit x = true /\ lo <= length x <= hi.


(** ** Steps of a lookup, uses of close *)

(** The event is one of the six calls a lookup starts with. *)
Definition is_lookup_step (e : Event) : bool :=
  match e with
  | EPage (PwClick SelSearch) => true
  | EPage (PwTripleClick SelSearch) => true
  | EPage (PwFill SelSearch _) => true
  | EPage (PwPress SelSearch _) => true
  | EPage PwInnerText => true
  | _ => false
  end.

Definition is_close (e : Event) : bool :=
  match e with
  | EClose => true
  | _ => false
  end.

(** How many times [GPXScraper.close] was entered. *)
Definition close_count (tr : list Event) : nat := length (filter is_close tr).

(** The event touches the browser or the scraper. *)
Definition is_console_event (e : Event) : bool :=
  match e with
  | EPage _ => true
  | EClose => true
  | _ => false
  end.

(** Neither a lookup step nor a close. *)
Definition is_quiet (e : Event) : bool :=
  negb (is_lookup_step e || is_close e).

(** Since the state [st0], the record dicts are untouched and every event
    recorded is quiet. *)
Definition quiet_since (st0 st : State) : Prop :=
  record_dicts st = record_dicts st0
  /\ exists evs, trace st = trace st0 ++ evs /\ forallb is_quiet evs = true.

(** One shipped order, number 1007, whose notes hold the serial 274341. *)
Definition one_listing : Json :=
  mkJson (Some [mkShipment (Some 7)]) (Some 1) None None None.

Definition order_1007 : Json :=
  mkJson None None (Some "1007") (Some "274341") (Some [mkItem (Some "GPX-1")]).

(** A world with that one order, a browser answering by [page] and a file
    system answering by [fs]; the document store accepts uploads. *)
Definition one_order_world (page : nat -> Answer string) (fs : nat -> bool)
  : World :=
  world_of (script [ok_json one_listing] (ok_json order_1007))
           page fs true (fun _ => Returns "file-1").

(** Since the state [st0], no event recorded touches the browser or the
    scraper. *)
Definition console_idle_since (st0 st : State) : Prop :=
  exists evs, trace st = trace st0 ++ evs
              /\ existsb is_console_event evs = false.

(** What a live publish without a session records when every file and
    document-store call succeeds: the payload file, the upload to the
    document store, the warning that the console update is skipped. *)
Definition publish_without_session (records : list EnrichmentRecord)
  (date : Date) (st : State) : list Event :=
  let csv_path :=
    String.append "shopify_shipment_"
      (String.append (nat_to_string (fs_calls st)) ".csv") in
  let temp_path :=
    String.append EmptyString
      (String.append (nat_to_string (fs_calls st + 2)) ".csv") in
  [ EFs (FsTempFile "shopify_shipment_" ".csv");
    EFs (FsWrite csv_path (run_rows records));
    EGoogleAuth;
    EFs (FsTempFile EmptyString ".csv");
    EFs (FsWrite temp_path (sheet_rows records));
    EDriveCreate
      (String.append
         (String.append "Shopify Shipment - " (format_sheet_date date)) ".csv")
      (sheet_rows records);
    EFs (FsUnlink temp_path);
    ELog ScraperNotAvailable;
    EFs (FsUnlink csv_path) ].

(** A console that cannot even be started, and one where everything
    works; the file system works in both. *)
Definition dead_console_world : World :=
  one_order_world (fun _ => Fails) (fun _ => true).

(** The console works; the file system fails from its call number [k] on
    (calls are numbered from 0). *)
Definition disk_fails_at (k : nat) : World :=
  one_order_world (fun _ => Returns card_text) (fun i => i <? k).

Definition the_date : Date := mkDate 2026 2 26.

(** Serial tokens written one after the other, each followed by its
    separator. *)
Fixpoint separated (parts : list (list ascii * list ascii)) : list ascii :=
  match parts with
  | [] => []
  | (tok, sep) :: rest => tok ++ sep ++ separated rest
  end.

Definition is_nil {A : Type} (l : list A) : bool :=
  match l with [] => true | _ => false end.

(** Each token is 5 to 7 digits; each separator is made of non-word
    characters and, unless it ends the text, is not empty. *)
Fixpoint well_separated (parts : list (list ascii * list ascii)) : bool :=
  match parts with
  | [] => true
  | (tok, sep) :: rest =>
      forallb is_digit tok && (5 <=? length tok) && (length tok <=? 7)
      && forallb non_word sep
      && (is_nil rest || negb (is_nil sep))
      && well_separated rest
  end.

(** The record [parse_orders] builds before any lookup. *)
Definition fresh_record (r : EnrichmentRecord) : Prop :=
  imei r = EmptyString /\ iccid r = EmptyString
  /\ sim_provider r = EmptyString
  /\ retailer r = "shopify" /\ status r = "unassigned".

(** An order with three serials in its notes and two line items. *)
Definition three_serials_two_items : Json :=
  mkJson None None (Some "1010") (Some "263384 263385 263386")
         (Some [mkItem (Some "GPX-A"); mkItem (Some "GPX-B")]).

(** The answer makes [_get] wait and try again: a response with status 429
    whose Retry-After header can be waited for. *)
Definition retried (a : Answer Response) : bool :=
  match a with
  | Returns r => (status_code r =? 429) && waitable r
  | Fails => false
  end.

(** What [_get] makes of an answer it does not retry after, and the events
    it records after the request: the call failing; a 429 whose header
    [int(...)] rejects, or whose wait [time.sleep] refuses once the warning
    is logged; [raise_for_status] raising; or the body decoded by
    [resp.json()]. *)
Definition decided (a : Answer Response) : result Json * list Event :=
  match a with
  | Fails => (Raise RequestException, [])
  | Returns r =>
      if status_code r =? 429
      then (Raise (fst (wait_failure r)), snd (wait_failure r))
      else if is_error_status (status_code r)
      then (Raise (HTTPError (status_code r)), [])
      else match json_body r with
           | Some j => (Ret j, [])
           | None => (Raise JSONDecodeError, [])
           end
  end.

(** A 429 answer whose Retry-After header is an HTTP date, and one whose
    header announces a negative wait. *)
Definition dated_429 : nat -> Response :=
  fun _ => mkResponse 429 (Some NotWhole) None.

Definition negative_429 : nat -> Response :=
  fun _ => mkResponse 429 (Some (Whole (Unsleepable (-1) NegativeLength)))
                      None.

(** Since the state [st0], every event recorded satisfies [P]. *)
Definition events_since (P : Event -> bool) (st0 st : State) : Prop :=
  exists evs, trace st = trace st0 ++ evs /\ forallb P evs = true.

(** The events of paging through the listing: its requests, and the waits
    of the rate limit. *)
Definition is_listing_event (e : Event) : bool :=
  match e with
  | EGet (GetShipments _ _ _ _) => true
  | ESleep _ => true
  | ELog (RateLimitWait _) => true
  | _ => false
  end.

(** [target_date], or today's date when none is given. *)
Definition effective_date (w : World) (target_date : option Date) : Date :=
  match target_date with
  | Some d => d
  | None => today w
  end.

(** The events of the order API: requests, rate-limit waits, and the
    warning for an order that could not be fetched. *)
Definition is_api_event (e : Event) : bool :=
  match e with
  | EGet _ => true
  | ESleep _ => true
  | ELog (RateLimitWait _) => true
  | ELog (CouldNotFetchOrder _ _) => true
  | _ => false
  end.

(** The browser calls only [upload_csv] makes: the clicks that open the
    update dialog, verify and commit, the file selection, the scrolling. *)
Definition is_upload_op (op : PageOp) : bool :=
  match op with
  | PwClick SelDevices => true
  | PwClick SelActions => true
  | PwClick SelUpdateRetailer => true
  | PwClick SelVerifyData => true
  | PwClick SelUpdateDevices => true
  | PwSetInputFiles _ _ => true
  | PwScroll _ => true
  | _ => false
  end.

(** The events of opening the session, looking serials up and giving the
    session up. *)
Definition is_session_event (e : Event) : bool :=
  match e with
  | EPage op => negb (is_upload_op op)
  | EClose => true
  | EFs (FsMakedirs _) => true
  | ELog (LoginFailed _) => true
  | ELog (SerialNoIds _) => true
  | ELog (SerialNotInResults _) => true
  | ELog (LookupError _ _) => true
  | ELog NoSerialsToLookUp => true
  | ELog (GpxLookupFailed _) => true
  | _ => false
  end.

(** The events of publishing.  A dry run writes, copies and removes the
    CSV file and closes the session; a live run also calls the document
    store and drives the upload dialog of the console, and never copies. *)
Definition is_publish_event (dry_run : bool) (e : Event) : bool :=
  match e with
  | EFs (FsMakedirs _) => false
  | EFs (FsCopy _ _) => dry_run
  | EFs _ => true
  | EClose => true
  | EPage PwBrowserClose => true
  | EPage PwStop => true
  | EPage PwWaitLoad => negb dry_run
  | EPage (PwScreenshot _) => negb dry_run
  | EPage op => negb dry_run && is_upload_op op
  | EGoogleAuth => negb dry_run
  | EDriveCreate _ _ => negb dry_run
  | ELog TokenMissing => negb dry_run
  | ELog (UploadFailed _) => negb dry_run
  | ELog (GpxUploadNonFatal _) => negb dry_run
  | ELog ScraperNotAvailable => negb dry_run
  | _ => false
  end.

(** The event calls the document store or is a step of the console's
    upload dialog. *)
Definition is_upload_event (e : Event) : bool :=
  match e with
  | EGoogleAuth => true
  | EDriveCreate _ _ => true
  | EPage op => is_upload_op op
  | _ => false
  end.

(** The events of a run: those of the order API, of the session and of
    publishing, and the warning that nothing was shipped. *)
Definition is_run_event (dry_run : bool) (e : Event) : bool :=
  is_api_event e || is_session_event e || is_publish_event dry_run e
  || match e with ELog NoShippedOrders => true | _ => false end.

(** What the enrichment may change of a record: the identifiers it looks
    up and the retailer, which it sets to shopify; a sentinel record is
    left as it is. *)
Definition same_identity (r0 r : EnrichmentRecord) : Prop :=
  sku r = sku r0 /\ serial r = serial r0 /\ status r = status r0
  /\ order_number r = order_number r0 /\ raw_notes r = raw_notes r0
  /\ (retailer r = retailer r0 \/ retailer r = "shopify")
  /\ (serial r0 = "NOT FOUND" -> r = r0).

(** An order whose notes hold no serial. *)
Definition order_without_serial : Json :=
  mkJson None None (Some "1011") (Some "gift wrap, call first")
         (Some [mkItem (Some "GPX-A"); mkItem (Some "GPX-B")]).

(** The record dicts are as given. *)
Definition records_are (rs : list EnrichmentRecord) (st : State) : Prop :=
  record_dicts st = rs.

(** ** A console that answers every call *)

(** What the enrichment makes of a record when every lookup reads the text
    [page_text]. *)
Definition enriched_from (page_text : string) (r : EnrichmentRecord)
  : EnrichmentRecord :=
  if is_not_found r then r
  else merge_lookup (two_tier (serial r) page_text) r.

(** The text the SEARCH block of a lookup entered in state [st] reads: the
    answer to its sixth browser call, provided the first five succeed. *)
Definition search_text (w : World) (st : State) : option string :=
  if forallb (fun k => match page_answers w (k + page_calls st) with
                       | Returns _ => true
                       | Fails => false
                       end) (seq 0 5)
  then match page_answers w (5 + page_calls st) with
       | Returns t => Some t
       | Fails => None
       end
  else None.

(** A console whose third call fails: the search of a lookup is cut
    short, its error screenshot can be taken. *)
Definition search_fails_world : World :=
  world_of (fun _ => Fails)
           (script [Returns EmptyString; Returns EmptyString; Fails]
                   (Returns card_text))
           (fun _ => true) true (fun _ => Returns EmptyString).

(** ** The upload to the document store *)

(** The name [NamedTemporaryFile] gives the file created by the call
    number [k]. *)
Definition temp_name (prefix : string) (k : nat) (suffix : string) : string :=
  String.append prefix (String.append (nat_to_string k) suffix).

(** The name of the file uploaded for a date. *)
Definition sheet_file_name (date : Date) : string :=
  String.append
    (String.append "Shopify Shipment - " (format_sheet_date date)) ".csv".

(** A document store that refuses the upload. *)
Definition drive_refuses_world : World :=
  world_of (fun _ => Fails) (fun _ => Fails) (fun _ => true) true
           (fun _ => Fails).

(** The browser calls of [close], by the handles of the scraper. *)
Definition close_ops (st : State) : list PageOp :=
  (if scraper_browser st then [PwBrowserClose] else [])
  ++ (if scraper_pw st then [PwStop] else []).

(** What [if gpx_scraper: gpx_scraper.close()] records when the browser
    answers. *)
Definition session_closed (gpx_scraper : option GPXScraper) (st : State)
  : list Event :=
  match gpx_scraper with
  | Some _ => EClose :: map EPage (close_ops st)
  | None => []
  end.

(** The CSV file of [run]: its name, and the events of creating and
    writing it. *)
Definition csv_name (st : State) : string :=
  temp_name "shopify_shipment_" (fs_calls st) ".csv".

Definition csv_written (records : list EnrichmentRecord) (st : State)
  : list Event :=
  [EFs (FsTempFile "shopify_shipment_" ".csv");
   EFs (FsWrite (csv_name st) (run_rows records))].

(** The events of [create_and_populate_sheet] when its file calls succeed;
    its temporary file is the third file-system call after [st]. *)
Definition sheet_uploaded (records : list EnrichmentRecord) (date : Date)
  (st : State) : list Event :=
  [EFs (FsTempFile EmptyString ".csv");
   EFs (FsWrite (temp_name EmptyString (S (S (fs_calls st))) ".csv")
                (sheet_rows records));
   EDriveCreate (sheet_file_name date) (sheet_rows records);
   EFs (FsUnlink (temp_name EmptyString (S (S (fs_calls st))) ".csv"))].

(** A working browser and disk, a session open, and no token.json. *)
Definition no_token_world : World :=
  world_of (fun _ => Fails) (fun _ => Returns EmptyString) (fun _ => true)
           false (fun _ => Fails).

Definition session_open : State :=
  with_browser true (with_pw true initial_state).

(** ** The bulk update of the console *)

(** The browser calls of [upload_csv], in order. *)
Definition upload_ops (csv_path : string) : list PageOp :=
  [PwClick SelDevices; PwWaitLoad;
   PwClick SelActions;
   PwClick SelUpdateRetailer; PwWaitLoad;
   PwScreenshot "/app/screenshots/04_upload_dialog.png";
   PwSetInputFiles SelFileInput csv_path;
   PwScreenshot "/app/screenshots/05_file_uploaded.png";
   PwClick SelVerifyData; PwWaitLoad;
   PwScreenshot "/app/screenshots/06_verified.png";
   PwScroll SelUpdateDevices; PwClick SelUpdateDevices; PwWaitLoad;
   PwScreenshot "/app/screenshots/07_updated.png"].

(** Browser calls made one after the other, up to the first that fails. *)
Fixpoint page_calls_in_turn (ops : list PageOp) : M unit :=
  match ops with
  | [] => ret tt
  | op :: rest => page_call op ;; page_calls_in_turn rest
  end.

(** What [upload_csv] records when its call number [j] fails and the error
    screenshot can be taken. *)
Definition upload_cut_short (csv_path : string) (j : nat) : list Event :=
  map EPage (firstn (S j) (upload_ops csv_path))
  ++ [EPage (PwScreenshot "/app/screenshots/gpx_upload_error.png");
      ELog (UploadFailed PlaywrightError)].

(** Everything works, except that the click on Update Devices - the
    thirteenth call of the upload - fails. *)
Definition commit_fails_world : World :=
  world_of (fun _ => Fails)
           (fun k => if k =? 12 then Fails else Returns EmptyString)
           (fun _ => true) true (fun _ => Returns "file-1").

(** Since the state [st0], every file written and every upload made holds
    the rows of [records]. *)
Definition payloads_since (records : list EnrichmentRecord) (st0 st : State)
  : Prop :=
  exists evs,
    trace st = trace st0 ++ evs
    /\ Forall (fun e => forall rows, event_payload e = Some rows ->
                                     rows = run_rows records) evs.

(** The data rows hold, in columns C, H and I, the serials of [records] in
    order, the retailer shopify and the status unassigned. *)
Definition rows_of_records (records : list EnrichmentRecord)
  (data : list (list string)) : Prop :=
  length data = length records
  /\ map (fun row => nth 2 row EmptyString) data = map serial records
  /\ Forall (fun row => nth 7 row EmptyString = "shopify"
                        /\ nth 8 row EmptyString = "unassigned") data.

(** The event that begins a session: the first call of
    [GPXScraper.start]. *)
Definition is_open (e : Event) : bool :=
  match e with
  | EPage PwStart => true
  | _ => false
  end.

(** How many sessions were begun. *)
Definition open_count (tr : list Event) : nat := length (filter is_open tr).

(** Neither the beginning of a session nor a close. *)
Definition is_neutral (e : Event) : bool := negb (is_open e || is_close e).

(** Since [st0], [o] sessions were begun and [close] was entered [c]
    times. *)
Definition marks_since (o c : nat) (st0 st : State) : Prop :=
  exists evs,
    trace st = trace st0 ++ evs
    /\ open_count evs = o /\ close_count evs = c.

(** [m] begins no session and enters [close] at most [n] times, exactly
    [n] times when it returns. *)
Definition closes {A : Type} (n : nat) (m : M A) : Prop :=
  forall w st,
    exists c,
      marks_since 0 c st (snd (m w st))
      /\ c <= n
      /\ ((exists a, fst (m w st) = Ret a) -> c = n).

(** [m] begins no session and never enters [close]. *)
Definition neutral {A : Type} (m : M A) : Prop :=
  forall st0, inv (events_since is_neutral st0) m.

(** The texts of the buttons that may dismiss the passkey prompt. *)
Definition dismiss_texts : list string :=
  ["Not now"; "Don't ask again"; "No thanks"; "Skip"; "Close"].

(** How many of [n] clicks in a row are tried from the browser call number
    [p] on: those up to the first that succeeds. *)
Fixpoint clicks_tried (w : World) (p n : nat) : nat :=
  match n with
  | 0 => 0
  | S n' =>
      match page_answers w p with
      | Returns _ => 1
      | Fails => S (clicks_tried w (S p) n')
      end
  end.

(** The browser calls of [_login] up to the passkey prompt. *)
Definition login_form_ops (w : World) : list PageOp :=
  [PwGoto GPX_ADMIN_URL;
   PwFill SelEmail (gpx_username w);
   PwFill SelPassword (gpx_password w);
   PwClick SelSubmit;
   PwWaitLoad].

(** A console without a passkey prompt: none of the five dismiss clicks
    finds its button, everything else works. *)
Definition no_prompt_world : World :=
  world_of (fun _ => Fails)
           (fun k => if (5 <=? k) && (k <? 10) then Fails
                     else Returns EmptyString)
           (fun _ => true) true (fun _ => Fails).

(** The string is made of decimal digits. *)
Fixpoint all_digits (s : string) : bool :=
  match s with
  | EmptyString => true
  | String c s' => is_digit c && all_digits s'
  end.

(** Reading a decimal string back. *)
Definition string_to_nat (s : string) : option nat :=
  option_map Nat.of_uint (DecimalString.NilEmpty.uint_of_string s).

(** [os.getenv]: the value of a variable of the environment, if it has
    one. *)
Definition Env : Type := string -> option string.

(** The variables [validate_env] goes through, in its order. *)
Definition required_vars : list string :=
  [ "SHIPSTATION_API_KEY"; "SHIPSTATION_API_SECRET"; "SHIPSTATION_STORE_ID";
    "GPX_USERNAME"; "GPX_PASSWORD"; "GOOGLE_DRIVE_FOLDER_ID" ].

(** [os.getenv(var)] is truthy: the variable is there and not empty. *)
Definition is_set (env : Env) (var : string) : bool :=
  match env var with
  | Some (String _ _) => true
  | _ => false
  end.

Definition token_entry : string :=
  "token.json (run 'python auth_setup.py' first)".

(** The list [missing] of [validate_env] when its loop and the test on
    token.json are over. *)
Definition missing_config (env : Env) (token_exists : bool) : list string :=
  filter (fun var => negb (is_set env var)) required_vars
  ++ (if token_exists then [] else [token_entry]).

(** How a command-line step ends: it returns, or [sys.exit] ends the
    program with a status. *)
Inductive Outcome : Type :=
| Returned
| Exited (status : nat).

(** [validate_env]: the lines logged as errors and how the step ends. *)
Definition validate_env (env : Env) (token_exists : bool)
  : list string * Outcome :=
  match missing_config env token_exists with
  | [] => ([], Returned)
  | missing =>
      ([ String.append "Missing configuration: " (String.concat ", " missing);
         "Copy .env.example to .env and fill in your credentials." ],
       Exited 1)
  end.

(** An environment with every variable but the password of the console,
    which is there and empty. *)
Definition empty_password_env : Env :=
  fun var => if String.eqb var "GPX_PASSWORD" then Some EmptyString else Some "x".

(* ################################################################## *)
(** * Part II: properties                                              *)
(* ################################################################## *)

(** ** Regular-expression engine *)

Lemma try_down_none (A : Type) (lo k : nat) (f : nat -> option A) :
  (forall j, lo <= j <= k -> f j = None) -> try_down lo k f = None.
Proof.
  induction k as [|k IH]; intros H; simpl.
  - destruct (Nat.eqb_spec lo 0) as [E|E]; [apply H; lia | reflexivity].
  - destruct (Nat.leb_spec lo (S k)) as [E|E]; [|reflexivity].
    rewrite H by lia. apply IH. intros j Hj. apply H. lia.
Qed.

Lemma try_down_top (A : Type) (lo k : nat) (f : nat -> option A) (r : A) :
  lo <= k -> f k = Some r -> try_down lo k f = Some r.
Proof.
  intros Hle Hf. destruct k as [|k]; simpl.
  - replace lo with 0 by lia. simpl. exact Hf.
  - destruct (Nat.leb_spec lo (S k)) as [E|E]; [|lia]. now rewrite Hf.
Qed.

Lemma try_down_some (A : Type) (lo k : nat) (f : nat -> option A) (r : A) :
  try_down lo k f = Some r ->
  exists j, lo <= j <= k /\ f j = Some r.
Proof.
  induction k as [|k IH]; simpl.
  - destruct (Nat.eqb_spec lo 0) as [E0|E0]; [|discriminate].
    intros H. exists 0. split; [lia | exact H].
  - destruct (Nat.leb_spec lo (S k)) as [E0|E0]; [|discriminate].
    destruct (f (S k)) eqn:E.
    + intros [= ->]. exists (S k). split; [lia | exact E].
    + intros H. destruct (IH H) as (j & Hj & Hfj). exists j. split; [lia | exact Hfj].
Qed.

(** ** Digit runs *)

Lemma digit_is_word (c : ascii) : is_digit c = true -> is_word c = true.
Proof.
  unfold is_word. intros ->. now rewrite orb_true_r.
Qed.

Lemma span_le (cls : ascii -> bool) (s : list ascii) : span cls s <= length s.
Proof.
  induction s as [|c s IH]; simpl; [lia|]. destruct (cls c); simpl; lia.
Qed.

Lemma span_below (cls : ascii -> bool) (s : list ascii) (k : nat) :
  k < span cls s -> exists c, nth_error s k = Some c /\ cls c = true.
Proof.
  revert k. induction s as [|c s IH]; simpl; intros k Hk; [lia|].
  destruct (cls c) eqn:E; [|lia].
  destruct k as [|k]; simpl; [eauto|]. apply IH. lia.
Qed.

(** [k] leading characters of class [cls] exist exactly when [k] does not
    exceed the span. *)
Lemma prefix_in_class (cls : ascii -> bool) (s : list ascii) (k : nat) :
  (k <=? length s) && forallb cls (firstn k s) = (k <=? span cls s).
Proof.
  revert k. induction s as [|c s IH]; intros [|k]; simpl; try reflexivity.
  destruct (cls c) eqn:E; simpl.
  - apply IH.
  - now rewrite andb_false_r.
Qed.

Lemma boundary_inside (prev : option ascii) (s : list ascii) (k : nat) :
  0 < k < span is_digit s ->
  at_boundary (char_before prev s k) (skipn k s) = false.
Proof.
  intros [Hk0 Hk]. unfold at_boundary. rewrite hd_error_skipn.
  destruct k as [|j]; [lia|]. cbn [char_before].
  destruct (span_below is_digit s (k:=j)) as (a & Ha & Da); [lia|].
  destruct (span_below is_digit s (k:=S j)) as (b & Hb & Db); [lia|].
  rewrite Ha, Hb. cbn [is_word_opt]. now rewrite (digit_is_word _ Da), (digit_is_word _ Db).
Qed.

Lemma boundary_at_end (prev : option ascii) (s : list ascii) :
  0 < span is_digit s ->
  at_boundary (char_before prev s (span is_digit s)) (skipn (span is_digit s) s)
  = negb (is_word_opt (nth_error s (span is_digit s))).
Proof.
  intros Hk. unfold at_boundary. rewrite hd_error_skipn.
  destruct (span is_digit s) as [|j] eqn:E; [lia|]. cbn [char_before].
  destruct (span_below is_digit s (k:=j)) as (a & Ha & Da); [lia|].
  rewrite Ha. cbn [is_word_opt]. now rewrite (digit_is_word _ Da).
Qed.

Lemma boundary_at_start (prev : option ascii) (s : list ascii) :
  0 < span is_digit s ->
  at_boundary prev s = negb (is_word_opt prev).
Proof.
  intros Hk. unfold at_boundary.
  destruct (span_below is_digit s (k:=0)) as (a & Ha & Da); [lia|].
  destruct s as [|c s]; [discriminate|]. simpl in Ha. injection Ha as ->.
  simpl. rewrite (digit_is_word _ Da). now destruct (is_word_opt prev).
Qed.

(** What the notes pattern matches at one position. *)
Lemma match_here_serial (prev : option ascii) (s : list ascii) :
  match_here notes_serial_re prev s =
  if serial_here prev s
  then Some (span is_digit s, [firstn (span is_digit s) s])
  else None.
Proof.
  unfold notes_serial_re, serial_here. cbn [match_here].
  set (n := span is_digit s).
  destruct (Nat.leb_spec 5 n) as [H5|H5]; cbn [andb].
  - rewrite boundary_at_start by (fold n; lia).
    destruct (is_word_opt prev) eqn:Ep; cbn [negb andb].
    + now rewrite andb_false_r.
    + rewrite andb_true_r.
      destruct (Nat.leb_spec n 7) as [H7|H7]; cbn [andb].
      * replace (Nat.min 7 n) with n by lia.
        destruct (is_word_opt (nth_error s n)) eqn:Ee; cbn [negb].
        -- apply try_down_none. intros j Hj.
           destruct (Nat.eq_dec j n) as [->|Hne].
           ++ unfold n. rewrite boundary_at_end by (fold n; lia).
              fold n. now rewrite Ee.
           ++ rewrite boundary_inside by (fold n; lia). reflexivity.
        -- apply try_down_top; [lia|].
           unfold n. rewrite boundary_at_end by (fold n; lia).
           fold n. rewrite Ee. cbn. now rewrite Nat.add_0_r.
      * apply try_down_none. intros j Hj.
        rewrite boundary_inside by (fold n; lia). reflexivity.
  - destruct (at_boundary prev s); [|reflexivity].
    apply try_down_none. intros j Hj. lia.
Qed.

Lemma edge_ok_non_word (o : option ascii) :
  edge_ok non_word o = negb (is_word_opt o).
Proof. now destruct o. Qed.

Lemma run_at_non_word (prev : option ascii) (s : list ascii) (k : nat) :
  run_at non_word prev s k =
  (k =? span is_digit s)
  && negb (is_word_opt prev) && negb (is_word_opt (nth_error s k)).
Proof.
  unfold run_at. rewrite prefix_in_class, !edge_ok_non_word.
  destruct (Nat.eqb_spec k (span is_digit s)) as [E|E].
  - rewrite E, Nat.leb_refl. reflexivity.
  - destruct (Nat.leb_spec k (span is_digit s)) as [L|L]; [|reflexivity].
    destruct (span_below is_digit s (k:=k)) as (c & Hc & Dc); [lia|].
    rewrite Hc. cbn [is_word_opt]. rewrite (digit_is_word _ Dc).
    now rewrite andb_false_r.
Qed.

Lemma runs_here_non_word (prev : option ascii) (s : list ascii) :
  runs_here non_word prev s =
  if serial_here prev s then [firstn (span is_digit s) s] else [].
Proof.
  unfold runs_here, serial_here. cbn [flat_map].
  rewrite !run_at_non_word. set (n := span is_digit s).
  destruct (Nat.eqb_spec 5 n) as [E5|E5];
    [rewrite <- E5; cbn; destruct (negb _ && negb _); reflexivity|].
  destruct (Nat.eqb_spec 6 n) as [E6|E6];
    [rewrite <- E6; cbn; destruct (negb _ && negb _); reflexivity|].
  destruct (Nat.eqb_spec 7 n) as [E7|E7];
    [rewrite <- E7; cbn; destruct (negb _ && negb _); reflexivity|].
  cbn [andb app].
  destruct (Nat.leb_spec 5 n) as [H5|H5]; [|reflexivity].
  destruct (Nat.leb_spec n 7) as [H7|H7]; [lia|reflexivity].
Qed.

Lemma runs_from_cons (sep : ascii -> bool) (prev : option ascii)
  (c : ascii) (s : list ascii) :
  runs_from sep prev (c :: s) =
  runs_here sep prev (c :: s) ++ runs_from sep (Some c) s.
Proof.
  unfold runs_from. cbn [length seq flat_map char_before skipn].
  f_equal. rewrite <- seq_shift, flat_map_concat_map, map_map.
  rewrite flat_map_concat_map. f_equal. apply map_ext.
  intros [|i]; reflexivity.
Qed.

(** While stepping over the rest of a matched token, whose characters are
    word characters, the specification lists no occurrence either. *)
Lemma findall_serial_runs (s : list ascii) :
  forall (prev : option ascii) (k : nat),
    k <= length s ->
    (0 < k -> is_word_opt prev = true /\ k <= span is_digit s) ->
    findall_from notes_serial_re prev s k =
    map (fun g => [g]) (runs_from non_word prev s).
Proof.
  induction s as [|c s IH]; intros prev k Hk Hskip.
  - assert (k = 0) by (simpl in Hk; lia). subst k.
    cbn [findall_from]. rewrite match_here_serial. reflexivity.
  - rewrite runs_from_cons, runs_here_non_word. destruct k as [|k].
    + cbn [findall_from]. rewrite match_here_serial.
      destruct (serial_here prev (c :: s)) eqn:E.
      * cbn [app map]. f_equal.
        unfold serial_here in E. apply andb_prop in E as [E _].
        apply andb_prop in E as [E _]. apply andb_prop in E as [E5 E7].
        apply Nat.leb_le in E5. apply Nat.leb_le in E7.
        pose proof (span_le is_digit (c :: s)) as Hlen.
        cbn [span] in *. destruct (is_digit c) eqn:Dc; [|lia].
        cbn [length] in Hlen.
        apply IH; [lia|]. intros _. cbn [is_word_opt].
        split; [now apply digit_is_word | lia].
      * cbn [app]. apply IH; [lia | intros; lia].
    + destruct (Hskip ltac:(lia)) as [Hw Hs].
      unfold serial_here. rewrite Hw. cbn [negb]. rewrite andb_false_r.
      cbn [andb app findall_from].
      cbn [span] in Hs. destruct (is_digit c) eqn:Dc; [|lia].
      apply IH; [simpl in Hk; lia|]. intros _. cbn [is_word_opt].
      split; [now apply digit_is_word | lia].
Qed.






(** ** Orders to records *)

Lemma parse_orders_loop_app (orders : list Json) :
  forall records : list EnrichmentRecord,
    parse_orders_loop orders records = records ++ parse_orders_loop orders [].
Proof.
  induction orders as [|o orders IH]; intros records; cbn [parse_orders_loop].
  - now rewrite app_nil_r.
  - destruct (extract_serial_numbers _) as [|sn sns]; cbn [app];
      match goal with
      | |- parse_orders_loop _ (_ ++ ?X) = _ ++ parse_orders_loop _ ?Y =>
          rewrite (IH (records ++ X)), (IH Y)
      end; now rewrite app_assoc.
Qed.

Lemma parse_orders_cons (o : Json) (orders : list Json) :
  parse_orders (o :: orders) = parse_orders [o] ++ parse_orders orders.
Proof.
  unfold parse_orders. cbn [parse_orders_loop].
  destruct (extract_serial_numbers _) as [|sn sns];
    cbn [app]; now rewrite parse_orders_loop_app.
Qed.

Lemma serial_records_serials (skus : list string) (num : string)
  (serials : list string) :
  forall i, map serial (serial_records skus num i serials) = serials.
Proof.
  induction serials as [|sn rest IH]; intros i; cbn; [reflexivity|].
  now rewrite IH.
Qed.

(** X24: the records [parse_orders] builds, order by order.  They are the
    records of each order in turn; an order whose notes (absent notes read
    as empty) hold N >= 1 serials gives exactly N records carrying those
    serials in order, and an order with no serial gives exactly one record
    whose serial is the sentinel, whose sku joins the SKUs of all line items
    with a comma and a blank, and whose raw notes are the first 200
    characters of the notes. *)
Theorem parse_orders_one_record_per_serial :
  forall orders : list Json,
    parse_orders orders = flat_map (fun o => parse_orders [o]) orders
    /\ Forall (fun o =>
         match extract_serial_numbers (notes_of o) with
            | [] =>
                exists r, parse_orders [o] = [r]
                  /\ serial r = "NOT FOUND"
                  /\ sku r = String.concat ", " (skus_of o)
                  /\ raw_notes r = substring 0 200 (notes_of o)
            | serials =>
                length (parse_orders [o]) = length serials
                /\ map serial (parse_orders [o]) = serials
            end) orders.
Proof.
  intros orders. split.
  - induction orders as [|o orders IH]; [reflexivity|].
    rewrite parse_orders_cons, IH. reflexivity.
  - apply Forall_forall. intros o _.
    unfold parse_orders, notes_of, skus_of. cbn [parse_orders_loop].
    destruct (extract_serial_numbers _) as [|sn sns] eqn:E; cbn [app].
    + eexists. split; [reflexivity|].
      cbn [serial sku raw_notes]. unfold str_prefix. auto.
    + match goal with
      | |- context [serial_records ?a ?b ?c ?d] =>
          pose proof (serial_records_serials a b d c) as Hm;
          set (rs := serial_records a b c d) in *
      end.
      assert (Hl : length rs = length (sn :: sns))
        by (rewrite <- Hm; now rewrite length_map).
      split; assumption.
Qed.

(** ** The rate-limited fetch *)

Lemma http_calls_rate_limited (req : Request) (wait : nat) (st : State) :
  http_calls (rate_limited req wait st) = S (http_calls st).
Proof. reflexivity. Qed.

Lemma http_calls_waited (req : Request) (waits : list nat) :
  forall st, http_calls (waited req waits st) = http_calls st + length waits.
Proof.
  induction waits as [|wt waits IH]; intros st; cbn [waited fold_left length].
  - lia.
  - fold (waited req waits (rate_limited req wt st)).
    rewrite IH, http_calls_rate_limited. lia.
Qed.

Lemma trace_waited (req : Request) (waits : list nat) :
  forall st,
    trace (waited req waits st) =
    trace st ++ flat_map (fun wt => [EGet req;
                                     ELog (RateLimitWait (Z.of_nat wt));
                                     ESleep wt]) waits.
Proof.
  induction waits as [|wt waits IH]; intros st; cbn [waited fold_left flat_map].
  - now rewrite app_nil_r.
  - fold (waited req waits (rate_limited req wt st)). rewrite IH.
    cbn. now rewrite <- !app_assoc.
Qed.

(** One turn of the retry loop, by the answer it gets. *)
Lemma get_attempts_step (n : nat) (req : Request) (w : World) (st : State) :
  _get_attempts (S n) req w st =
  let sent := count_http (record_event (EGet req) st) in
  match http_answers w (http_calls st) with
  | Returns r =>
      if status_code r =? 429 then
        if waitable r then
          _get_attempts n req w (rate_limited req (wait_of r) st)
        else
          (Raise (fst (wait_failure r)),
           record_events (snd (wait_failure r)) sent)
      else if is_error_status (status_code r) then
        (Raise (HTTPError (status_code r)), sent)
      else
        match json_body r with
        | Some j => (Ret j, sent)
        | None => (Raise JSONDecodeError, sent)
        end
  | Fails => (Raise RequestException, sent)
  end.
Proof.
  cbn [_get_attempts]. unfold bind at 1, session_get.
  destruct (http_answers w (http_calls st)) as [r|]; cbn [answered];
    [|reflexivity].
  destruct (status_code r =? 429).
  - unfold waitable, wait_of, wait_failure, int_retry_after, bind.
    destruct (retry_after r) as [[[n0|z why]|]|]; reflexivity.
  - unfold bind, raise_for_status, resp_json, is_error_status.
    destruct ((400 <=? status_code r) && (status_code r <? 600));
      [reflexivity|].
    cbn. now destruct (json_body r).
Qed.

Lemma get_attempts_429 (n : nat) (req : Request) (w : World) (st : State)
  (r : Response) :
  http_answers w (http_calls st) = Returns r ->
  status_code r = 429 ->
  waitable r = true ->
  _get_attempts (S n) req w st =
  _get_attempts n req w (rate_limited req (wait_of r) st).
Proof.
  intros Ha Hs Hw. rewrite get_attempts_step, Ha. cbn zeta.
  now rewrite Hs, Hw.
Qed.

Lemma get_attempts_429s (rs : nat -> Response) (req : Request) (w : World)
  (n : nat) :
  forall (m : nat) (st : State) (base : nat),
    (forall k, k < n ->
       status_code (rs (base + k)) = 429
       /\ waitable (rs (base + k)) = true
       /\ http_answers w (http_calls st + k) = Returns (rs (base + k))) ->
    _get_attempts (n + m) req w st =
    _get_attempts m req w
      (waited req (map (fun k => wait_of (rs k)) (seq base n)) st).
Proof.
  induction n as [|n IH]; intros m st base H; [reflexivity|].
  destruct (H 0 ltac:(lia)) as (Hs & Hw & Ha).
  rewrite Nat.add_0_r in Hs, Hw. rewrite 2!Nat.add_0_r in Ha.
  cbn [Nat.add]. rewrite (get_attempts_429 _ _ _ _ Ha Hs Hw).
  rewrite (IH m _ (S base)).
  - reflexivity.
  - intros k Hk. destruct (H (S k) ltac:(lia)) as (Hs' & Hw' & Ha').
    rewrite http_calls_rate_limited.
    replace (S base + k) with (base + S k) by lia.
    replace (S (http_calls st) + k) with (http_calls st + S k) by lia.
    now repeat split.
Qed.

Lemma http_calls_record_events (evs : list Event) :
  forall st, http_calls (record_events evs st) = http_calls st.
Proof.
  induction evs as [|e evs IH]; intros st; [reflexivity|].
  cbn [record_events fold_left]. fold (record_events evs (record_event e st)).
  now rewrite IH.
Qed.

Lemma trace_record_events (evs : list Event) :
  forall st, trace (record_events evs st) = trace st ++ evs.
Proof.
  induction evs as [|e evs IH]; intros st; cbn [record_events fold_left].
  - now rewrite app_nil_r.
  - fold (record_events evs (record_event e st)). rewrite IH.
    cbn [record_event with_trace trace]. now rewrite <- app_assoc.
Qed.

Lemma get_attempts_bound (req : Request) (w : World) (n : nat) :
  forall st,
    http_calls st <= http_calls (snd (_get_attempts n req w st))
                  <= http_calls st + n
    /\ (0 < n -> http_calls st < http_calls (snd (_get_attempts n req w st))).
Proof.
  induction n as [|n IH]; intros st.
  - cbn. split; lia.
  - rewrite get_attempts_step. cbn zeta.
    destruct (http_answers w (http_calls st)) as [r|]; [|cbn; split; lia].
    destruct (status_code r =? 429).
    + destruct (waitable r).
      * specialize (IH (rate_limited req (wait_of r) st)).
        rewrite http_calls_rate_limited in IH. split; [lia|]. intros _. lia.
      * cbn [snd]. rewrite http_calls_record_events. cbn. split; lia.
    + destruct (is_error_status (status_code r)); [cbn; split; lia|].
      destruct (json_body r); cbn; split; lia.
Qed.

(** C3, as the claim words it, fails: a status that is neither a success
    (2xx) nor the rate limit does not always make [_get] fail.  Only the
    statuses 400 to 599 are rejected; an answer 304 with a body that decodes
    is returned like a success. *)
Lemma get_returns_status_below_400 :
  is_success_status 304 = false
  /\ _get GetStores (http_world always_304) initial_state
     = (Ret empty_json, sent GetStores initial_state)
  /\ ~ (forall req w st r,
          http_answers w (http_calls st) = Returns r ->
          status_code r <> 429 ->
          is_success_status (status_code r) = false ->
          exists e, fst (_get req w st) = Raise e).
Proof.
  split; [reflexivity|]. split; [reflexivity|].
  intros H.
  destruct (H GetStores (http_world always_304) initial_state
              (mkResponse 304 None (Some empty_json))
              eq_refl ltac:(discriminate) eq_refl) as (e & He).
  discriminate He.
Qed.

(** C3 (amended): [_get] sends between one and five requests.  Four 429
    answers whose Retry-After header can be waited for (none, or a whole
    number of seconds that [time.sleep] accepts) followed by an answer that
    is accepted give its body on the fifth attempt, each wait honouring the
    hint (30 seconds without one) and the same request being sent again;
    five such 429 answers raise the rate-limit exception after the fifth
    attempt; a status from 400 to 599 other than 429 raises an HTTP error
    carrying that status after that one attempt; any other status is
    accepted: the body is returned when it decodes. *)
Theorem get_retry_ceiling :
  (forall req w st,
      http_calls st < http_calls (snd (_get req w st)) <= http_calls st + 5)
  /\ (forall req w st (rs : nat -> Response) j,
        (forall k, k < 4 ->
           status_code (rs k) = 429
           /\ waitable (rs k) = true
           /\ http_answers w (http_calls st + k) = Returns (rs k)) ->
        http_answers w (http_calls st + 4) = Returns (rs 4) ->
        is_error_status (status_code (rs 4)) = false ->
        json_body (rs 4) = Some j ->
        fst (_get req w st) = Ret j
        /\ http_calls (snd (_get req w st)) = http_calls st + 5
        /\ trace (snd (_get req w st)) =
           trace st
           ++ flat_map (fun wt => [EGet req;
                                   ELog (RateLimitWait (Z.of_nat wt));
                                   ESleep wt])
                       (map (fun k => wait_of (rs k)) (seq 0 4))
           ++ [EGet req])
  /\ (forall req w st (rs : nat -> Response),
        (forall k, k < 5 ->
           status_code (rs k) = 429
           /\ waitable (rs k) = true
           /\ http_answers w (http_calls st + k) = Returns (rs k)) ->
        fst (_get req w st) = Raise RateLimitExceeded
        /\ http_calls (snd (_get req w st)) = http_calls st + 5)
  /\ (forall req w st r,
        http_answers w (http_calls st) = Returns r ->
        status_code r <> 429 ->
        is_error_status (status_code r) = true ->
        fst (_get req w st) = Raise (HTTPError (status_code r))
        /\ http_calls (snd (_get req w st)) = http_calls st + 1)
  /\ (forall req w st r,
        http_answers w (http_calls st) = Returns r ->
        status_code r <> 429 ->
        is_error_status (status_code r) = false ->
        _get req w st
        = (match json_body r with
           | Some j => Ret j
           | None => Raise JSONDecodeError
           end, sent req st)).
Proof.
  split; [|split; [|split; [|split]]].
  - intros req w st. unfold _get.
    destruct (get_attempts_bound req w 5 st) as [[_ Hu] Hl].
    split; [apply Hl; lia | exact Hu].
  - intros req w st rs j H429 Ha Hok Hj. unfold _get.
    change (_get_attempts 5 req w st) with (_get_attempts (4 + 1) req w st).
    rewrite (@get_attempts_429s rs req w 4 1 st 0) by exact H429.
    set (st4 := waited req _ st).
    assert (Hc : http_calls st4 = http_calls st + 4)
      by (unfold st4; now rewrite http_calls_waited).
    rewrite get_attempts_step. cbn zeta. rewrite Hc, Ha.
    assert (Hne : (status_code (rs 4) =? 429) = false).
    { apply Nat.eqb_neq. intros E. rewrite E in Hok. discriminate. }
    rewrite Hne, Hok, Hj. cbn [fst snd]. split; [reflexivity|].
    split.
    + cbn [count_http record_event with_trace http_calls]. rewrite Hc. lia.
    + cbn [count_http record_event with_trace trace]. unfold st4.
      rewrite trace_waited. now rewrite <- app_assoc.
  - intros req w st rs H429. unfold _get.
    change (_get_attempts 5 req w st) with (_get_attempts (5 + 0) req w st).
    rewrite (@get_attempts_429s rs req w 5 0 st 0) by exact H429.
    cbn [_get_attempts raise fst snd]. split; [reflexivity|].
    now rewrite http_calls_waited.
  - intros req w st r Ha Hne Herr. unfold _get.
    rewrite get_attempts_step. cbn zeta. rewrite Ha.
    apply Nat.eqb_neq in Hne. rewrite Hne, Herr. cbn. split; [reflexivity|lia].
  - intros req w st r Ha Hne Hok. unfold _get.
    rewrite get_attempts_step. cbn zeta. rewrite Ha.
    apply Nat.eqb_neq in Hne. rewrite Hne, Hok.
    now destruct (json_body r).
Qed.

Lemma get_retry_ceiling_witness :
  (fst (_get GetStores (http_world four_429_then_ok) initial_state)
   = Ret empty_json
   /\ http_calls (snd (_get GetStores (http_world four_429_then_ok)
                          initial_state)) = 5)
  /\ fst (_get GetStores (http_world always_429) initial_state)
     = Raise RateLimitExceeded
  /\ (fst (_get GetStores (http_world always_500) initial_state)
      = Raise (HTTPError 500)
      /\ http_calls (snd (_get GetStores (http_world always_500)
                             initial_state)) = 1).
Proof.
  destruct get_retry_ceiling as (_ & Hok & Hlimit & Herr & _).
  split; [|split].
  - destruct (Hok GetStores (http_world four_429_then_ok) initial_state
                  four_429_then_ok empty_json) as (Hr & Hc & _).
    + intros k Hk.
      do 4 (destruct k as [|k]; [repeat split; reflexivity|]). lia.
    + reflexivity.
    + reflexivity.
    + reflexivity.
    + split; [exact Hr | exact Hc].
  - apply (Hlimit GetStores (http_world always_429) initial_state always_429).
    intros k _. repeat split; reflexivity.
  - apply (Herr GetStores (http_world always_500) initial_state
                (mkResponse 500 None None)).
    + reflexivity.
    + discriminate.
    + reflexivity.
Defined.

(** ** Paging through the shipment listing *)

Lemma get_ok (req : Request) (w : World) (st : State) (j : Json) :
  http_answers w (http_calls st) = ok_json j ->
  _get req w st = (Ret j, sent req st).
Proof.
  intros Ha. unfold _get. rewrite get_attempts_step, Ha. reflexivity.
Qed.

(** One turn of the page loop, once [_get] has returned the page: it stops
    when the page number has reached the reported total, whatever the page
    holds. *)
Lemma shipments_pages_step (fuel : nat) (date : Date) (sid page : nat)
  (acc : list Shipment) (w : World) (st st1 : State) (data : Json) :
  _get (GetShipments date sid 100 page) w st = (Ret data, st1) ->
  shipments_pages (S fuel) date sid page acc w st =
  if dict_get (pages data) 1 <=? page
  then (Ret (acc ++ dict_get (shipments data) []), st1)
  else shipments_pages fuel date sid (page + 1)
         (acc ++ dict_get (shipments data) []) w st1.
Proof.
  intros Hget. cbn [shipments_pages]. unfold bind at 1. rewrite Hget.
  now destruct (dict_get (pages data) 1 <=? page).
Qed.

Lemma shipments_pages_run (date : Date) (sid n : nat) (w : World)
  (datas : nat -> Json) (m : nat) :
  forall (fuel page : nat) (acc : list Shipment) (st : State),
    1 <= m -> m <= fuel -> 1 <= page -> page + m = n + 1 ->
    (forall k, k < m ->
       http_answers w (http_calls st + k) = ok_json (datas (page - 1 + k))
       /\ pages (datas (page - 1 + k)) = Some n) ->
    exists st',
      shipments_pages fuel date sid page acc w st =
      (Ret (acc ++ flat_map (fun k => dict_get (shipments (datas k)) [])
                            (seq (page - 1) m)), st')
      /\ trace st' =
         trace st ++ map (fun k => EGet (GetShipments date sid 100 (S k)))
                         (seq (page - 1) m)
      /\ http_calls st' = http_calls st + m.
Proof.
  induction m as [|m IH]; intros fuel page acc st Hm Hfuel Hp1 Hpage H; [lia|].
  destruct fuel as [|fuel]; [lia|].
  destruct (H 0 ltac:(lia)) as [Ha Hp]. rewrite !Nat.add_0_r in Ha, Hp.
  rewrite Nat.add_0_r in Ha.
  rewrite (@shipments_pages_step fuel date sid page acc w st _ _
             (get_ok _ _ _ Ha)), Hp. cbn [dict_get].
  assert (Hpos : S (page - 1) = page) by lia.
  destruct m as [|m].
  - assert (page = n) by lia. subst page. rewrite Nat.leb_refl.
    eexists. split; [cbn [seq flat_map]; rewrite app_nil_r; reflexivity|].
    cbn [sent count_http record_event with_trace trace http_calls seq map].
    rewrite Hpos. split; [reflexivity | lia].
  - destruct (Nat.leb_spec n page) as [L|L]; [lia|].
    destruct (IH fuel (page + 1)
                 (acc ++ dict_get (shipments (datas (page - 1))) [])
                 (sent (GetShipments date sid 100 page) st))
      as (st' & Hrun & Htr & Hc); [lia | lia | lia | lia | |].
    + intros k Hk. destruct (H (S k) ltac:(lia)) as [Ha' Hp'].
      replace (page + 1 - 1 + k) with (page - 1 + S k) by lia.
      cbn [sent count_http record_event with_trace http_calls].
      replace (S (http_calls st) + k) with (http_calls st + S k) by lia.
      now split.
    + exists st'. rewrite Hrun.
      replace (page + 1 - 1) with (S (page - 1)) in * by lia.
      split; [|split].
      * cbn [seq flat_map]. now rewrite <- app_assoc.
      * rewrite Htr. cbn [sent count_http record_event with_trace trace].
        cbn [seq map]. rewrite Hpos. now rewrite <- app_assoc.
      * rewrite Hc. cbn [sent count_http record_event with_trace http_calls].
        lia.
Qed.

(** C7: on each page [_get] returns, the page loop stops exactly when the
    page number has reached the total that page reports (1 when it reports
    none), whatever the page holds;
    so when every page reports the same total of [n] pages (for instance
    3), the loop requests exactly pages 1 to [n] and returns the shipments
    of those pages, however many each page holds, the last included. *)
Theorem shipments_pages_stops_at_page_count :
  (forall fuel date sid page acc w st st1 data,
      _get (GetShipments date sid 100 page) w st = (Ret data, st1) ->
      shipments_pages (S fuel) date sid page acc w st =
      if dict_get (pages data) 1 <=? page
      then (Ret (acc ++ dict_get (shipments data) []), st1)
      else shipments_pages fuel date sid (page + 1)
             (acc ++ dict_get (shipments data) []) w st1)
  /\ (forall (date : Date) (sid n fuel : nat) (w : World) (st : State)
             (datas : nat -> Json),
        1 <= n -> n <= fuel ->
        (forall k, k < n ->
           http_answers w (http_calls st + k) = ok_json (datas k)
           /\ pages (datas k) = Some n) ->
        exists st',
          shipments_pages fuel date sid 1 [] w st =
          (Ret (flat_map (fun k => dict_get (shipments (datas k)) [])
                         (seq 0 n)), st')
          /\ trace st' =
             trace st ++ map (fun k => EGet (GetShipments date sid 100 (S k)))
                             (seq 0 n)
          /\ http_calls st' = http_calls st + n).
Proof.
  split; [intros; now apply shipments_pages_step|].
  intros date sid n fuel w st datas Hn Hfuel H.
  destruct (@shipments_pages_run date sid n w datas n fuel 1 [] st)
    as (st' & Hrun & Htr & Hc); try lia.
  - intros k Hk. cbn [Nat.sub Nat.add]. now apply H.
  - exists st'. cbn [Nat.sub] in *. now rewrite Hrun.
Qed.

Lemma shipments_pages_stops_at_page_count_witness :
  (exists st',
      shipments_pages 3 (mkDate 2026 2 26) 42 1 []
        (world_of (fun k => ok_json (three_pages k)) (fun _ => Fails)
                  (fun _ => true) true (fun _ => Fails))
        initial_state =
      (Ret [mkShipment (Some 7); mkShipment (Some 8); mkShipment (Some 7);
            mkShipment (Some 9); mkShipment None], st')
      /\ trace st' =
         [EGet (GetShipments (mkDate 2026 2 26) 42 100 1);
          EGet (GetShipments (mkDate 2026 2 26) 42 100 2);
          EGet (GetShipments (mkDate 2026 2 26) 42 100 3)]
      /\ http_calls st' = 3)
  /\ shipments_pages 1 (mkDate 2026 2 26) 42 3 []
       (world_of (fun k => ok_json (three_pages 2)) (fun _ => Fails)
                 (fun _ => true) true (fun _ => Fails))
       initial_state =
     (Ret [], sent (GetShipments (mkDate 2026 2 26) 42 100 3) initial_state).
Proof.
  split.
  - apply (proj2 shipments_pages_stops_at_page_count (mkDate 2026 2 26) 42 3 3
             (world_of (fun k => ok_json (three_pages k)) (fun _ => Fails)
                       (fun _ => true) true (fun _ => Fails))
             initial_state three_pages); [lia | lia |].
    intros k Hk. do 3 (destruct k as [|k]; [split; reflexivity|]). lia.
  - rewrite (proj1 shipments_pages_stops_at_page_count 0 (mkDate 2026 2 26)
               42 3 []
               (world_of (fun k => ok_json (three_pages 2)) (fun _ => Fails)
                         (fun _ => true) true (fun _ => Fails))
               initial_state
               (sent (GetShipments (mkDate 2026 2 26) 42 100 3) initial_state)
               (three_pages 2)); reflexivity.
Defined.

(** ** Fetching the orders one by one *)

(** [_get] ends by returning or by raising an [Exception]; its trace grows
    by the request followed by whatever the retries add. *)
Lemma get_attempts_outcome (req : Request) (w : World) (n : nat) :
  forall st,
    (exists j, fst (_get_attempts n req w st) = Ret j)
    \/ (exists e, fst (_get_attempts n req w st) = Raise e
                  /\ is_Exception e = true).
Proof.
  induction n as [|n IH]; intros st.
  - right. exists RateLimitExceeded. now split.
  - rewrite get_attempts_step. cbn zeta.
    destruct (http_answers w (http_calls st)) as [r|];
      [|right; eexists; split; reflexivity].
    destruct (status_code r =? 429).
    { destruct (waitable r); [apply IH|]. right. eexists.
      split; [reflexivity|]. unfold wait_failure.
      now destruct (retry_after r) as [[[n0|z []]|]|]. }
    destruct (is_error_status (status_code r));
      [right; eexists; split; reflexivity|].
    destruct (json_body r);
      [left; eexists; reflexivity | right; eexists; split; reflexivity].
Qed.

Lemma get_attempts_trace (req : Request) (w : World) (n : nat) :
  forall st,
    exists evs, trace (snd (_get_attempts n req w st)) = trace st ++ evs
                /\ (0 < n -> In (EGet req) evs).
Proof.
  induction n as [|n IH]; intros st.
  - exists []. cbn. rewrite app_nil_r. split; [reflexivity | lia].
  - rewrite get_attempts_step. cbn zeta.
    assert (Hsent : exists evs,
               trace (count_http (record_event (EGet req) st)) =
               trace st ++ evs /\ (0 < S n -> In (EGet req) evs)).
    { exists [EGet req]. split; [reflexivity | intros _; now left]. }
    destruct (http_answers w (http_calls st)) as [r|]; [|exact Hsent].
    destruct (status_code r =? 429).
    + destruct (waitable r).
      * destruct (IH (rate_limited req (wait_of r) st)) as (evs & Ht & _).
        exists ([EGet req; ELog (RateLimitWait (Z.of_nat (wait_of r)));
                 ESleep (wait_of r)] ++ evs).
        rewrite Ht. cbn. rewrite <- !app_assoc. split; [reflexivity|].
        intros _. now left.
      * exists (EGet req :: snd (wait_failure r)). cbn [snd].
        rewrite trace_record_events. cbn. rewrite <- app_assoc.
        split; [reflexivity|]. intros _. now left.
    + destruct (is_error_status (status_code r)); [exact Hsent|].
      destruct (json_body r); exact Hsent.
Qed.

Lemma nth_error_combine_split (A B : Type) (l : list A) (l' : list B) :
  forall k a b,
    nth_error (combine l l') k = Some (a, b) ->
    nth_error l k = Some a /\ nth_error l' k = Some b.
Proof.
  revert l'. induction l as [|x l IH]; intros [|y l'] [|k] a b H;
    try discriminate.
  - cbn in H. injection H as <- <-. now split.
  - cbn in *. now apply IH.
Qed.

Lemma fetch_chain_trace (w : World) (st : State) (ids : list nat)
  (outs : list (result Json)) (st' : State) :
  fetch_chain w st ids outs st' ->
  (exists evs, trace st' = trace st ++ evs)
  /\ (forall oid, In oid ids -> In (EGet (GetOrder oid)) (trace st'))
  /\ length outs = length ids
  /\ (forall k oid e,
        nth_error ids k = Some oid -> nth_error outs k = Some (Raise e) ->
        In (ELog (CouldNotFetchOrder oid e)) (trace st')).
Proof.
  induction 1 as [st | st st1 st' oid order rest outs Hget Hchain IH
                     | st st1 st' oid e rest outs Hget Hchain IH].
  - split; [exists []; now rewrite app_nil_r|]. split; [intros ? []|].
    split; [reflexivity|]. intros [|k] ? ? ?; discriminate.
  - destruct IH as ((evs & Ht) & Hin & Hlen & Hlog).
    destruct (get_attempts_trace (GetOrder oid) w 5 st) as (evs1 & Ht1 & Hin1).
    unfold _get in Hget. rewrite Hget in Ht1. cbn [snd] in Ht1.
    split; [exists (evs1 ++ evs); rewrite Ht, Ht1; now rewrite app_assoc|].
    split; [|split; [cbn; now rewrite Hlen|]].
    + intros o [<-|Ho]; [|now apply Hin].
      rewrite Ht, Ht1. apply in_or_app. left. apply in_or_app. right.
      apply Hin1. lia.
    + intros [|k] o e' Hk He'; [discriminate|]. exact (Hlog k o e' Hk He').
  - destruct IH as ((evs & Ht) & Hin & Hlen & Hlog).
    destruct (get_attempts_trace (GetOrder oid) w 5 st) as (evs1 & Ht1 & Hin1).
    unfold _get in Hget. rewrite Hget in Ht1. cbn [snd] in Ht1.
    cbn [record_event with_trace trace] in Ht.
    split; [exists (evs1 ++ [ELog (CouldNotFetchOrder oid e)] ++ evs);
            rewrite Ht, Ht1; now rewrite <- !app_assoc|].
    split; [|split; [cbn; now rewrite Hlen|]].
    + intros o [<-|Ho]; [|now apply Hin].
      rewrite Ht, Ht1. apply in_or_app. left. apply in_or_app. left.
      apply in_or_app. right. apply Hin1. lia.
    + intros [|k] o e' Hk He'; [|exact (Hlog k o e' Hk He')].
      cbn in Hk, He'. injection Hk as <-. injection He' as <-.
      rewrite Ht. apply in_or_app. left. apply in_or_app. right. now left.
Qed.

Lemma fetch_orders_chain (w : World) (ids : list nat) :
  forall (acc : list Json) (st : State),
    exists outs st',
      fetch_chain w st ids outs st'
      /\ fetch_orders ids acc w st = (Ret (acc ++ fetched outs), st').
Proof.
  induction ids as [|oid rest IH]; intros acc st.
  - exists [], st. split; [constructor|]. cbn. now rewrite app_nil_r.
  - cbn [fetch_orders]. unfold bind at 1, try_except, bind at 1.
    destruct (get_attempts_outcome (GetOrder oid) w 5 st)
      as [(j & Hj) | (e & He & Hexc)];
      unfold _get; destruct (_get_attempts 5 (GetOrder oid) w st)
        as [[order|e'|] st1] eqn:E; cbn [fst] in *; try discriminate.
    + injection Hj as ->.
      destruct (IH (acc ++ [j]) st1) as (outs & st' & Hchain & Hrun).
      exists (Ret j :: outs), st'.
      split; [now apply chain_fetched with (st1 := st1)|].
      cbn [ret]. rewrite Hrun. cbn [fetched flat_map app].
      now rewrite <- app_assoc.
    + injection He as ->. rewrite Hexc.
      destruct (IH acc (record_event (ELog (CouldNotFetchOrder oid e)) st1))
        as (outs & st' & Hchain & Hrun).
      exists (Raise e :: outs), st'.
      split; [now apply chain_failed with (st1 := st1)|].
      cbn. exact Hrun.
Qed.

(** C8: whatever the world answers, the loop over the order IDs returns
    (it never raises): every ID is fetched in its turn, a failed fetch is
    logged and skipped, the later IDs are still requested, and the value
    returned is the list of the orders whose fetch succeeded, in order. *)
Theorem fetch_orders_skips_failed_orders :
  forall (w : World) (ids : list nat) (st : State),
    exists outs st',
      fetch_chain w st ids outs st'
      /\ length outs = length ids
      /\ fetch_orders ids [] w st = (Ret (fetched outs), st')
      /\ Forall (fun oid => In (EGet (GetOrder oid)) (trace st')) ids
      /\ Forall (fun failed =>
                   match snd failed with
                   | Raise e =>
                       In (ELog (CouldNotFetchOrder (fst failed) e))
                          (trace st')
                   | _ => True
                   end) (combine ids outs).
Proof.
  intros w ids st.
  destruct (fetch_orders_chain w ids [] st) as (outs & st' & Hchain & Hrun).
  destruct (fetch_chain_trace Hchain) as (_ & Hin & Hlen & Hlog).
  exists outs, st'. split; [exact Hchain|]. split; [exact Hlen|].
  split; [exact Hrun|]. split; [now apply Forall_forall|].
  apply Forall_forall. intros [oid out] Hc. cbn [fst snd].
  destruct out as [order|e|]; try exact I.
  destruct (In_nth_error _ _ Hc) as (k & Hk).
  destruct (nth_error_combine_split ids outs k Hk) as [Hi Ho].
  exact (Hlog k oid e Hi Ho).
Qed.

(** Of the orders 7, 8 and 9, the first answers 500 and the last answers
    with a body that does not decode: order 8 alone is returned, after all
    three were requested and the two failures logged. *)
Example fetch_orders_flaky :
  fetch_orders [7; 8; 9] [] (http_world flaky_orders) initial_state
  = (Ret [mkJson None None (Some "1008") (Some "263384") None],
     mkState 4 0 0 0
       [EGet (GetOrder 7); ELog (CouldNotFetchOrder 7 (HTTPError 500));
        EGet (GetOrder 8); ELog (RateLimitWait 1); ESleep 1;
        EGet (GetOrder 8);
        EGet (GetOrder 9); ELog (CouldNotFetchOrder 9 JSONDecodeError)]
       false false empty_result []).
Proof. reflexivity. Qed.

(** ** Rules for invariants *)

Section InvRules.
Variable I : State -> Prop.

Lemma inv_ret (A : Type) (a : A) : inv I (ret a).
Proof. intros w st H. exact H. Qed.

Lemma inv_raise (A : Type) (e : exn) : inv I (@raise A e).
Proof. intros w st H. exact H. Qed.

Lemma inv_out_of_fuel (A : Type) : inv I (@out_of_fuel A).
Proof. intros w st H. exact H. Qed.

Lemma inv_ask (A : Type) (f : World -> A) : inv I (ask f).
Proof. intros w st H. exact H. Qed.

Lemma inv_get_state (A : Type) (f : State -> A) : inv I (get_state f).
Proof. intros w st H. exact H. Qed.

Lemma inv_bind (A B : Type) (m : M A) (f : A -> M B) :
  inv I m -> (forall a, inv I (f a)) -> inv I (bind m f).
Proof.
  intros Hm Hf w st H. unfold bind. specialize (Hm w st H).
  destruct (m w st) as [[a|e|] st1]; cbn [snd] in *; try exact Hm.
  now apply Hf.
Qed.

Lemma inv_try_except (A : Type) (body : M A) (handler : exn -> M A) :
  inv I body -> (forall e, inv I (handler e)) ->
  inv I (try_except body handler).
Proof.
  intros Hb Hh w st H. unfold try_except. specialize (Hb w st H).
  destruct (body w st) as [[a|e|] st1]; cbn [snd] in *; try exact Hb.
  destruct (is_Exception e); [now apply Hh | exact Hb].
Qed.

Lemma inv_try_finally (A : Type) (body : M A) (fin : M unit) :
  inv I body -> inv I fin -> inv I (try_finally body fin).
Proof.
  intros Hb Hf w st H. unfold try_finally. specialize (Hb w st H).
  destruct (body w st) as [[a|e|] st1]; cbn [snd] in *; try exact Hb;
    specialize (Hf w st1 Hb);
    destruct (fin w st1) as [[[]|e'|] st2]; exact Hf.
Qed.

Variable ok : Event -> Prop.
Hypothesis I_stable : stable ok I.

Lemma inv_emit (e : Event) : ok e -> inv I (emit e).
Proof. intros He w st H. now apply (stable_event I_stable). Qed.

Lemma inv_log (msg : LogMsg) : ok (ELog msg) -> inv I (log msg).
Proof. apply inv_emit. Qed.

Lemma inv_session_get (req : Request) : ok (EGet req) -> inv I (session_get req).
Proof.
  intros He w st H. unfold session_get.
  assert (I (count_http (record_event (EGet req) st)))
    by now apply (stable_http I_stable), (stable_event I_stable).
  now destruct (http_answers w (http_calls st)).
Qed.

Lemma inv_page_call (op : PageOp) : ok (EPage op) -> inv I (page_call op).
Proof.
  intros He w st H. unfold page_call.
  assert (I (count_page (record_event (EPage op) st)))
    by now apply (stable_page I_stable), (stable_event I_stable).
  now destruct (page_answers w (page_calls st)).
Qed.

Lemma inv_fs_call (op : FsOp) : ok (EFs op) -> inv I (fs_call op).
Proof.
  intros He w st H. unfold fs_call.
  assert (I (count_fs (record_event (EFs op) st)))
    by now apply (stable_fs I_stable), (stable_event I_stable).
  now destruct (fs_answers w (fs_calls st)).
Qed.

Lemma inv_google_call (e : Event) : ok e -> inv I (google_call e).
Proof.
  intros He w st H. unfold google_call.
  assert (I (count_google (record_event e st)))
    by now apply (stable_google I_stable), (stable_event I_stable).
  now destruct (google_answers w (google_calls st)).
Qed.

Lemma inv_set_pw (b : bool) : inv I (set_pw b).
Proof. intros w st H. now apply (stable_pw I_stable). Qed.

Lemma inv_set_browser (b : bool) : inv I (set_browser b).
Proof. intros w st H. now apply (stable_browser I_stable). Qed.
End InvRules.

(** Walks through a computation: [known] closes the calls that already have
    a lemma, [side] the conditions on the events recorded. *)
Ltac inv_walk stab side known :=
  repeat
    first
      [ known
      | apply inv_ret | apply inv_raise | apply inv_out_of_fuel
      | apply inv_ask | apply inv_get_state
      | apply inv_bind; [|intros ?]
      | apply inv_try_except; [|intros ?]
      | apply inv_try_finally
      | apply (inv_set_pw stab) | apply (inv_set_browser stab)
      | apply (inv_log stab); side
      | apply (inv_emit stab); side
      | apply (inv_session_get stab); side
      | apply (inv_page_call stab); side
      | apply (inv_fs_call stab); side
      | apply (inv_google_call stab); side
      | match goal with
        | |- inv _ (if ?b then _ else _) => destruct b
        | |- inv _ (match ?x with _ => _ end) => destruct x
        | |- inv _ (let _ := _ in _) => cbv zeta
        | |- inv _ (int_retry_after _) => unfold int_retry_after
        | |- inv _ (time_sleep _) => unfold time_sleep
        end ].

(** ** The invariant of a run *)

Lemma run_invariant_stable : stable payload_event_ok run_invariant.
Proof.
  constructor; try (intros; assumption).
  intros e st He (Ht & Hr & Hs). split; [|split; assumption].
  cbn [record_event with_trace trace]. apply Forall_app. split; [exact Ht|].
  constructor; [exact He | constructor].
Qed.

Lemma inv_update_imei (v : string) :
  inv run_invariant (update_result (assign_imei v)).
Proof. intros w st (Ht & Hr & Hs). repeat split; assumption. Qed.

Lemma inv_update_iccid (v : string) :
  inv run_invariant (update_result (assign_iccid v)).
Proof. intros w st (Ht & Hr & Hs). repeat split; assumption. Qed.

Lemma inv_reset_result : inv run_invariant (set_result empty_result).
Proof. intros w st (Ht & Hr & Hs). repeat split; assumption. Qed.

Create HintDb inv_run.
#[local] Hint Resolve inv_update_imei inv_update_iccid inv_reset_result
  : inv_run.

Ltac run_inv_walk :=
  inv_walk run_invariant_stable ltac:(exact I)
           ltac:(solve [auto 1 with inv_run nocore]).

Lemma inv_raise_for_status (resp : Response) :
  inv run_invariant (raise_for_status resp).
Proof. unfold raise_for_status. run_inv_walk. Qed.

Lemma inv_resp_json (resp : Response) : inv run_invariant (resp_json resp).
Proof. unfold resp_json. run_inv_walk. Qed.

#[local] Hint Resolve inv_raise_for_status inv_resp_json : inv_run.

Lemma inv_get_attempts (n : nat) (req : Request) :
  inv run_invariant (_get_attempts n req).
Proof. induction n as [|n IH]; cbn [_get_attempts]; run_inv_walk. Qed.

Lemma inv_get (req : Request) : inv run_invariant (_get req).
Proof. apply inv_get_attempts. Qed.

#[local] Hint Resolve inv_get : inv_run.

Lemma inv_shipments_pages (fuel : nat) (date : Date) (sid : nat) :
  forall page acc, inv run_invariant (shipments_pages fuel date sid page acc).
Proof.
  induction fuel as [|fuel IH]; intros page acc; cbn [shipments_pages];
    run_inv_walk.
Qed.

Lemma inv_fetch_orders (ids : list nat) :
  forall acc, inv run_invariant (fetch_orders ids acc).
Proof.
  induction ids as [|oid rest IH]; intros acc; cbn [fetch_orders];
    run_inv_walk.
Qed.

#[local] Hint Resolve inv_shipments_pages inv_fetch_orders : inv_run.

Lemma inv_get_shipped_orders (fuel : nat) (date : Date) (sid : nat) :
  inv run_invariant (get_shipped_orders fuel date sid).
Proof. unfold get_shipped_orders. run_inv_walk. Qed.

Lemma inv_dismiss_popup (texts : list string) :
  inv run_invariant (dismiss_popup texts).
Proof. induction texts as [|t rest IH]; cbn [dismiss_popup]; run_inv_walk. Qed.

#[local] Hint Resolve inv_get_shipped_orders inv_dismiss_popup : inv_run.

Lemma inv_login : inv run_invariant _login.
Proof. unfold _login. run_inv_walk. Qed.

#[local] Hint Resolve inv_login : inv_run.

Lemma inv_start : inv run_invariant start.
Proof. unfold start. run_inv_walk. Qed.

Lemma inv_close : inv run_invariant close.
Proof. unfold close. run_inv_walk. Qed.

Lemma inv_upload_csv (path : string) : inv run_invariant (upload_csv path).
Proof. unfold upload_csv. run_inv_walk. Qed.

Lemma inv_clear_search : inv run_invariant clear_search.
Proof. unfold clear_search. run_inv_walk. Qed.

#[local] Hint Resolve inv_start inv_close inv_upload_csv inv_clear_search
  : inv_run.

Lemma inv_lookup_try (serial : string) : inv run_invariant (lookup_try serial).
Proof. unfold lookup_try, lookup_search, lookup_extract. run_inv_walk. Qed.

#[local] Hint Resolve inv_lookup_try : inv_run.

(** [lookup_serial] keeps the invariant and what it returns is the result
    dict it leaves, which holds no SIM provider. *)
Lemma lookup_serial_inv (serial : string) (w : World) (st : State) :
  run_invariant st ->
  run_invariant (snd (lookup_serial serial w st))
  /\ (forall r, fst (lookup_serial serial w st) = Ret r ->
                lr_sim_provider r = EmptyString).
Proof.
  intros H.
  set (T := try_except (lookup_try serial)
              (fun e =>
                 page_call (PwScreenshot (error_screenshot serial)) ;;
                 log (LookupError serial e) ;;
                 try_except (page_call (PwGoto GPX_ADMIN_URL) ;; ret tt)
                            (fun _ => ret tt))).
  assert (HT : inv run_invariant T) by (unfold T; run_inv_walk).
  set (st0 := snd (set_result empty_result w st)).
  assert (H0 : run_invariant st0) by exact (inv_reset_result w H).
  assert (E : lookup_serial serial w st =
              match T w st0 with
              | (Ret _, s) => (Ret (result_dict s), s)
              | (Raise e, s) => (Raise e, s)
              | (Fuel, s) => (Fuel, s)
              end) by reflexivity.
  rewrite E. specialize (HT w _ H0).
  destruct (T w st0) as [[[]|e|] st1]; cbn [fst snd] in *.
  - split; [exact HT|]. intros r Hr. injection Hr as Hr. subst r. apply HT.
  - split; [exact HT | discriminate].
  - split; [exact HT | discriminate].
Qed.

Lemma update_nth_Forall (A : Type) (P : A -> Prop) (f : A -> A) (l : list A) :
  forall i, (forall x, P x -> P (f x)) -> Forall P l ->
            Forall P (update_nth i f l).
Proof.
  induction l as [|x l IH]; intros i Hf Hl; [destruct i; constructor|].
  inversion Hl as [|? ? Hx Hl']; subst.
  destruct i as [|i]; cbn [update_nth]; constructor; auto.
Qed.

Lemma inv_lookup_loop (to_lookup : list nat) :
  inv run_invariant (lookup_loop to_lookup).
Proof.
  induction to_lookup as [|i rest IH]; cbn [lookup_loop]; [apply inv_ret|].
  intros w st H. unfold bind at 1. cbn [get_state]. unfold bind at 1.
  destruct (lookup_serial_inv
              (serial (nth i (record_dicts st) blank_record)) w H)
    as [Hinv Hval].
  destruct (lookup_serial _ w st) as [[gpx_data|e|] st1]; cbn [fst snd] in *;
    try exact Hinv.
  unfold bind at 1. cbn [get_state]. unfold bind at 1. cbn [set_records].
  apply IH. destruct Hinv as (Ht & Hr & Hs).
  split; [exact Ht|]. split; [|exact Hs]. cbn [record_dicts].
  apply update_nth_Forall; [|exact Hr].
  intros r _. unfold no_sim_provider, merge_lookup. cbn [sim_provider].
  now apply Hval.
Qed.

#[local] Hint Resolve inv_lookup_loop : inv_run.

(** [enrich_with_gpx] step by step. *)
Lemma enrich_with_gpx_eval (records : list EnrichmentRecord) (w : World)
  (st : State) :
  enrich_with_gpx records w st =
  match to_lookup_from 0 records with
  | [] => (Ret (records, None),
           record_event (ELog NoSerialsToLookUp) (with_records records st))
  | to_lookup =>
      match start w (before_start records st) with
      | (Ret _, s1) =>
          match lookup_loop to_lookup w s1 with
          | (Ret _, s2) => (Ret (record_dicts s2, Some TheScraper), s2)
          | (Raise e, s2) => enrich_failure w e s2
          | (Fuel, s2) => (Fuel, s2)
          end
      | (Raise e, s1) => enrich_failure w e s1
      | (Fuel, s1) => (Fuel, s1)
      end
  end.
Proof.
  unfold enrich_with_gpx, before_start, enrich_failure.
  destruct (to_lookup_from 0 records) as [|i rest]; [reflexivity|].
  unfold bind at 1 2 3. cbn [set_records set_pw set_browser].
  unfold try_except, bind at 1.
  destruct (start w _) as [[[]|e|] s1].
  - unfold bind at 1.
    destruct (lookup_loop (i :: rest) w s1) as [[[]|e|] s2];
      [reflexivity | | reflexivity].
    destruct (is_Exception e); [|reflexivity].
    unfold bind at 1. cbn [log emit]. unfold bind at 1.
    now destruct (close w _) as [[[]|e'|] s3].
  - destruct (is_Exception e); [|reflexivity].
    unfold bind at 1. cbn [log emit]. unfold bind at 1.
    now destruct (close w _) as [[[]|e'|] s3].
  - reflexivity.
Qed.

(** [enrich_with_gpx], given records without a SIM provider, keeps the
    invariant and returns such records. *)
Lemma enrich_with_gpx_inv (records : list EnrichmentRecord) (w : World)
  (st : State) :
  Forall no_sim_provider records ->
  run_invariant st ->
  run_invariant (snd (enrich_with_gpx records w st))
  /\ (forall enriched, fst (enrich_with_gpx records w st) = Ret enriched ->
                       Forall no_sim_provider (fst enriched)).
Proof.
  intros Hrec H. rewrite enrich_with_gpx_eval.
  assert (H0 : run_invariant (with_records records st)).
  { destruct H as (Ht & _ & Hs). repeat split; assumption. }
  assert (Hfail : forall e s, run_invariant s ->
            run_invariant (snd (enrich_failure w e s))
            /\ (forall enriched, fst (enrich_failure w e s) = Ret enriched ->
                                 Forall no_sim_provider (fst enriched))).
  { intros e s Hs. unfold enrich_failure.
    destruct (is_Exception e); [|split; [exact Hs | discriminate]].
    assert (Hl : run_invariant (record_event (ELog (GpxLookupFailed e)) s))
      by now apply (stable_event run_invariant_stable).
    pose proof (inv_close w Hl) as Hc.
    destruct (close w _) as [[[]|e'|] s']; cbn [fst snd] in *;
      (split; [exact Hc|]); try discriminate.
    intros enriched Hr. injection Hr as <-. apply Hc. }
  destruct (to_lookup_from 0 records) as [|i rest].
  - cbn [fst snd]. split; [|intros enriched Hr; injection Hr as <-; exact Hrec].
    now apply (stable_event run_invariant_stable).
  - pose proof (inv_start w (st := before_start records st) H0) as Hs.
    destruct (start w _) as [[[]|e|] s1]; cbn [snd] in Hs.
    + pose proof (inv_lookup_loop (i :: rest) w Hs) as Hl.
      destruct (lookup_loop (i :: rest) w s1) as [[[]|e|] s2];
        cbn [fst snd] in *.
      * split; [exact Hl|]. intros enriched Hr. injection Hr as <-. apply Hl.
      * now apply Hfail.
      * split; [exact Hl | discriminate].
    + now apply Hfail.
    + split; [exact Hs | discriminate].
Qed.

(** ** The payloads of a run *)

Lemma run_rows_blank (records : list EnrichmentRecord) :
  Forall no_sim_provider records ->
  payload_blank_at [0; 1; 5; 6] (run_rows records).
Proof.
  intros H. split; [reflexivity|]. apply Forall_map.
  apply (Forall_impl _ (P := no_sim_provider)); [|exact H].
  intros r Hr. unfold row_blank_at. repeat constructor. exact (f_equal Some Hr).
Qed.

Lemma sheet_rows_blank (records : list EnrichmentRecord) :
  Forall no_sim_provider records ->
  payload_blank_at [0; 1; 5; 6] (sheet_rows records).
Proof. exact (run_rows_blank (records := records)). Qed.

Lemma parse_orders_loop_no_sim (orders : list Json) :
  forall records,
    Forall no_sim_provider records ->
    Forall no_sim_provider (parse_orders_loop orders records).
Proof.
  induction orders as [|o orders IH]; intros records H; [exact H|].
  cbn [parse_orders_loop].
  destruct (extract_serial_numbers _) as [|sn sns]; apply IH;
    apply Forall_app; (split; [exact H|]).
  - repeat constructor.
  - generalize 0. generalize (sn :: sns). intros l.
    induction l as [|x l IHl]; intros i; cbn; constructor;
      [reflexivity | apply IHl].
Qed.

Lemma parse_orders_no_sim (orders : list Json) :
  Forall no_sim_provider (parse_orders orders).
Proof. apply parse_orders_loop_no_sim. constructor. Qed.

Lemma inv_temp_file (prefix suffix : string) :
  inv run_invariant (temp_file prefix suffix).
Proof. unfold temp_file. run_inv_walk. Qed.

Lemma inv_get_google_services : inv run_invariant get_google_services.
Proof. unfold get_google_services. run_inv_walk. Qed.

#[local] Hint Resolve inv_temp_file inv_get_google_services : inv_run.

Ltac payload_side H :=
  first [ exact I
        | apply run_rows_blank; exact H
        | apply sheet_rows_blank; exact H ].

Lemma inv_create_and_populate_sheet (records : list EnrichmentRecord)
  (date : Date) :
  Forall no_sim_provider records ->
  inv run_invariant (create_and_populate_sheet records date).
Proof.
  intros H. unfold create_and_populate_sheet.
  inv_walk run_invariant_stable ltac:(payload_side H)
           ltac:(solve [auto 1 with inv_run nocore]).
Qed.

Lemma inv_run_publish (records : list EnrichmentRecord)
  (gpx_scraper : option GPXScraper) (date : Date) (dry_run : bool) :
  Forall no_sim_provider records ->
  inv run_invariant (run_publish records gpx_scraper date dry_run).
Proof.
  intros H. pose proof (inv_create_and_populate_sheet date H) as Hsheet.
  unfold run_publish, close_if_open.
  inv_walk run_invariant_stable ltac:(payload_side H)
           ltac:(solve [auto 1 with inv_run nocore]).
Qed.

Lemma inv_run (fuel : nat) (target_date : option Date) (dry_run : bool) :
  inv run_invariant (run fuel target_date dry_run).
Proof.
  unfold run. apply inv_bind; [destruct target_date; run_inv_walk|].
  intros date. apply inv_bind; [run_inv_walk|]. intros sid.
  apply inv_bind; [run_inv_walk|]. intros [|o orders]; [run_inv_walk|].
  pose proof (parse_orders_no_sim (o :: orders)) as Hp.
  destruct (parse_orders (o :: orders)) as [|r records]; [run_inv_walk|].
  intros w st H. unfold bind.
  destruct (enrich_with_gpx_inv w Hp H) as [Hinv Hval].
  destruct (enrich_with_gpx (r :: records) w st) as [[enriched|e|] st1];
    cbn [fst snd] in *; try exact Hinv.
  apply inv_run_publish; [now apply Hval | exact Hinv].
Qed.

Lemma initial_state_invariant : run_invariant initial_state.
Proof. repeat split; constructor. Qed.

Lemma payloads_blank_fewer (cols cols' : list nat) (tr : list Event) :
  incl cols' cols ->
  payloads_blank_at cols tr -> payloads_blank_at cols' tr.
Proof.
  intros Hincl. unfold payloads_blank_at. apply Forall_impl. intros e.
  destruct (event_payload e) as [[|header data]|]; auto.
  intros [Hh Hd]. split; [exact Hh|].
  revert Hd. apply Forall_impl. intros row Hrow.
  unfold row_blank_at in *. rewrite Forall_forall in *. auto.
Qed.

Lemma run_payloads_blank (fuel : nat) (target_date : option Date)
  (dry_run : bool) (w : World) :
  payloads_blank_at [0; 1; 5; 6]
    (trace (snd (run fuel target_date dry_run w initial_state))).
Proof. apply (inv_run fuel target_date dry_run w initial_state_invariant). Qed.

(** ** The lookup never assigns a SIM provider *)

Lemma result_without_sim_stable : stable (fun _ => True) result_without_sim.
Proof. constructor; intros; assumption. Qed.

Lemma lookup_serial_result_without_sim (serial : string) (w : World)
  (st : State) (r : LookupResult) :
  fst (lookup_serial serial w st) = Ret r ->
  lr_sim_provider r = EmptyString.
Proof.
  set (T := try_except (lookup_try serial)
              (fun e =>
                 page_call (PwScreenshot (error_screenshot serial)) ;;
                 log (LookupError serial e) ;;
                 try_except (page_call (PwGoto GPX_ADMIN_URL) ;; ret tt)
                            (fun _ => ret tt))).
  assert (Hup : forall f,
             (forall x, lr_sim_provider (f x) = lr_sim_provider x) ->
             inv result_without_sim (update_result f)).
  { intros f Hf w0 st0 H0. unfold result_without_sim in *. cbn.
    now rewrite Hf. }
  assert (HT : inv result_without_sim T).
  { unfold T, lookup_try, lookup_search, lookup_extract, clear_search.
    inv_walk result_without_sim_stable ltac:(exact I)
             ltac:(solve [apply Hup; reflexivity]). }
  set (st0 := snd (set_result empty_result w st)).
  assert (E : lookup_serial serial w st =
              match T w st0 with
              | (Ret _, s) => (Ret (result_dict s), s)
              | (Raise e, s) => (Raise e, s)
              | (Fuel, s) => (Fuel, s)
              end) by reflexivity.
  rewrite E. specialize (HT w st0 eq_refl).
  destruct (T w st0) as [[[]|e|] st1]; cbn [fst snd] in *; try discriminate.
  intros Hr. injection Hr as <-. exact HT.
Qed.

Lemma rows_blank_ABF (records : list EnrichmentRecord) :
  payload_blank_at [0; 1; 5] (run_rows records).
Proof.
  split; [reflexivity|]. apply Forall_map. apply Forall_forall.
  intros r _. repeat constructor.
Qed.

(** C9: the header row labels column A with SKU, yet every data row of
    every payload - the rows of [create_and_populate_sheet] uploaded to the
    document store as well as the rows [run] writes to the file it hands to
    the console - holds the empty string in columns A, B and F; the rows
    do not depend on the sku of the records; and this holds of every file
    written and every upload made in any run. *)
Theorem payload_columns_A_B_F_blank :
  nth_error SHEET_HEADERS 0 = Some "SKU"
  /\ (forall records,
        payload_blank_at [0; 1; 5] (sheet_rows records)
        /\ payload_blank_at [0; 1; 5] (run_rows records))
  /\ (forall records,
        sheet_rows (map forget_sku records) = sheet_rows records
        /\ run_rows (map forget_sku records) = run_rows records)
  /\ (forall fuel target_date dry_run w,
        payloads_blank_at [0; 1; 5]
          (trace (snd (run fuel target_date dry_run w initial_state)))).
Proof.
  split; [reflexivity|]. split; [|split].
  - intros records. split; apply rows_blank_ABF.
  - intros records. unfold sheet_rows, run_rows. rewrite map_map.
    split; reflexivity.
  - intros fuel target_date dry_run w.
    apply (payloads_blank_fewer (cols := [0; 1; 5; 6])).
    + intros i Hi. cbn in *. intuition.
    + apply run_payloads_blank.
Qed.

(** C10: whenever [lookup_serial] returns, the result it returns has an
    empty sim_provider; the records [enrich_with_gpx] returns for parsed
    orders all have an empty sim_provider; and in every run, every data row
    of every payload written or uploaded has the empty string in column G,
    the SIM Provider column. *)
Theorem sim_provider_always_empty :
  (forall serial w st r,
      fst (lookup_serial serial w st) = Ret r ->
      lr_sim_provider r = EmptyString)
  /\ (forall orders w enriched,
        fst (enrich_with_gpx (parse_orders orders) w initial_state)
        = Ret enriched ->
        Forall (fun r => sim_provider r = EmptyString) (fst enriched))
  /\ nth_error SHEET_HEADERS 6 = Some "SIM Provider"
  /\ (forall fuel target_date dry_run w,
        payloads_blank_at [6]
          (trace (snd (run fuel target_date dry_run w initial_state)))).
Proof.
  split; [exact lookup_serial_result_without_sim|]. split; [|split].
  - intros orders w enriched H.
    exact (proj2 (enrich_with_gpx_inv w (parse_orders_no_sim orders)
                    initial_state_invariant) enriched H).
  - reflexivity.
  - intros fuel target_date dry_run w.
    apply (payloads_blank_fewer (cols := [0; 1; 5; 6])).
    + intros i Hi. cbn in *. intuition.
    + apply run_payloads_blank.
Qed.

Lemma sim_provider_always_empty_witness :
  (fst (lookup_serial "274341" (console_world card_text) initial_state)
   = Ret (mkLookup "862601768000477" "8901176000000000001" EmptyString)
   /\ lr_sim_provider
        (mkLookup "862601768000477" "8901176000000000001" EmptyString)
      = EmptyString)
  /\ (fst (enrich_with_gpx (parse_orders [order_1007])
             (console_world card_text) initial_state)
      = Ret ([mkRecord "GPX-1" "274341" "862601768000477"
                       "8901176000000000001" EmptyString "shopify"
                       "unassigned" "1007" EmptyString],
             Some TheScraper)
      /\ Forall (fun r => sim_provider r = EmptyString)
            [mkRecord "GPX-1" "274341" "862601768000477"
                      "8901176000000000001" EmptyString "shopify"
                      "unassigned" "1007" EmptyString]).
Proof.
  destruct sim_provider_always_empty as (Hlookup & Henrich & _).
  split.
  - assert (H : fst (lookup_serial "274341" (console_world card_text)
                       initial_state)
                = Ret (mkLookup "862601768000477" "8901176000000000001"
                                EmptyString)) by (vm_compute; reflexivity).
    split; [exact H|]. exact (Hlookup _ _ _ _ H).
  - assert (H : fst (enrich_with_gpx (parse_orders [order_1007])
                       (console_world card_text) initial_state)
                = Ret ([mkRecord "GPX-1" "274341" "862601768000477"
                                 "8901176000000000001" EmptyString "shopify"
                                 "unassigned" "1007" EmptyString],
                       Some TheScraper)) by (vm_compute; reflexivity).
    split; [exact H|]. exact (Henrich _ _ _ H).
Defined.

(** ** Soundness of the matcher *)

Lemma firstn_plus (A : Type) (k n : nat) (s : list A) :
  firstn (k + n) s = firstn k s ++ firstn n (skipn k s).
Proof.
  revert s. induction k as [|k IH]; intros s; [reflexivity|].
  destruct s as [|c s]; cbn; [now destruct n | now rewrite IH].
Qed.

Lemma starts_with_firstn (l s : list ascii) :
  starts_with l s = true -> firstn (length l) s = l /\ length l <= length s.
Proof.
  revert s. induction l as [|a l IH]; intros s H; cbn; [split; [reflexivity|lia]|].
  destruct s as [|b s]; [discriminate|]. cbn in H.
  apply andb_prop in H as [Hab Hl]. apply Ascii.eqb_eq in Hab. subst b.
  destruct (IH s Hl) as [E L]. cbn. rewrite E. split; [reflexivity | lia].
Qed.

(** A match consumes, piece by piece, what its atoms allow; the groups are
    the pieces of the capturing atoms. *)
Lemma match_here_sound (p : pattern) :
  forall prev s n gs,
    match_here p prev s = Some (n, gs) ->
    exists pieces,
      Forall2 piece_of p pieces
      /\ firstn n s = concat pieces
      /\ n <= length s
      /\ gs = captures p pieces.
Proof.
  induction p as [|a p IH]; intros prev s n gs H; cbn [match_here] in H.
  - injection H as <- <-. exists []. repeat split; [constructor | lia].
  - destruct a as [l | cls lo hi cap | ].
    + destruct (starts_with l s) eqn:El; [|discriminate].
      destruct (match_here p _ _) as [[n' gs']|] eqn:Em; [|discriminate].
      injection H as <- <-.
      destruct (IH _ _ _ _ Em) as (pieces & Hp & Hf & Hn & Hg).
      destruct (starts_with_firstn _ _ El) as [Efl Ell].
      exists (l :: pieces). split; [constructor; [constructor | exact Hp]|].
      split; [cbn [concat]; now rewrite firstn_plus, Efl, Hf|].
      split; [rewrite length_skipn in Hn; lia | exact Hg].
    + apply try_down_some in H as (j & Hj & Hfj).
      destruct (match_here p _ _) as [[n' gs']|] eqn:Em; [|discriminate].
      injection Hfj as <- <-.
      destruct (IH _ _ _ _ Em) as (pieces & Hp & Hf & Hn & Hg).
      assert (Hspan : j <= span cls s) by (destruct hi; lia).
      pose proof (prefix_in_class cls s j) as Hpre.
      apply Nat.leb_le in Hspan. rewrite Hspan in Hpre.
      apply andb_prop in Hpre as [Hlen Hall]. apply Nat.leb_le in Hlen.
      exists (firstn j s :: pieces). split.
      * constructor; [|exact Hp]. constructor; [exact Hall | |].
        -- rewrite firstn_length_le by exact Hlen. lia.
        -- rewrite firstn_length_le by exact Hlen. destruct hi; [lia | exact I].
      * split; [cbn [concat]; now rewrite firstn_plus, Hf|].
        split; [rewrite length_skipn in Hn; lia|].
        cbn [captures]. destruct cap; now rewrite Hg.
    + destruct (at_boundary prev s); [|discriminate].
      destruct (IH _ _ _ _ H) as (pieces & Hp & Hf & Hn & Hg).
      exists ([] :: pieces). split; [constructor; [constructor | exact Hp]|].
      repeat split; assumption.
Qed.

Lemma search_from_sound (p : pattern) (s : list ascii) :
  forall prev pos m,
    search_from p prev s pos = Some m ->
    exists k,
      m_start m = pos + k /\ k <= length s
      /\ match_here p (char_before prev s k) (skipn k s)
         = Some (m_len m, m_groups m).
Proof.
  induction s as [|c s IH]; intros prev pos m H; cbn [search_from] in H.
  - destruct (match_here p prev []) as [[n gs]|] eqn:E; [|discriminate].
    injection H as <-. exists 0. cbn. repeat split; [lia | lia | exact E].
  - destruct (match_here p prev (c :: s)) as [[n gs]|] eqn:E.
    + injection H as <-. exists 0. cbn. repeat split; [lia | lia | exact E].
    + destruct (IH _ _ _ H) as (k & Hk & Hl & Hm).
      exists (S k). cbn [length skipn char_before].
      repeat split; [lia | lia |].
      destruct k as [|k]; exact Hm.
Qed.

(** ** Running one lookup *)

Lemma page_call_ok (op : PageOp) (w : World) (st : State) (t : string) :
  page_answers w (page_calls st) = Returns t ->
  page_call op w st = (Ret t, called [op] st).
Proof. intros H. unfold page_call. now rewrite H. Qed.

Lemma called_facts (ops : list PageOp) :
  forall st,
    page_calls (called ops st) = page_calls st + length ops
    /\ trace (called ops st) = trace st ++ map EPage ops
    /\ result_dict (called ops st) = result_dict st.
Proof.
  induction ops as [|op ops IH]; intros st; cbn [called fold_left].
  - cbn. rewrite app_nil_r. repeat split. lia.
  - fold (called ops (count_page (record_event (EPage op) st))).
    destruct (IH (count_page (record_event (EPage op) st))) as (Hc & Ht & Hr).
    rewrite Hc, Ht, Hr. cbn. rewrite <- app_assoc. repeat split. lia.
Qed.

Lemma lookup_search_ok (serial page_text : string) (w : World) (st : State) :
  (forall k, k < 5 ->
     exists t, page_answers w (page_calls st + k) = Returns t) ->
  page_answers w (page_calls st + 5) = Returns page_text ->
  lookup_search serial w st = (Ret page_text, called (search_calls serial) st).
Proof.
  intros H Htext. unfold lookup_search.
  destruct (H 0 ltac:(lia)) as (t0 & H0). rewrite Nat.add_0_r in H0.
  destruct (H 1 ltac:(lia)) as (t1 & H1).
  destruct (H 2 ltac:(lia)) as (t2 & H2).
  destruct (H 3 ltac:(lia)) as (t3 & H3).
  destruct (H 4 ltac:(lia)) as (t4 & H4).
  unfold bind at 1. rewrite (page_call_ok _ _ _ H0).
  unfold bind at 1. rewrite (@page_call_ok _ w _ t1);
    [|cbn; now rewrite Nat.add_1_r in H1].
  unfold bind at 1. rewrite (@page_call_ok _ w _ t2);
    [|cbn; now replace (page_calls st + 2) with (S (S (page_calls st)))
               in H2 by lia].
  unfold bind at 1. rewrite (@page_call_ok _ w _ t3);
    [|cbn; now replace (page_calls st + 3) with (S (S (S (page_calls st))))
               in H3 by lia].
  unfold bind at 1. rewrite (@page_call_ok _ w _ t4);
    [|cbn; now replace (page_calls st + 4)
               with (S (S (S (S (page_calls st))))) in H4 by lia].
  rewrite (@page_call_ok _ w _ page_text);
    [reflexivity|].
  cbn. now replace (page_calls st + 5)
         with (S (S (S (S (S (page_calls st)))))) in Htext by lia.
Qed.

(** Clearing the search never raises and leaves the result dict alone. *)
Lemma clear_search_returns (w : World) (st : State) :
  exists st',
    clear_search w st = (Ret tt, st')
    /\ result_dict st' = result_dict st
    /\ exists evs, trace st' = trace st ++ evs.
Proof.
  unfold clear_search, try_except, bind, page_call.
  destruct (page_answers w (page_calls st)); cbn.
  - eexists. split; [reflexivity|]. split; [reflexivity|].
    eexists. reflexivity.
  - destruct (page_answers w (S (page_calls st))); cbn.
    + destruct (page_answers w (S (S (page_calls st)))); cbn;
        (eexists; split; [reflexivity|]; split; [reflexivity|];
         cbn; rewrite <- !app_assoc; eexists; reflexivity).
    + eexists. split; [reflexivity|]. split; [reflexivity|].
      cbn. rewrite <- !app_assoc. eexists. reflexivity.
Qed.

Lemma re_search_sound (p : pattern) (text : string) (m : Match) :
  re_search p text = Some m ->
  exists pieces,
    Forall2 piece_of p pieces
    /\ matched_text text m = concat pieces
    /\ m_groups m = captures p pieces
    /\ m_start m + m_len m <= length (chars text).
Proof.
  unfold re_search, matched_text, chars. intros H.
  destruct (search_from_sound _ _ _ _ H) as (k & Hk & Hl & Hm).
  cbn in Hk. subst k.
  destruct (match_here_sound _ _ _ Hm) as (pieces & Hp & Hf & Hn & Hg).
  exists pieces. repeat split; try assumption.
  rewrite length_skipn in Hn. lia.
Qed.

Ltac invert_pieces :=
  repeat match goal with
         | H : Forall2 piece_of (_ :: _) _ |- _ => inversion H; clear H; subst
         | H : Forall2 piece_of [] _ |- _ => inversion H; clear H; subst
         | H : piece_of (Lit _) _ |- _ => inversion H; clear H; subst
         | H : piece_of (Rep _ _ _ _) _ |- _ => inversion H; clear H; subst
         end.

(** What a match of the combined pattern looks like: the label and the
    serial, then the IMEI, then the ICCID, separated by white space. *)
Lemma primary_pattern_sound (serial text : string) (m : Match) :
  re_search (primary_pattern serial) text = Some m ->
  exists w1 w2 w3 w4 w5 imei_d iccid_d,
    matched_text text m =
      chars "Serial:" ++ w1 ++ chars serial ++ w2 ++
      chars "IMEI:" ++ w3 ++ imei_d ++ w4 ++
      chars "ICCID:" ++ w5 ++ iccid_d
    /\ forallb is_space (w1 ++ w2 ++ w3 ++ w4 ++ w5) = true
    /\ 1 <= length w2 /\ 1 <= length w4
    /\ group 1 m = string_of_list_ascii imei_d
    /\ group 2 m = string_of_list_ascii iccid_d
    /\ digits_between 14 15 imei_d
    /\ digits_between 19 22 iccid_d.
Proof.
  intros H. destruct (re_search_sound _ _ H) as (pieces & Hp & Hm & Hg & _).
  unfold primary_pattern in *. invert_pieces.
  cbn [captures] in Hg. cbn [concat] in Hm. rewrite app_nil_r in Hm.
  do 7 eexists. split; [exact Hm|].
  unfold group. rewrite Hg. cbn [Nat.sub nth].
  rewrite !forallb_app.
  repeat match goal with H : forallb _ _ = true |- _ => rewrite H end.
  unfold digits_between. repeat split; try assumption; try lia.
Qed.


Lemma digits_truthy (lo hi : nat) (x : list ascii) :
  1 <= lo -> digits_between lo hi x -> truthy (string_of_list_ascii x) = true.
Proof.
  intros Hlo [_ [Hl _]]. destruct x as [|c x]; [cbn in Hl; lia | reflexivity].
Qed.

Lemma bind_returned (A B : Type) (m : M A) (f : A -> M B) (w : World)
  (st st' : State) (a : A) :
  m w st = (Ret a, st') -> bind m f w st = f a w st'.
Proof. intros H. unfold bind. now rewrite H. Qed.

Lemma assign_found_imei (o : option Match) (w : World) (st : State) :
  match o with
  | Some imei_m => update_result (assign_imei (group 1 imei_m))
  | None => ret tt
  end w st
  = (Ret tt,
     with_result
       (mkLookup (match o with
                  | Some imei_m => group 1 imei_m
                  | None => lr_imei (result_dict st)
                  end)
                 (lr_iccid (result_dict st))
                 (lr_sim_provider (result_dict st))) st).
Proof. destruct st as [? ? ? ? ? ? ? [? ? ?] ?]. now destruct o. Qed.

Lemma assign_found_iccid (o : option Match) (w : World) (st : State) :
  match o with
  | Some iccid_m => update_result (assign_iccid (group 1 iccid_m))
  | None => ret tt
  end w st
  = (Ret tt,
     with_result
       (mkLookup (lr_imei (result_dict st))
                 (match o with
                  | Some iccid_m => group 1 iccid_m
                  | None => lr_iccid (result_dict st)
                  end)
                 (lr_sim_provider (result_dict st))) st).
Proof. destruct st as [? ? ? ? ? ? ? [? ? ?] ?]. now destruct o. Qed.

(** The EXTRACT block fills the result dict as [two_tier] says and takes
    the diagnostic screenshot when neither identifier was found. *)
Lemma lookup_extract_two_tier (serial page_text : string) (w : World)
  (st : State) :
  result_dict st = empty_result ->
  (unresolved (two_tier serial page_text) = true ->
   exists t, page_answers w (page_calls st) = Returns t) ->
  exists st',
    lookup_extract serial page_text w st = (Ret tt, st')
    /\ result_dict st' = two_tier serial page_text
    /\ (exists evs,
          trace st' = trace st ++ evs
          /\ (unresolved (two_tier serial page_text) = true ->
              In (EPage (PwScreenshot (search_screenshot serial))) evs)).
Proof.
  intros Hres Hshot. unfold lookup_extract, two_tier in *.
  destruct (re_search (primary_pattern serial) page_text) as [m|] eqn:Ep.
  - unfold bind, update_result, bind, get_state, set_result. cbn.
    rewrite Hres. eexists. split; [reflexivity|]. split; [reflexivity|].
    exists []. rewrite app_nil_r. split; [reflexivity|].
    destruct (primary_pattern_sound _ _ Ep)
      as (w1 & w2 & w3 & w4 & w5 & imei_d & iccid_d & _ & _ & _ & _
          & Hg1 & _ & Hd1 & _).
    unfold unresolved. cbn [lr_imei lr_iccid]. rewrite Hg1.
    rewrite (digits_truthy (lo := 14) (hi := 15)); [discriminate | lia | exact Hd1].
  - assert (Hcapture :
      unresolved (two_tier serial page_text) = true ->
      forall msg s,
        page_calls s = page_calls st -> trace s = trace st ->
        exists st',
          (page_call (PwScreenshot (search_screenshot serial)) ;; log msg) w s
          = (Ret tt, st')
          /\ result_dict st' = result_dict s
          /\ exists evs,
               trace st' = trace st ++ evs
               /\ In (EPage (PwScreenshot (search_screenshot serial))) evs).
    { intros Hu msg s Hpc Htr. unfold two_tier in Hu. rewrite Ep in Hu.
      destruct (Hshot Hu) as (t & Ht). rewrite <- Hpc in Ht.
      erewrite bind_returned by (apply page_call_ok; exact Ht).
      unfold log, emit, called. cbn.
      eexists. split; [reflexivity|]. split; [reflexivity|].
      cbn. rewrite Htr, <- app_assoc. eexists. split; [reflexivity|].
      now left. }
    unfold two_tier in Hcapture. rewrite Ep in Hcapture. clear Hshot.
    destruct (re_search (serial_pattern serial) page_text) as [sm|].
    + cbv zeta in *.
      set (nearby := substring (m_start sm) 300 page_text) in *.
      erewrite bind_returned by apply assign_found_imei.
      erewrite bind_returned by apply assign_found_iccid.
      unfold bind at 1. cbn [get_state with_result result_dict fst
                             lr_imei lr_iccid lr_sim_provider].
      rewrite Hres. cbn [empty_result lr_imei lr_iccid lr_sim_provider].
      unfold unresolved in *.
      destruct (re_search imei_pattern nearby) as [im|];
        destruct (re_search iccid_pattern nearby) as [ic|];
        cbn [group_or_empty lr_imei lr_iccid] in *;
        match goal with
        | |- context [if ?c then ret tt else _] => destruct c eqn:Ec
        end;
        try (eexists; split; [reflexivity|]; split; [reflexivity|];
             exists []; rewrite app_nil_r; split;
             [reflexivity | discriminate]);
        (edestruct (Hcapture eq_refl (SerialNoIds serial))
          as (st' & Hrun & Hrd & evs & Ht & Hin);
         [ | | exists st'; split; [exact Hrun|]; split; [exact Hrd|];
               exists evs; split; [exact Ht | intros _; exact Hin] ];
         reflexivity).
    + edestruct (Hcapture eq_refl (SerialNotInResults serial))
        as (st' & Hrun & Hrd & evs & Ht & Hin);
        [ | | exists st'; split; [exact Hrun|]; split;
              [rewrite Hrd; exact Hres|];
              exists evs; split; [exact Ht | intros _; exact Hin] ];
        reflexivity.
Qed.


Lemma lookup_serial_runs_two_tier (serial text : string) (w : World)
  (st : State) :
  (forall k, k < 5 ->
     exists t, page_answers w (page_calls st + k) = Returns t) ->
  page_answers w (page_calls st + 5) = Returns text ->
  (unresolved (two_tier serial text) = true ->
   exists t, page_answers w (page_calls st + 6) = Returns t) ->
  exists st',
    lookup_serial serial w st = (Ret (two_tier serial text), st')
    /\ (unresolved (two_tier serial text) = true ->
        In (EPage (PwScreenshot (search_screenshot serial))) (trace st')).
Proof.
  intros Hcalls Htext Hshot.
  set (st0 := with_result empty_result st).
  set (s1 := called (search_calls serial) st0).
  destruct (called_facts (search_calls serial) st0) as (Hc1 & Ht1 & Hr1).
  fold s1 in Hc1, Ht1, Hr1. cbn [search_calls length] in Hc1.
  destruct (@lookup_extract_two_tier serial text w s1)
    as (s2 & Hext & Hr2 & evs & Ht2 & Hin).
  { exact Hr1. }
  { intros Hu. rewrite Hc1. exact (Hshot Hu). }
  destruct (clear_search_returns w s2) as (s3 & Hclr & Hr3 & evs3 & Ht3).
  assert (Hsearch : lookup_search serial w st0 = (Ret text, s1))
    by (apply lookup_search_ok; [exact Hcalls | exact Htext]).
  assert (Htry : lookup_try serial w st0 = (Ret tt, s3)).
  { unfold lookup_try.
    erewrite bind_returned by exact Hsearch.
    erewrite bind_returned by exact Hext. exact Hclr. }
  exists s3. split.
  - unfold lookup_serial.
    erewrite bind_returned by reflexivity. fold st0.
    unfold bind, try_except. rewrite Htry. unfold get_state.
    now rewrite Hr3, Hr2.
  - intros Hu. rewrite Ht3, Ht2. apply in_or_app. left. apply in_or_app.
    right. exact (Hin Hu).
Qed.


(** ** When the session cannot be opened *)

Lemma quiet_since_refl (st : State) : quiet_since st st.
Proof. split; [reflexivity|]. exists []. now rewrite app_nil_r. Qed.

Lemma quiet_since_stable (st0 : State) :
  stable (fun e => is_quiet e = true) (quiet_since st0).
Proof.
  constructor; try (intros; assumption).
  intros e st He (Hr & evs & Ht & Hq). split; [exact Hr|].
  exists (evs ++ [e]). cbn [record_event with_trace trace].
  rewrite Ht, app_assoc, forallb_app, Hq. cbn. now rewrite He.
Qed.

Lemma quiet_start (st0 : State) : inv (quiet_since st0) start.
Proof.
  assert (Hd : forall texts, inv (quiet_since st0) (dismiss_popup texts)).
  { induction texts as [|t rest IH]; cbn [dismiss_popup];
      inv_walk (quiet_since_stable st0) ltac:(reflexivity)
               ltac:(assumption). }
  unfold start, _login.
  inv_walk (quiet_since_stable st0) ltac:(reflexivity) ltac:(apply Hd).
Qed.

(** [close] records that it was entered, then only quiet events. *)
Lemma close_once (w : World) (st : State) :
  exists evs,
    trace (snd (close w st)) = trace st ++ EClose :: evs
    /\ forallb is_quiet evs = true
    /\ record_dicts (snd (close w st)) = record_dicts st.
Proof.
  unfold close, bind, emit, get_state, page_call, ret.
  destruct st as [h p f g tr pw br r rs].
  cbn [record_event with_trace trace scraper_browser scraper_pw page_calls
       count_page record_dicts fst snd].
  destruct br, pw; cbn;
    repeat match goal with
           | |- context [page_answers w ?k] =>
               destruct (page_answers w k); cbn
           end;
    rewrite <- ?app_assoc; eexists; (split; [reflexivity|]); split;
      reflexivity.
Qed.

(** When [start] raises an exception, the enrichment performs no lookup:
    it logs the failure, enters [close] once, and hands back the records
    as they were, with no scraper, unless closing itself raises. *)
Lemma enrich_with_gpx_start_fails (records : list EnrichmentRecord)
  (w : World) (st st1 : State) (e : exn) :
  to_lookup_from 0 records <> [] ->
  start w (before_start records st) = (Raise e, st1) ->
  is_Exception e = true ->
  (exists before after,
      trace (snd (enrich_with_gpx records w st)) =
      trace st ++ before ++ ELog (GpxLookupFailed e) :: EClose :: after
      /\ forallb is_quiet before = true
      /\ forallb is_quiet after = true)
  /\ (forall enriched,
        fst (enrich_with_gpx records w st) = Ret enriched ->
        enriched = (records, None))
  /\ (forall st2,
        close w (record_event (ELog (GpxLookupFailed e)) st1) = (Ret tt, st2) ->
        enrich_with_gpx records w st = (Ret (records, None), st2)).
Proof.
  intros Hl Hstart Hexc. rewrite enrich_with_gpx_eval.
  destruct (to_lookup_from 0 records) as [|i rest]; [congruence|].
  rewrite Hstart. unfold enrich_failure. rewrite Hexc.
  pose proof (quiet_start (st0 := before_start records st) w
                          (quiet_since_refl _)) as Hq.
  rewrite Hstart in Hq. cbn [snd] in Hq. destruct Hq as (Hr1 & before & Ht1 & Hb).
  cbn in Hr1, Ht1.
  destruct (close_once w (record_event (ELog (GpxLookupFailed e)) st1))
    as (after & Ht2 & Ha & Hr2).
  cbn [record_event with_trace trace record_dicts] in Ht2, Hr2.
  destruct (close w _) as [[[]|e'|] st2]; cbn [fst snd] in *.
  - split; [|split].
    + exists before, after. rewrite Ht2, Ht1, <- !app_assoc.
      repeat split; assumption.
    + intros enriched [= <-]. now rewrite Hr2, Hr1.
    + intros st2' [= <-]. now rewrite Hr2, Hr1.
  - split; [|split; [discriminate | discriminate]].
    exists before, after. rewrite Ht2, Ht1, <- !app_assoc.
    repeat split; assumption.
  - split; [|split; [discriminate | discriminate]].
    exists before, after. rewrite Ht2, Ht1, <- !app_assoc.
    repeat split; assumption.
Qed.

Lemma console_idle_stable (st0 : State) :
  stable (fun e => is_console_event e = false) (console_idle_since st0).
Proof.
  constructor; try (intros; assumption).
  intros e st He (evs & Ht & Hq).
  exists (evs ++ [e]). cbn [record_event with_trace trace].
  rewrite Ht, app_assoc, existsb_app, Hq. cbn. now rewrite He.
Qed.

(** Without a session the publish phase never touches the console. *)
Lemma run_publish_console_idle (records : list EnrichmentRecord)
  (date : Date) (dry_run : bool) (st0 : State) :
  inv (console_idle_since st0) (run_publish records None date dry_run).
Proof.
  unfold run_publish, close_if_open, temp_file, get_google_services,
         create_and_populate_sheet, temp_file.
  inv_walk (console_idle_stable st0) ltac:(reflexivity) ltac:(fail).
Qed.

Lemma fs_call_ok (op : FsOp) (w : World) (st : State) :
  fs_answers w (fs_calls st) = true ->
  fs_call op w st = (Ret tt, count_fs (record_event (EFs op) st)).
Proof. intros H. unfold fs_call. now rewrite H. Qed.

Lemma google_call_ok (e : Event) (w : World) (st : State) (t : string) :
  google_answers w (google_calls st) = Returns t ->
  google_call e w st = (Ret t, count_google (record_event e st)).
Proof. intros H. unfold google_call. now rewrite H. Qed.

(** A live publish without a session, when the file and document-store
    calls succeed. *)
Lemma run_publish_without_session (records : list EnrichmentRecord)
  (date : Date) (w : World) (st : State) :
  (forall k, k < 6 -> fs_answers w (fs_calls st + k) = true) ->
  token_exists w = true ->
  (forall k, k < 2 ->
     exists t, google_answers w (google_calls st + k) = Returns t) ->
  exists st',
    run_publish records None date false w st = (Ret tt, st')
    /\ trace st' = trace st ++ publish_without_session records date st.
Proof.
  intros Hfs Htok Hg.
  pose proof (Hfs 0 ltac:(lia)) as F0. rewrite Nat.add_0_r in F0.
  pose proof (Hfs 1 ltac:(lia)) as F1. pose proof (Hfs 2 ltac:(lia)) as F2.
  pose proof (Hfs 3 ltac:(lia)) as F3. pose proof (Hfs 4 ltac:(lia)) as F4.
  pose proof (Hfs 5 ltac:(lia)) as F5.
  replace (fs_calls st + 5) with (S (S (S (S (S (fs_calls st)))))) in F5
    by lia.
  destruct (Hg 0 ltac:(lia)) as (t0 & G0). rewrite Nat.add_0_r in G0.
  destruct (Hg 1 ltac:(lia)) as (t1 & G1).
  replace (fs_calls st + 1) with (S (fs_calls st)) in F1 by lia.
  replace (fs_calls st + 2) with (S (S (fs_calls st))) in F2 by lia.
  replace (fs_calls st + 3) with (S (S (S (fs_calls st)))) in F3 by lia.
  replace (fs_calls st + 4) with (S (S (S (S (fs_calls st))))) in F4 by lia.
  replace (google_calls st + 1) with (S (google_calls st)) in G1 by lia.
  unfold publish_without_session.
  replace (fs_calls st + 2) with (S (S (fs_calls st))) by lia.
  destruct st as [h p f g tr pw br r rs].
  cbn [fs_calls google_calls] in *.
  unfold run_publish, temp_file, close_if_open, try_finally, bind, get_state,
         get_google_services, create_and_populate_sheet, temp_file,
         try_finally, bind, get_state, ask, fs_call, google_call, log, emit,
         ret.
  cbn [fs_calls google_calls record_event with_trace trace count_fs
       count_google fst snd].
  repeat (first [ rewrite F0 | rewrite F1 | rewrite F2 | rewrite F3
                | rewrite F4 | rewrite F5 | rewrite Htok | rewrite G0
                | rewrite G1 ];
          cbn [answered fs_calls google_calls record_event with_trace trace
               count_fs count_google fst snd]).
  eexists. split; [reflexivity|].
  cbn [trace count_fs count_google record_event with_trace].
  now rewrite <- !app_assoc.
Qed.

(** With the session failing to open, [run] reaches its publish phase with
    the records as parsed and no scraper. *)
Lemma run_continues_without_session (fuel : nat) (date : Date)
  (dry_run : bool) (w : World) (st st_o st1 st2 : State)
  (orders : list Json) (e : exn) :
  get_shipped_orders fuel date (store_id w) w st = (Ret orders, st_o) ->
  to_lookup_from 0 (parse_orders orders) <> [] ->
  start w (before_start (parse_orders orders) st_o) = (Raise e, st1) ->
  is_Exception e = true ->
  close w (record_event (ELog (GpxLookupFailed e)) st1) = (Ret tt, st2) ->
  run fuel (Some date) dry_run w st =
  run_publish (parse_orders orders) None date dry_run w st2.
Proof.
  intros Hget Hl Hstart Hexc Hclose.
  destruct (@enrich_with_gpx_start_fails _ _ _ _ _ Hl Hstart Hexc)
    as (_ & _ & He).
  specialize (He st2 Hclose).
  unfold run. erewrite bind_returned by reflexivity.
  erewrite bind_returned by reflexivity.
  erewrite bind_returned by exact Hget.
  destruct orders as [|o orders]; [now elim Hl|].
  destruct (parse_orders (o :: orders)) as [|r records]; [now elim Hl|].
  erewrite bind_returned by exact He. reflexivity.
Qed.

(** C4, as the claim words it, fails: with a console that cannot be
    started the run does not abort.  It logs the failed lookup phase,
    closes the scraper, then builds the payload, uploads it to the document
    store and ends normally, having skipped only the console update. *)
Lemma run_survives_auth_failure :
  fst (start dead_console_world
         (before_start (parse_orders [order_1007])
            (snd (get_shipped_orders 5 the_date 42 dead_console_world
                    initial_state))))
  = Raise PlaywrightError
  /\ fst (run 5 (Some the_date) false dead_console_world initial_state)
     = Ret tt
  /\ trace (snd (run 5 (Some the_date) false dead_console_world
                   initial_state))
     = [ EGet (GetShipments the_date 42 100 1);
         EGet (GetOrder 7);
         EPage PwStart;
         ELog (GpxLookupFailed PlaywrightError);
         EClose;
         EFs (FsTempFile "shopify_shipment_" ".csv");
         EFs (FsWrite "shopify_shipment_0.csv"
                (run_rows (parse_orders [order_1007])));
         EGoogleAuth;
         EFs (FsTempFile EmptyString ".csv");
         EFs (FsWrite "2.csv" (sheet_rows (parse_orders [order_1007])));
         EDriveCreate "Shopify Shipment - 2.26.26.csv"
           (sheet_rows (parse_orders [order_1007]));
         EFs (FsUnlink "2.csv");
         ELog ScraperNotAvailable;
         EFs (FsUnlink "shopify_shipment_0.csv") ].
Proof. repeat split; vm_compute; reflexivity. Qed.

(** C4 (amended): when [start] raises an exception, no lookup is
    performed: [enrich_with_gpx] logs the failure, enters [close] once and,
    unless closing raises, returns the records unchanged with no scraper.
    The run is not aborted: it goes on to the publish phase with those
    records, which never touches the console and, in a live run whose file
    and document-store calls succeed, writes the payload, uploads it to the
    document store and ends normally with the warning that the console
    update was skipped. *)
Theorem auth_failure_skips_lookups_only :
  (forall records w st st1 e,
      to_lookup_from 0 records <> [] ->
      start w (before_start records st) = (Raise e, st1) ->
      is_Exception e = true ->
      (exists before after,
          trace (snd (enrich_with_gpx records w st)) =
          trace st ++ before ++ ELog (GpxLookupFailed e) :: EClose :: after
          /\ forallb is_quiet before = true
          /\ forallb is_quiet after = true)
      /\ (forall enriched,
            fst (enrich_with_gpx records w st) = Ret enriched ->
            enriched = (records, None))
      /\ (forall st2,
            close w (record_event (ELog (GpxLookupFailed e)) st1)
            = (Ret tt, st2) ->
            enrich_with_gpx records w st = (Ret (records, None), st2)))
  /\ (forall fuel date dry_run w st st_o st1 st2 orders e,
        get_shipped_orders fuel date (store_id w) w st = (Ret orders, st_o) ->
        to_lookup_from 0 (parse_orders orders) <> [] ->
        start w (before_start (parse_orders orders) st_o) = (Raise e, st1) ->
        is_Exception e = true ->
        close w (record_event (ELog (GpxLookupFailed e)) st1) = (Ret tt, st2) ->
        run fuel (Some date) dry_run w st =
        run_publish (parse_orders orders) None date dry_run w st2
        /\ console_idle_since st2 (snd (run fuel (Some date) dry_run w st))
        /\ (dry_run = false ->
            (forall k, k < 6 -> fs_answers w (fs_calls st2 + k) = true) ->
            token_exists w = true ->
            (forall k, k < 2 ->
               exists t, google_answers w (google_calls st2 + k) = Returns t) ->
            exists st',
              run fuel (Some date) dry_run w st = (Ret tt, st')
              /\ trace st' =
                 trace st2
                 ++ publish_without_session (parse_orders orders) date st2)).
Proof.
  split.
  - intros records w st st1 e. apply enrich_with_gpx_start_fails.
  - intros fuel date dry_run w st st_o st1 st2 orders e
           Hget Hl Hstart Hexc Hclose.
    pose proof (@run_continues_without_session _ _ dry_run _ _ _ _ _ _ _
                  Hget Hl Hstart Hexc Hclose)
      as Hrun.
    rewrite Hrun. split; [reflexivity|]. split.
    + apply run_publish_console_idle. exists []. now rewrite app_nil_r.
    + intros -> Hfs Htok Hg. now apply run_publish_without_session.
Qed.

Lemma auth_failure_skips_lookups_only_witness :
  fst (enrich_with_gpx (parse_orders [order_1007]) dead_console_world
         initial_state)
  = Ret (parse_orders [order_1007], None)
  /\ fst (run 5 (Some the_date) false dead_console_world initial_state)
     = Ret tt.
Proof.
  destruct auth_failure_skips_lookups_only as [HA HB].
  set (w := dead_console_world).
  set (recs := parse_orders [order_1007]).
  split.
  - set (st1 := snd (start w (before_start recs initial_state))).
    destruct (HA recs w initial_state st1 PlaywrightError) as (_ & _ & H3).
    + vm_compute. discriminate.
    + vm_compute. reflexivity.
    + reflexivity.
    + set (st2 := snd (close w (record_event
                                 (ELog (GpxLookupFailed PlaywrightError)) st1))).
      rewrite (H3 st2); [reflexivity|]. vm_compute. reflexivity.
  - set (st_o := snd (get_shipped_orders 5 the_date (store_id w) w
                        initial_state)).
    set (st1 := snd (start w (before_start recs st_o))).
    set (st2 := snd (close w (record_event
                               (ELog (GpxLookupFailed PlaywrightError)) st1))).
    destruct (HB 5 the_date false w initial_state st_o st1 st2
                 [order_1007] PlaywrightError) as (_ & _ & H3).
    + vm_compute. reflexivity.
    + vm_compute. discriminate.
    + vm_compute. reflexivity.
    + reflexivity.
    + vm_compute. reflexivity.
    + destruct H3 as (st' & Hrun & _).
      * reflexivity.
      * intros k Hk. reflexivity.
      * reflexivity.
      * intros k Hk. exists "file-1". reflexivity.
      * now rewrite Hrun.
Defined.

(** ** The session when a file-system call fails *)

(** C5, at failing inputs: the lookups have run and the session is open
    when a file-system call of [run] fails outside its [try]/[finally] -
    the copy of the dry-run CSV (file-system call number 3) in a dry run,
    the creation of the temporary CSV (call number 1) in a live run.  The
    exception leaves [run] and [close] was never entered, whereas the same
    runs without the failure enter it exactly once. *)
Theorem run_leaves_session_open_on_file_error :
  (fst (run 5 (Some the_date) true (disk_fails_at 3) initial_state)
   = Raise OSError
   /\ existsb is_lookup_step
        (trace (snd (run 5 (Some the_date) true (disk_fails_at 3)
                       initial_state))) = true
   /\ close_count
        (trace (snd (run 5 (Some the_date) true (disk_fails_at 3)
                       initial_state))) = 0)
  /\ (fst (run 5 (Some the_date) false (disk_fails_at 1) initial_state)
      = Raise OSError
      /\ existsb is_lookup_step
           (trace (snd (run 5 (Some the_date) false (disk_fails_at 1)
                          initial_state))) = true
      /\ close_count
           (trace (snd (run 5 (Some the_date) false (disk_fails_at 1)
                          initial_state))) = 0)
  /\ (fst (run 5 (Some the_date) true (disk_fails_at 99) initial_state)
      = Ret tt
      /\ close_count
           (trace (snd (run 5 (Some the_date) true (disk_fails_at 99)
                          initial_state))) = 1)
  /\ (fst (run 5 (Some the_date) false (disk_fails_at 99) initial_state)
      = Ret tt
      /\ close_count
           (trace (snd (run 5 (Some the_date) false (disk_fails_at 99)
                          initial_state))) = 1).
Proof. repeat split; vm_compute; reflexivity. Qed.


(** ** The scenarios of the specification, computed *)

(** Two serials on two lines, two line items: one record per serial, each
    with the SKU at its position. *)
Example two_serials_two_items :
  map (fun r => (serial r, sku r))
      (parse_orders
         [mkJson None None (Some "1001") (Some "263384
274341") (Some [mkItem (Some "A"); mkItem (Some "B")])])
  = [("263384", "A"); ("274341", "B")].
Proof. reflexivity. Qed.

(** Empty notes, one line item: one sentinel record. *)
Example empty_notes_one_item :
  map (fun r => (serial r, sku r, raw_notes r))
      (parse_orders
         [mkJson None None (Some "1002") (Some EmptyString)
                 (Some [mkItem (Some "C")])])
  = [("NOT FOUND", "C", EmptyString)].
Proof. reflexivity. Qed.

(** More serials than line items: the first SKU is reused; absent notes
    and several items: the SKUs are joined. *)
Example more_serials_than_items :
  map (fun r => (serial r, sku r))
      (parse_orders
         [mkJson None None (Some "1003") (Some "12345, 1234567 7654321")
                 (Some [mkItem (Some "A"); mkItem None]);
          mkJson None None None None
                 (Some [mkItem (Some "C"); mkItem (Some "D")])])
  = [("12345", "A"); ("1234567", EmptyString); ("7654321", "A");
     ("NOT FOUND", "C, D")].
Proof. reflexivity. Qed.

Example sheet_date_2026_02_26 :
  format_sheet_date (mkDate 2026 2 26) = "2.26.26".
Proof. reflexivity. Qed.

(** A phone number, digits glued to letters or to an underscore, and runs
    of 4 or 8 digits give no serial. *)
Example serials_need_word_boundaries :
  extract_serial_numbers
    "tel 123456789012, SN12345 99999_ 1234 12345678; ok: 55555 (1234567)"
  = ["55555"; "1234567"].
Proof. reflexivity. Qed.

Lemma span_all (cls : ascii -> bool) (s : list ascii) :
  forallb cls (firstn (span cls s) s) = true.
Proof.
  pose proof (prefix_in_class cls s (span cls s)) as P.
  rewrite Nat.leb_refl in P. now apply andb_prop in P as [_ P].
Qed.

Lemma serial_here_token (prev : option ascii) (s : list ascii) :
  serial_here prev s = true ->
  digits_between 5 7 (firstn (span is_digit s) s).
Proof.
  unfold serial_here, digits_between. intros H.
  apply andb_prop in H as [H _]. apply andb_prop in H as [H _].
  apply andb_prop in H as [H5 H7].
  apply Nat.leb_le in H5. apply Nat.leb_le in H7.
  split; [apply span_all|].
  rewrite length_firstn. pose proof (span_le is_digit s). lia.
Qed.

Lemma runs_from_tokens (s : list ascii) :
  forall prev, Forall (digits_between 5 7) (runs_from non_word prev s).
Proof.
  induction s as [|c s IH]; intros prev; [constructor|].
  rewrite runs_from_cons, runs_here_non_word. apply Forall_app. split; [|apply IH].
  destruct (serial_here prev (c :: s)) eqn:E; [|constructor].
  constructor; [now apply (serial_here_token prev) | constructor].
Qed.

Lemma extract_serial_numbers_runs (notes : string) :
  extract_serial_numbers notes = bounded_runs non_word notes.
Proof.
  unfold extract_serial_numbers, bounded_runs, re_findall.
  destruct notes as [|c notes]; [reflexivity|]. cbn [str_empty].
  rewrite findall_serial_runs; [| lia | intros; lia].
  rewrite map_map. reflexivity.
Qed.

(** X1: every serial [extract_serial_numbers] returns from notes of code
    points below 128 is made of 5 to 7 digits 0 to 9; so it is never empty
    and never the sentinel that [parse_orders] writes for an order without
    a serial. *)
Theorem extract_serial_numbers_digit_tokens :
  forall notes : string,
    ascii_text notes = true ->
    Forall (fun sn =>
              digits_between 5 7 (list_ascii_of_string sn)
              /\ sn <> "NOT FOUND" /\ sn <> EmptyString)
           (extract_serial_numbers notes).
Proof.
  intros notes _. rewrite extract_serial_numbers_runs. unfold bounded_runs.
  apply Forall_map.
  apply (Forall_impl _ (P := digits_between 5 7)); [|apply runs_from_tokens].
  intros t Ht. rewrite list_ascii_of_string_of_list_ascii.
  split; [exact Ht|]. destruct Ht as [Hd Hl]. split.
  - intros E. apply (f_equal list_ascii_of_string) in E.
    rewrite list_ascii_of_string_of_list_ascii in E. subst t. discriminate.
  - intros E. apply (f_equal list_ascii_of_string) in E.
    rewrite list_ascii_of_string_of_list_ascii in E. subst t. simpl in Hl. lia.
Qed.

Lemma extract_serial_numbers_digit_tokens_witness :
  Forall (fun sn =>
            digits_between 5 7 (list_ascii_of_string sn)
            /\ sn <> "NOT FOUND" /\ sn <> EmptyString)
         (extract_serial_numbers "SN 263384, 12345; tel 123456789012").
Proof.
  apply (extract_serial_numbers_digit_tokens
           "SN 263384, 12345; tel 123456789012").
  reflexivity.
Defined.

Lemma non_word_not_digit (c : ascii) : non_word c = true -> is_digit c = false.
Proof.
  unfold non_word. intros H. destruct (is_digit c) eqn:D; [|reflexivity].
  rewrite (digit_is_word _ D) in H. discriminate.
Qed.

(** A separator holds no token and leaves a non-word character behind. *)
Lemma runs_from_separator (sep : list ascii) :
  forall (prev : option ascii) (x : list ascii),
    forallb non_word sep = true ->
    is_word_opt prev = false \/ sep <> [] ->
    exists p, is_word_opt p = false
              /\ runs_from non_word prev (sep ++ x) = runs_from non_word p x.
Proof.
  induction sep as [|c sep IH]; intros prev x Hs Hor.
  - exists prev. split; [|reflexivity]. destruct Hor as [H|H]; [exact H|congruence].
  - cbn [forallb] in Hs. apply andb_prop in Hs as [Hc Hs].
    destruct (IH (Some c) x Hs) as (p & Hp & Hr).
    { left. cbn [is_word_opt]. unfold non_word in Hc.
      now destruct (is_word c). }
    exists p. split; [exact Hp|].
    cbn [app]. rewrite runs_from_cons, runs_here_non_word, Hr.
    unfold serial_here. cbn [span]. rewrite (non_word_not_digit _ Hc).
    reflexivity.
Qed.

(** Inside a token, after a word character, no token starts. *)
Lemma runs_from_inside (tok : list ascii) :
  forall (prev : option ascii) (x : list ascii),
    forallb is_digit tok = true ->
    is_word_opt prev = true ->
    exists p, is_word_opt p = true
              /\ runs_from non_word prev (tok ++ x) = runs_from non_word p x.
Proof.
  induction tok as [|c tok IH]; intros prev x Hd Hp.
  - exists prev. split; [exact Hp | reflexivity].
  - cbn [forallb] in Hd. apply andb_prop in Hd as [Dc Hd].
    destruct (IH (Some c) x Hd) as (p & Hw & Hr).
    { cbn [is_word_opt]. now apply digit_is_word. }
    exists p. split; [exact Hw|].
    cbn [app]. rewrite runs_from_cons, runs_here_non_word, Hr.
    unfold serial_here. rewrite Hp. cbn [negb]. now rewrite andb_false_r.
Qed.

Lemma span_token (tok x : list ascii) :
  forallb is_digit tok = true ->
  match x with [] => True | c :: _ => is_digit c = false end ->
  span is_digit (tok ++ x) = length tok.
Proof.
  intros Hd Hx. induction tok as [|c tok IH]; cbn [app span length].
  - destruct x as [|c x]; [reflexivity|]. cbn [span]. now rewrite Hx.
  - cbn [forallb] in Hd. apply andb_prop in Hd as [Dc Hd]. rewrite Dc.
    now rewrite IH.
Qed.

Lemma runs_from_separated (parts : list (list ascii * list ascii)) :
  forall prev : option ascii,
    is_word_opt prev = false ->
    well_separated parts = true ->
    runs_from non_word prev (separated parts) = map fst parts.
Proof.
  induction parts as [|[tok sep] rest IH]; intros prev Hp Hw; [reflexivity|].
  cbn [well_separated] in Hw.
  apply andb_prop in Hw as [Hw Hrest]. apply andb_prop in Hw as [Hw Hne].
  apply andb_prop in Hw as [Hw Hsep]. apply andb_prop in Hw as [Hw H7].
  apply andb_prop in Hw as [Hd H5].
  apply Nat.leb_le in H5. apply Nat.leb_le in H7.
  cbn [separated map fst].
  set (x := sep ++ separated rest).
  assert (Hx : match x with [] => True | c :: _ => non_word c = true end).
  { unfold x. destruct sep as [|c sep]; cbn [app].
    - cbn in Hne. rewrite orb_false_r in Hne.
      destruct rest; [exact I | discriminate].
    - cbn [forallb] in Hsep. now apply andb_prop in Hsep as [Hc _]. }
  assert (Hspan : span is_digit (tok ++ x) = length tok).
  { apply span_token; [exact Hd|]. destruct x as [|c x']; [exact I|].
    now apply non_word_not_digit. }
  destruct tok as [|c tok]; [simpl in H5; lia|].
  cbn [app]. rewrite runs_from_cons, runs_here_non_word.
  assert (Hhere : serial_here prev (c :: tok ++ x) = true).
  { unfold serial_here. change (c :: tok ++ x) with ((c :: tok) ++ x).
    rewrite Hspan, Hp. cbn [negb]. rewrite andb_true_r.
    apply andb_true_intro. split.
    - apply andb_true_intro. split; apply Nat.leb_le; assumption.
    - rewrite nth_error_app2 by lia. rewrite Nat.sub_diag.
      destruct x as [|d x']; [reflexivity|]. cbn [nth_error is_word_opt].
      unfold non_word in Hx. now rewrite Hx. }
  rewrite Hhere. change (c :: tok ++ x) with ((c :: tok) ++ x).
  rewrite Hspan, firstn_app, Nat.sub_diag, firstn_all, app_nil_r.
  cbn [app]. f_equal. cbn [forallb] in Hd. apply andb_prop in Hd as [Dc Hd].
  destruct (@runs_from_inside tok (Some c) x Hd) as (p & Hpw & Hr).
  { cbn [is_word_opt]. now apply digit_is_word. }
  rewrite Hr. unfold x. destruct sep as [|d sep].
  - cbn in Hne. rewrite orb_false_r in Hne.
    destruct rest; [reflexivity | discriminate].
  - destruct (@runs_from_separator (d :: sep) p (separated rest) Hsep)
      as (q & Hq & Hr2); [right; discriminate|].
    rewrite Hr2. now apply IH.
Qed.

(** X2: serials written one after the other are read back as they were
    written: in a text of code points below 128, for tokens of 5 to 7
    digits, each followed by a separator made of non-word characters
    (commas, blanks, newlines, ...) that is not empty unless it ends the
    text, and after any leading non-word characters,
    [extract_serial_numbers] returns exactly the tokens, in order. *)
Theorem extract_serial_numbers_of_separated :
  forall (lead : list ascii) (parts : list (list ascii * list ascii)),
    forallb is_ascii (lead ++ separated parts) = true ->
    forallb non_word lead = true ->
    well_separated parts = true ->
    extract_serial_numbers (string_of_list_ascii (lead ++ separated parts))
    = map (fun part => string_of_list_ascii (fst part)) parts.
Proof.
  intros lead parts _ Hl Hw. rewrite extract_serial_numbers_runs.
  unfold bounded_runs. rewrite list_ascii_of_string_of_list_ascii.
  destruct (@runs_from_separator lead None (separated parts) Hl)
    as (p & Hp & Hr); [now left|].
  rewrite Hr, (@runs_from_separated parts p Hp Hw). now rewrite map_map.
Qed.

Lemma extract_serial_numbers_of_separated_witness :
  extract_serial_numbers
    (String "010"%char "263384, 263385 / 12345")
  = ["263384"; "263385"; "12345"].
Proof.
  exact (@extract_serial_numbers_of_separated
           [ "010"%char ]
           [ (chars "263384", chars ", ");
             (chars "263385", chars " / ");
             (chars "12345", []) ]
           eq_refl eq_refl eq_refl).
Defined.

Lemma str_prefix_length (n : nat) (s : string) :
  String.length (str_prefix n s) <= n.
Proof.
  unfold str_prefix. revert s. induction n as [|n IH]; intros [|c s]; simpl;
    try lia. specialize (IH s). lia.
Qed.

Lemma serial_records_fresh (skus : list string) (num : string)
  (serials : list string) :
  forall i,
    Forall (fun r => fresh_record r /\ raw_notes r = EmptyString
                     /\ order_number r = num)
           (serial_records skus num i serials).
Proof.
  induction serials as [|sn rest IH]; intros i; cbn [serial_records];
    constructor; [|apply IH].
  unfold fresh_record. cbn. repeat split.
Qed.

Lemma parse_orders_single (o : Json) :
  parse_orders [o] =
  match extract_serial_numbers (notes_of o) with
  | [] =>
      [mkRecord (String.concat ", " (skus_of o)) "NOT FOUND" EmptyString
                EmptyString EmptyString "shopify" "unassigned"
                (dict_get (orderNumber o) EmptyString)
                (str_prefix 200 (notes_of o))]
  | serials =>
      serial_records (skus_of o) (dict_get (orderNumber o) EmptyString)
                     0 serials
  end.
Proof.
  unfold parse_orders, notes_of, skus_of. cbn [parse_orders_loop].
  now destruct (extract_serial_numbers _).
Qed.

Lemma parse_orders_flat (orders : list Json) :
  parse_orders orders = flat_map (fun o => parse_orders [o]) orders.
Proof.
  induction orders as [|o orders IH]; [reflexivity|].
  rewrite parse_orders_cons, IH. reflexivity.
Qed.

(** X3: every record [parse_orders] builds is un-enriched: imei, iccid
    and sim_provider are empty, the retailer is shopify and the status is
    unassigned; its order number is that of one of the orders (empty when
    the order has none); the raw notes are kept on sentinel records only and
    never exceed 200 characters. *)
Theorem parse_orders_records_start_blank :
  forall orders : list Json,
    Forall (fun r =>
              fresh_record r
              /\ (serial r <> "NOT FOUND" -> raw_notes r = EmptyString)
              /\ String.length (raw_notes r) <= 200
              /\ exists o, In o orders
                           /\ order_number r
                              = dict_get (orderNumber o) EmptyString)
           (parse_orders orders).
Proof.
  intros orders. rewrite parse_orders_flat. apply Forall_flat_map.
  apply Forall_forall. intros o Ho. rewrite parse_orders_single.
  destruct (extract_serial_numbers (notes_of o)) as [|sn sns].
  - constructor; [|constructor]. cbn. split; [repeat split|].
    split; [congruence|]. split; [apply str_prefix_length|].
    exists o. split; [exact Ho | reflexivity].
  - apply (Forall_impl _ (P := fun r => fresh_record r
                                /\ raw_notes r = EmptyString
                                /\ order_number r
                                   = dict_get (orderNumber o) EmptyString));
      [|apply serial_records_fresh].
    intros r (Hf & Hn & Hnum). split; [exact Hf|]. split; [auto|].
    split; [rewrite Hn; simpl; lia|]. exists o. split; assumption.
Qed.

Lemma serial_records_skus (skus : list string) (num : string)
  (serials : list string) :
  forall i,
    map sku (serial_records skus num i serials)
    = map (sku_for skus) (seq i (length serials)).
Proof.
  induction serials as [|sn rest IH]; intros i; cbn; [reflexivity|].
  now rewrite IH.
Qed.

Lemma sku_for_nth (skus : list string) (i : nat) :
  sku_for skus i =
  match nth_error skus i with
  | Some k => k
  | None => hd EmptyString skus
  end.
Proof.
  unfold sku_for. destruct (Nat.ltb_spec i (length skus)) as [L|L].
  - destruct (nth_error skus i) eqn:E.
    + now apply nth_error_nth.
    + apply nth_error_None in E. lia.
  - apply nth_error_None in L. rewrite L. now destruct skus.
Qed.

Lemma map_nth_seq (A : Type) (d : A) (l : list A) (n : nat) :
  n <= length l -> map (fun i => nth i l d) (seq 0 n) = firstn n l.
Proof.
  revert n. induction l as [|x l IH]; intros [|n] Hn; cbn in *; try lia;
    try reflexivity.
  f_equal. rewrite <- seq_shift, map_map. apply IH. lia.
Qed.

(** X4: the records of an order with serials take their SKU by position:
    the i-th serial gets the SKU of the i-th line item, and a serial beyond
    the last line item gets the SKU of the first one.  So with at least as
    many line items as serials the SKUs are those of the first items in
    order, with one line item every record carries its SKU, and with no line
    item the SKU is empty. *)
Theorem parse_orders_sku_by_position :
  forall (o : Json) (sn : string) (sns : list string),
    extract_serial_numbers (notes_of o) = sn :: sns ->
    let n := length (sn :: sns) in
    map sku (parse_orders [o])
    = map (fun i => match nth_error (skus_of o) i with
                    | Some k => k
                    | None => hd EmptyString (skus_of o)
                    end) (seq 0 n)
    /\ (n <= length (skus_of o) ->
        map sku (parse_orders [o]) = firstn n (skus_of o))
    /\ (forall k, skus_of o = [k] ->
                  map sku (parse_orders [o]) = repeat k n)
    /\ (skus_of o = [] ->
        map sku (parse_orders [o]) = repeat EmptyString n).
Proof.
  intros o sn sns E n. rewrite parse_orders_single, E.
  rewrite serial_records_skus. fold n.
  assert (Hgen : map (sku_for (skus_of o)) (seq 0 n)
                 = map (fun i => match nth_error (skus_of o) i with
                                 | Some k => k
                                 | None => hd EmptyString (skus_of o)
                                 end) (seq 0 n))
    by (apply map_ext; intros i; apply sku_for_nth).
  split; [exact Hgen|]. split; [|split].
  - intros Hn. rewrite <- (map_nth_seq EmptyString (skus_of o) Hn).
    apply map_ext_in. intros i Hi. apply in_seq in Hi. unfold sku_for.
    destruct (Nat.ltb_spec i (length (skus_of o))); [reflexivity|lia].
  - intros k Hk. rewrite Hk. clear. generalize 0 as i.
    induction n as [|n IH]; intros i; cbn [seq map repeat]; [reflexivity|].
    f_equal; [|apply IH]. unfold sku_for. cbn. now destruct i as [|[|i]].
  - intros Hk. rewrite Hk. clear. generalize 0 as i.
    induction n as [|n IH]; intros i; cbn [seq map repeat]; [reflexivity|].
    f_equal. apply IH.
Qed.

Lemma parse_orders_sku_by_position_witness :
  map sku (parse_orders [three_serials_two_items])
  = ["GPX-A"; "GPX-B"; "GPX-A"].
Proof.
  exact (proj1 (@parse_orders_sku_by_position three_serials_two_items
                  "263384" ["263385"; "263386"] eq_refl)).
Defined.

(** X5: [_get] retries after a 429 answer whose Retry-After header can be
    waited for, and after nothing else.  The answers it consumes are some
    such 429 responses, at most five, each followed by the logged wait;
    after five of them it raises the rate-limit exception; otherwise the
    next answer decides at once: a failing call raises, a 429 whose header
    is no whole number raises ValueError before anything is logged, a 429
    whose wait [time.sleep] refuses raises once the warning is logged, a
    status [raise_for_status] rejects or a body that does not decode raise,
    and anything else returns the decoded body. *)
Theorem get_retries_only_rate_limits :
  (forall (req : Request) (w : World) (st : State),
      exists rs : list Response,
        length rs <= 5
        /\ (forall j r, nth_error rs j = Some r ->
              status_code r = 429 /\ waitable r = true
              /\ http_answers w (http_calls st + j) = Returns r)
        /\ (if length rs =? 5
            then _get req w st
                 = (Raise RateLimitExceeded, waited req (map wait_of rs) st)
            else retried (http_answers w (http_calls st + length rs)) = false
                 /\ _get req w st
                    = (fst (decided
                              (http_answers w (http_calls st + length rs))),
                       record_events
                         (snd (decided
                                 (http_answers w (http_calls st + length rs))))
                         (sent req (waited req (map wait_of rs) st)))))
  /\ _get GetStores (http_world dated_429) initial_state
     = (Raise ValueError, sent GetStores initial_state)
  /\ _get GetStores (http_world negative_429) initial_state
     = (Raise ValueError,
        record_event (ELog (RateLimitWait (-1)))
                     (sent GetStores initial_state)).
Proof.
  split; [|split; reflexivity].
  intros req w. unfold _get.
  enough (Hn : forall n st,
             exists rs : list Response,
               length rs <= n
               /\ (forall j r, nth_error rs j = Some r ->
                     status_code r = 429 /\ waitable r = true
                     /\ http_answers w (http_calls st + j) = Returns r)
               /\ (if length rs =? n
                   then _get_attempts n req w st
                        = (Raise RateLimitExceeded,
                           waited req (map wait_of rs) st)
                   else retried (http_answers w (http_calls st + length rs))
                        = false
                        /\ _get_attempts n req w st
                           = (fst (decided
                                     (http_answers w
                                        (http_calls st + length rs))),
                              record_events
                                (snd (decided
                                        (http_answers w
                                           (http_calls st + length rs))))
                                (sent req (waited req (map wait_of rs) st)))))
    by (intros st; apply (Hn 5)).
  induction n as [|n IH]; intros st.
  - exists []. split; [simpl; lia|]. split; [intros [|j] r H; discriminate|].
    reflexivity.
  - rewrite get_attempts_step. cbn zeta.
    destruct (http_answers w (http_calls st)) as [r|] eqn:Ea.
    + destruct (status_code r =? 429) eqn:E429;
        [destruct (waitable r) eqn:Ew|].
      * destruct (IH (rate_limited req (wait_of r) st))
          as (rs & Hl & Hrs & Hout).
        exists (r :: rs). split; [simpl; lia|]. split.
        -- intros [|j] r' Hj; cbn in Hj.
           ++ injection Hj as <-. rewrite Nat.add_0_r.
              split; [now apply Nat.eqb_eq|]. split; [exact Ew | exact Ea].
           ++ destruct (Hrs j r' Hj) as (H1 & H2 & H3).
              split; [exact H1|]. split; [exact H2|].
              rewrite http_calls_rate_limited in H3.
              now replace (http_calls st + S j) with (S (http_calls st) + j)
                by lia.
        -- cbn [length map]. change (S (length rs) =? S n)
             with (length rs =? n).
           rewrite http_calls_rate_limited in Hout.
           replace (http_calls st + S (length rs))
             with (S (http_calls st) + length rs) by lia.
           exact Hout.
      * exists []. split; [simpl; lia|].
        split; [intros [|j] r' H; discriminate|].
        cbn [length Nat.eqb map waited fold_left]. rewrite Nat.add_0_r, Ea.
        cbn [retried decided]. rewrite E429, Ew. split; reflexivity.
      * exists []. split; [simpl; lia|].
        split; [intros [|j] r' H; discriminate|].
        cbn [length Nat.eqb map waited fold_left]. rewrite Nat.add_0_r, Ea.
        cbn [retried decided]. rewrite E429. split; [reflexivity|].
        destruct (is_error_status (status_code r)); [reflexivity|].
        now destruct (json_body r).
    + exists []. split; [simpl; lia|].
      split; [intros [|j] r' H; discriminate|].
      cbn [length Nat.eqb map waited fold_left]. rewrite Nat.add_0_r, Ea.
      split; reflexivity.
Qed.

(** ** Events recorded since a state *)

Lemma events_since_refl (P : Event -> bool) (st : State) : events_since P st st.
Proof. exists []. now rewrite app_nil_r. Qed.

Lemma events_since_stable (P : Event -> bool) (st0 : State) :
  stable (fun e => P e = true) (events_since P st0).
Proof.
  constructor; try (intros; assumption).
  intros e st He (evs & Ht & Hp). exists (evs ++ [e]).
  cbn [record_event with_trace trace].
  rewrite Ht, app_assoc, forallb_app, Hp. cbn. now rewrite He.
Qed.

Lemma events_since_trans (P : Event -> bool) (st0 st1 st2 : State) :
  events_since P st0 st1 -> events_since P st1 st2 -> events_since P st0 st2.
Proof.
  intros (e1 & H1 & P1) (e2 & H2 & P2). exists (e1 ++ e2).
  rewrite H2, H1, app_assoc, forallb_app, P1, P2. now split.
Qed.

Lemma events_since_weaken (P Q : Event -> bool) (st0 st : State) :
  (forall e, P e = true -> Q e = true) ->
  events_since P st0 st -> events_since Q st0 st.
Proof.
  intros H (evs & Ht & Hp). exists evs. split; [exact Ht|].
  rewrite forallb_forall in *. auto.
Qed.

(** Steps that only touch the result dict or the record dicts. *)
Lemma since_set_result (P : Event -> bool) (st0 : State) (r : LookupResult) :
  inv (events_since P st0) (set_result r).
Proof. intros w st H. exact H. Qed.

Lemma since_update_result (P : Event -> bool) (st0 : State)
  (f : LookupResult -> LookupResult) :
  inv (events_since P st0) (update_result f).
Proof. intros w st H. exact H. Qed.

Lemma since_set_records (P : Event -> bool) (st0 : State)
  (rs : list EnrichmentRecord) :
  inv (events_since P st0) (set_records rs).
Proof. intros w st H. exact H. Qed.

Ltac since_store :=
  first [ apply since_set_result | apply since_update_result
        | apply since_set_records ].

(** Walks through a computation whose events all satisfy the predicate of
    the goal. *)
Ltac since_walk known :=
  match goal with
  | |- inv (events_since ?P ?st0) _ =>
      inv_walk (events_since_stable P st0) ltac:(reflexivity)
               ltac:(first [since_store | known])
  end.

(** *** The listing *)

Lemma since_get_listing (st0 : State) (date : Date) (sid size page : nat) :
  inv (events_since is_listing_event st0)
      (_get (GetShipments date sid size page)).
Proof.
  unfold _get. generalize 5. intros n.
  induction n as [|n IH]; cbn [_get_attempts];
    unfold raise_for_status, resp_json; since_walk ltac:(exact IH).
Qed.

Lemma since_shipments_pages (st0 : State) (fuel : nat) (date : Date)
  (sid : nat) :
  forall page acc,
    inv (events_since is_listing_event st0)
        (shipments_pages fuel date sid page acc).
Proof.
  induction fuel as [|fuel IH]; intros page acc; cbn [shipments_pages];
    since_walk ltac:(first [apply since_get_listing | apply IH]).
Qed.

Lemma fetch_orders_returns (w : World) (ids : list nat) (acc : list Json)
  (st : State) :
  exists orders st', fetch_orders ids acc w st = (Ret orders, st').
Proof.
  destruct (fetch_orders_chain w ids acc st) as (outs & st' & _ & H).
  eauto.
Qed.

(** [get_shipped_orders] by the outcome of the paging. *)
Lemma get_shipped_orders_eval (fuel : nat) (date : Date) (sid : nat)
  (w : World) (st : State) :
  get_shipped_orders fuel date sid w st =
  match shipments_pages fuel date sid 1 [] w st with
  | (Ret [], st1) => (Ret [], st1)
  | (Ret all_shipments, st1) =>
      fetch_orders (set_list w (flat_map order_id_if_set all_shipments)) []
                   w st1
  | (Raise e, st1) => (Raise e, st1)
  | (Fuel, st1) => (Fuel, st1)
  end.
Proof.
  unfold get_shipped_orders, bind at 1.
  destruct (shipments_pages fuel date sid 1 [] w st) as [[[|s all]|e|] st1];
    reflexivity.
Qed.

Lemma shipments_pages_raises (w : World) (fuel : nat) (date : Date)
  (sid : nat) :
  forall page acc st e,
    fst (shipments_pages fuel date sid page acc w st) = Raise e ->
    is_Exception e = true.
Proof.
  induction fuel as [|fuel IH]; intros page acc st e; [discriminate|].
  cbn [shipments_pages]. unfold bind at 1, _get.
  destruct (get_attempts_outcome (GetShipments date sid 100 page) w 5 st)
    as [(j & Hj) | (e' & He & Hexc)];
    destruct (_get_attempts 5 _ w st) as [[data|e0|] st1];
    cbn [fst] in *; try discriminate.
  - destruct (dict_get (pages data) 1 <=? page); [discriminate | apply IH].
  - injection He as ->. intros [= <-]. exact Hexc.
Qed.

(** X6: [get_shipped_orders] raises exactly when paging through the
    listing raises, with the same exception and in the same state: the
    listing has no handler, so the shipments of the pages already read are
    dropped; by then only listing requests and rate-limit waits were
    recorded - no order was requested - and the exception is an
    [Exception]. *)
Theorem get_shipped_orders_fails_with_listing :
  forall (fuel : nat) (date : Date) (sid : nat) (w : World) (st st1 : State)
         (e : exn),
    (get_shipped_orders fuel date sid w st = (Raise e, st1)
     <-> shipments_pages fuel date sid 1 [] w st = (Raise e, st1))
    /\ (get_shipped_orders fuel date sid w st = (Raise e, st1) ->
        events_since is_listing_event st st1 /\ is_Exception e = true).
Proof.
  intros fuel date sid w st st1 e.
  assert (Hiff : get_shipped_orders fuel date sid w st = (Raise e, st1)
                 <-> shipments_pages fuel date sid 1 [] w st = (Raise e, st1)).
  { rewrite get_shipped_orders_eval.
    destruct (shipments_pages fuel date sid 1 [] w st)
      as [[[|s all]|e'|] st'] eqn:E.
    - split; discriminate.
    - destruct (fetch_orders_returns w
                  (set_list w (flat_map order_id_if_set (s :: all))) [] st')
        as (orders & st'' & ->).
      split; discriminate.
    - split; intros [= -> ->]; reflexivity.
    - split; discriminate. }
  split; [exact Hiff|]. intros H. apply Hiff in H. split.
  - pose proof (@since_shipments_pages st fuel date sid 1 [] w st
                  (events_since_refl _ st)) as Hs.
    now rewrite H in Hs.
  - apply (@shipments_pages_raises w fuel date sid 1 [] st). now rewrite H.
Qed.

Lemma in_order_ids (all_shipments : list Shipment) (oid : nat) :
  In oid (flat_map order_id_if_set all_shipments)
  <-> oid <> 0 /\ exists s, In s all_shipments /\ orderId s = Some oid.
Proof.
  rewrite in_flat_map. split.
  - intros (s & Hs & Hin). unfold order_id_if_set in Hin.
    destruct (orderId s) as [[|n]|] eqn:E; cbn in Hin; try contradiction.
    destruct Hin as [<-|[]]. split; [discriminate|]. eauto.
  - intros (Hne & s & Hs & E). exists s. split; [exact Hs|].
    unfold order_id_if_set. rewrite E. destruct oid; [congruence | now left].
Qed.

Lemma fetched_length (outs : list (result Json)) :
  length (fetched outs) <= length outs.
Proof.
  unfold fetched.
  induction outs as [|[j|e|] outs IH]; cbn [flat_map app length]; lia.
Qed.

(** X7: when the listing holds shipments, the orders are fetched one
    after the other over a duplicate-free enumeration of the order IDs of
    the shipments: an ID carried by several shipments is fetched once, and a
    shipment whose orderId is absent or zero contributes nothing; the
    orders returned are those whose fetch succeeded, so at most one per
    distinct ID. *)
Theorem get_shipped_orders_fetches_each_order_once :
  forall (fuel : nat) (date : Date) (sid : nat) (w : World) (st st1 : State)
         (s : Shipment) (more : list Shipment),
    shipments_pages fuel date sid 1 [] w st = (Ret (s :: more), st1) ->
    exists (ids : list nat) (outs : list (result Json)) (st' : State),
      NoDup ids
      /\ (forall oid,
            In oid ids <->
            oid <> 0 /\ exists s', In s' (s :: more) /\ orderId s' = Some oid)
      /\ fetch_chain w st1 ids outs st'
      /\ get_shipped_orders fuel date sid w st = (Ret (fetched outs), st')
      /\ length (fetched outs) <= length ids.
Proof.
  intros fuel date sid w st st1 s more Hpages.
  set (ids := set_list w (flat_map order_id_if_set (s :: more))).
  pose proof (set_list_perm w (flat_map order_id_if_set (s :: more))) as Hperm.
  fold ids in Hperm.
  destruct (fetch_orders_chain w ids [] st1) as (outs & st' & Hchain & Hrun).
  exists ids, outs, st'. split; [|split; [|split; [|split]]].
  - apply (Permutation_NoDup (Permutation_sym Hperm)), NoDup_nodup.
  - intros oid. rewrite <- in_order_ids. split; intros H.
    + apply (Permutation_in _ Hperm) in H. now apply nodup_In in H.
    + apply (Permutation_in _ (Permutation_sym Hperm)). now apply nodup_In.
  - exact Hchain.
  - rewrite get_shipped_orders_eval, Hpages. exact Hrun.
  - destruct (fetch_chain_trace Hchain) as (_ & _ & Hlen & _).
    rewrite <- Hlen. apply fetched_length.
Qed.

Lemma get_shipped_orders_fetches_each_order_once_witness :
  exists (ids : list nat) (outs : list (result Json)) (st' : State),
    NoDup ids
    /\ (forall oid,
          In oid ids <->
          oid <> 0
          /\ exists s', In s' [mkShipment (Some 7); mkShipment (Some 8);
                               mkShipment (Some 7); mkShipment (Some 9);
                               mkShipment None]
                        /\ orderId s' = Some oid)
    /\ fetch_chain (http_world (fun k => mkResponse 200 None (Some (three_pages k))))
         (snd (shipments_pages 3 the_date 42 1 []
                 (http_world (fun k => mkResponse 200 None (Some (three_pages k))))
                 initial_state))
         ids outs st'
    /\ get_shipped_orders 3 the_date 42
         (http_world (fun k => mkResponse 200 None (Some (three_pages k))))
         initial_state
       = (Ret (fetched outs), st')
    /\ length (fetched outs) <= length ids.
Proof.
  apply (@get_shipped_orders_fetches_each_order_once 3 the_date 42
           (http_world (fun k => mkResponse 200 None (Some (three_pages k))))
           initial_state).
  vm_compute. reflexivity.
Defined.

(** [run] by the outcome of [get_shipped_orders]. *)
Lemma run_eval (fuel : nat) (target_date : option Date) (dry_run : bool)
  (w : World) (st : State) :
  run fuel target_date dry_run w st =
  let date := effective_date w target_date in
  match get_shipped_orders fuel date (store_id w) w st with
  | (Ret [], st1) => (Ret tt, record_event (ELog NoShippedOrders) st1)
  | (Ret orders, st1) =>
      match parse_orders orders with
      | [] => (Ret tt, record_event (ELog NoRecords) st1)
      | records =>
          match enrich_with_gpx records w st1 with
          | (Ret enriched, st2) =>
              run_publish (fst enriched) (snd enriched) date dry_run w st2
          | (Raise e, st2) => (Raise e, st2)
          | (Fuel, st2) => (Fuel, st2)
          end
      end
  | (Raise e, st1) => (Raise e, st1)
  | (Fuel, st1) => (Fuel, st1)
  end.
Proof.
  unfold run, effective_date. cbv zeta.
  destruct target_date as [d|]; unfold bind at 1; cbn [ret ask];
    unfold bind at 1; cbn [ask]; unfold bind at 1;
    (destruct (get_shipped_orders _ _ _ w st) as [[[|o orders]|e|] st1];
     [reflexivity | | reflexivity | reflexivity]);
    (destruct (parse_orders (o :: orders)) as [|r records];
     [reflexivity | unfold bind at 1;
      now destruct (enrich_with_gpx (r :: records) w st1) as [[en|e|] st2]]).
Qed.

Lemma flat_map_all_nil (A B : Type) (f : A -> list B) (l : list A) :
  (forall a, In a l -> f a = []) -> flat_map f l = [].
Proof.
  induction l as [|a l IH]; intros H; [reflexivity|]. cbn [flat_map].
  rewrite (H a) by now left. apply IH. intros b Hb. apply H. now right.
Qed.

(** X8: when [get_shipped_orders] returns no order, [run] ends normally
    with the warning that nothing was shipped and does nothing else; in
    particular when the listing, whatever its number of pages, holds no
    shipment, the run consists of the listing requests - for the date given,
    or today's date when none is given - followed by that warning. *)
Theorem run_ends_without_orders :
  (forall fuel target_date dry_run w st st1,
      get_shipped_orders fuel (effective_date w target_date) (store_id w) w st
      = (Ret [], st1) ->
      run fuel target_date dry_run w st
      = (Ret tt, record_event (ELog NoShippedOrders) st1))
  /\ (forall fuel target_date dry_run w st (n : nat) (datas : nat -> Json),
        1 <= n -> n <= fuel ->
        (forall k, k < n ->
           http_answers w (http_calls st + k) = ok_json (datas k)
           /\ pages (datas k) = Some n
           /\ dict_get (shipments (datas k)) [] = []) ->
        exists st',
          run fuel target_date dry_run w st = (Ret tt, st')
          /\ trace st' =
             trace st
             ++ map (fun k => EGet (GetShipments
                                      (effective_date w target_date)
                                      (store_id w) 100 (S k)))
                    (seq 0 n)
             ++ [ELog NoShippedOrders]).
Proof.
  split.
  - intros fuel target_date dry_run w st st1 H. rewrite run_eval. cbv zeta.
    now rewrite H.
  - intros fuel target_date dry_run w st n datas Hn Hfuel H.
    set (date := effective_date w target_date).
    destruct (@shipments_pages_run date (store_id w) n w datas n fuel 1 [] st)
      as (st1 & Hrun & Htr & _); try lia.
    { intros k Hk. cbn [Nat.sub Nat.add]. destruct (H k Hk) as (H1 & H2 & _).
      now split. }
    cbn [Nat.sub app] in Hrun, Htr.
    rewrite flat_map_all_nil in Hrun
      by (intros k Hk; apply in_seq in Hk; apply H; lia).
    exists (record_event (ELog NoShippedOrders) st1). split.
    + rewrite run_eval. cbv zeta. fold date.
      now rewrite get_shipped_orders_eval, Hrun.
    + cbn [record_event with_trace trace]. rewrite Htr.
      now rewrite <- app_assoc.
Qed.

Lemma run_ends_without_orders_witness :
  exists st',
    run 2 None true
        (http_world (fun _ => mkResponse 200 None
                                (Some (mkJson None (Some 2) None None None))))
        initial_state
    = (Ret tt, st')
    /\ trace st' =
       [EGet (GetShipments (mkDate 2026 2 26) 42 100 1);
        EGet (GetShipments (mkDate 2026 2 26) 42 100 2);
        ELog NoShippedOrders].
Proof.
  apply (proj2 run_ends_without_orders 2 None true
           (http_world (fun _ => mkResponse 200 None
                                   (Some (mkJson None (Some 2) None None None))))
           initial_state 2
           (fun _ => mkJson None (Some 2) None None None)); [lia | lia |].
  intros k Hk. repeat split.
Defined.

Lemma get_shipped_orders_fails_with_listing_witness :
  events_since is_listing_event initial_state
    (snd (get_shipped_orders 3 the_date 42 (http_world always_500)
            initial_state))
  /\ is_Exception (HTTPError 500) = true.
Proof.
  apply (proj2 (@get_shipped_orders_fails_with_listing 3 the_date 42
                  (http_world always_500) initial_state _ (HTTPError 500))).
  vm_compute. reflexivity.
Defined.

(** *** The order API *)

Lemma since_get (st0 : State) (req : Request) :
  inv (events_since is_api_event st0) (_get req).
Proof.
  unfold _get. generalize 5. intros n.
  induction n as [|n IH]; cbn [_get_attempts];
    unfold raise_for_status, resp_json; since_walk ltac:(exact IH).
Qed.

Lemma listing_is_api (e : Event) :
  is_listing_event e = true -> is_api_event e = true.
Proof. destruct e as [[]| |[]| | | | |]; cbn; congruence. Qed.

Lemma since_fetch_orders (st0 : State) (ids : list nat) :
  forall acc, inv (events_since is_api_event st0) (fetch_orders ids acc).
Proof.
  induction ids as [|oid rest IH]; intros acc; cbn [fetch_orders];
    since_walk ltac:(first [apply since_get | apply IH]).
Qed.

Lemma since_get_shipped_orders (st0 : State) (fuel : nat) (date : Date)
  (sid : nat) :
  inv (events_since is_api_event st0) (get_shipped_orders fuel date sid).
Proof.
  assert (Hp : inv (events_since is_api_event st0)
                   (shipments_pages fuel date sid 1 [])).
  { intros w st H.
    apply (events_since_trans H).
    apply (@events_since_weaken _ _ _ _ listing_is_api).
    apply since_shipments_pages, events_since_refl. }
  unfold get_shipped_orders.
  since_walk ltac:(first [exact Hp | apply since_fetch_orders]).
Qed.

(** *** The session *)

Lemma since_dismiss_popup (st0 : State) (texts : list string) :
  inv (events_since is_session_event st0) (dismiss_popup texts).
Proof.
  induction texts as [|t rest IH]; cbn [dismiss_popup];
    since_walk ltac:(exact IH).
Qed.

Lemma since_start (st0 : State) :
  inv (events_since is_session_event st0) start.
Proof.
  unfold start, _login. since_walk ltac:(apply since_dismiss_popup).
Qed.

Lemma since_close (st0 : State) :
  inv (events_since is_session_event st0) close.
Proof. unfold close. since_walk ltac:(fail). Qed.

Lemma since_lookup_serial (st0 : State) (serial : string) :
  inv (events_since is_session_event st0) (lookup_serial serial).
Proof.
  unfold lookup_serial, lookup_try, lookup_search, lookup_extract,
    clear_search.
  since_walk ltac:(fail).
Qed.

Lemma since_lookup_loop (st0 : State) (to_lookup : list nat) :
  inv (events_since is_session_event st0) (lookup_loop to_lookup).
Proof.
  induction to_lookup as [|i rest IH]; cbn [lookup_loop];
    since_walk ltac:(first [apply since_lookup_serial | exact IH]).
Qed.

Lemma since_enrich_with_gpx (st0 : State) (records : list EnrichmentRecord) :
  inv (events_since is_session_event st0) (enrich_with_gpx records).
Proof.
  unfold enrich_with_gpx.
  since_walk ltac:(first [apply since_start | apply since_lookup_loop
                         | apply since_close]).
Qed.

(** *** Publishing *)

Lemma since_close_publish (st0 : State) (dry_run : bool) :
  inv (events_since (is_publish_event dry_run) st0) close.
Proof. unfold close. since_walk ltac:(fail). Qed.

Lemma since_upload_csv (st0 : State) (path : string) :
  inv (events_since (is_publish_event false) st0) (upload_csv path).
Proof. unfold upload_csv. since_walk ltac:(fail). Qed.

Lemma since_run_publish (st0 : State) (records : list EnrichmentRecord)
  (gpx_scraper : option GPXScraper) (date : Date) (dry_run : bool) :
  inv (events_since (is_publish_event dry_run) st0)
      (run_publish records gpx_scraper date dry_run).
Proof.
  unfold run_publish, close_if_open, temp_file, create_and_populate_sheet,
    get_google_services, temp_file.
  destruct dry_run;
    since_walk ltac:(first [apply since_close_publish | apply since_upload_csv]).
Qed.

Lemma parse_orders_not_nil (o : Json) (orders : list Json) :
  parse_orders (o :: orders) <> [].
Proof.
  rewrite parse_orders_cons, parse_orders_single.
  destruct (extract_serial_numbers (notes_of o)); discriminate.
Qed.

Lemma since_run (st0 : State) (fuel : nat) (target_date : option Date)
  (dry_run : bool) :
  inv (events_since (is_run_event dry_run) st0)
      (run fuel target_date dry_run).
Proof.
  intros w st H. apply (events_since_trans H). clear st0 H.
  rewrite run_eval. cbv zeta.
  set (date := effective_date w target_date).
  assert (Hapi : forall e, is_api_event e = true ->
                           is_run_event dry_run e = true)
    by (intros e He; unfold is_run_event; now rewrite He).
  assert (Hses : forall e, is_session_event e = true ->
                           is_run_event dry_run e = true)
    by (intros e He; unfold is_run_event; rewrite He;
        now rewrite orb_true_r).
  assert (Hpub : forall e, is_publish_event dry_run e = true ->
                           is_run_event dry_run e = true)
    by (intros e He; unfold is_run_event; rewrite He;
        now rewrite !orb_true_r).
  pose proof (@since_get_shipped_orders st fuel date (store_id w) w st
                (events_since_refl _ st)) as H1.
  apply (@events_since_weaken _ _ _ _ Hapi) in H1.
  destruct (get_shipped_orders fuel date (store_id w) w st)
    as [[[|o orders]|e|] st1]; cbn [snd] in *; try exact H1.
  - apply (stable_event (events_since_stable _ st)); [reflexivity | exact H1].
  - destruct (parse_orders (o :: orders)) as [|r records] eqn:Ep;
      [now elim (parse_orders_not_nil o orders)|].
    pose proof (@since_enrich_with_gpx st1 (r :: records) w st1
                  (events_since_refl _ st1)) as H2.
    apply (@events_since_weaken _ _ _ _ Hses) in H2.
    destruct (enrich_with_gpx (r :: records) w st1) as [[en|e|] st2];
      cbn [snd] in *;
      try exact (events_since_trans H1 H2).
    pose proof (@since_run_publish st2 (fst en) (snd en) date dry_run w st2
                  (events_since_refl _ st2)) as H3.
    apply (@events_since_weaken _ _ _ _ Hpub) in H3.
    exact (events_since_trans H1 (events_since_trans H2 H3)).
Qed.

Lemma dry_run_event_is_no_upload (e : Event) :
  is_run_event true e = true -> is_upload_event e = false.
Proof.
  unfold is_run_event.
  destruct e as [req| |msg|op|op| | |]; cbn; try reflexivity;
    try discriminate.
  destruct op as [| | | | | |sel| | | | | | | | |]; cbn; try reflexivity;
    try discriminate.
  destruct sel; cbn; try reflexivity; discriminate.
Qed.

(** X9: a dry run never calls the document store and never takes a step
    of the console's upload dialog: whatever the world answers, no
    credentials are loaded, no file is uploaded, and none of the clicks,
    file selections or scrolls of [upload_csv] is made. *)
Theorem dry_run_never_uploads :
  forall (fuel : nat) (target_date : option Date) (w : World) (st : State),
    exists evs,
      trace (snd (run fuel target_date true w st)) = trace st ++ evs
      /\ existsb is_upload_event evs = false.
Proof.
  intros fuel target_date w st.
  destruct (@since_run st fuel target_date true w st (events_since_refl _ st))
    as (evs & Ht & Hp).
  exists evs. split; [exact Ht|].
  rewrite forallb_forall in Hp.
  destruct (existsb is_upload_event evs) eqn:E; [|reflexivity].
  apply existsb_exists in E as (e & He & Hu).
  now rewrite (dry_run_event_is_no_upload e (Hp e He)) in Hu.
Qed.

(** X10: [parse_orders] gives no record only when it is given no order;
    so the exit of [run] for an empty record list is never taken: no run
    logs that there are no records to process. *)
Theorem run_never_without_records :
  (forall orders : list Json, parse_orders orders = [] <-> orders = [])
  /\ (forall (fuel : nat) (target_date : option Date) (dry_run : bool)
             (w : World) (st : State),
        exists evs,
          trace (snd (run fuel target_date dry_run w st)) = trace st ++ evs
          /\ ~ In (ELog NoRecords) evs).
Proof.
  split.
  - intros [|o orders]; split; intros H; try reflexivity; try discriminate.
    now elim (parse_orders_not_nil o orders).
  - intros fuel target_date dry_run w st.
    destruct (@since_run st fuel target_date dry_run w st
                (events_since_refl _ st)) as (evs & Ht & Hp).
    exists evs. split; [exact Ht|]. intros Hin.
    rewrite forallb_forall in Hp. specialize (Hp _ Hin).
    destruct dry_run; discriminate.
Qed.

(** ** Records without a serial *)

Lemma is_not_found_spec (r : EnrichmentRecord) :
  is_not_found r = true <-> serial r = "NOT FOUND".
Proof. unfold is_not_found. apply String.eqb_eq. Qed.

Lemma to_lookup_from_nil (records : list EnrichmentRecord) :
  forall i,
    to_lookup_from i records = []
    <-> Forall (fun r => serial r = "NOT FOUND") records.
Proof.
  induction records as [|r records IH]; intros i; cbn [to_lookup_from].
  - split; [constructor | reflexivity].
  - destruct (is_not_found r) eqn:E.
    + rewrite IH. apply is_not_found_spec in E. split.
      * now constructor.
      * intros H. now inversion H.
    + split; [discriminate|]. intros H. inversion H as [|? ? Hr _]; subst.
      apply is_not_found_spec in Hr. congruence.
Qed.

(** X11: [enrich_with_gpx] opens a session only if some record carries a
    serial: the records to look up are none exactly when every record has
    the sentinel for its serial, and it then returns the records unchanged
    with no scraper, recording nothing but a warning - no browser call is
    made. *)
Theorem enrich_with_gpx_without_serials :
  (forall records : list EnrichmentRecord,
      to_lookup_from 0 records = []
      <-> Forall (fun r => serial r = "NOT FOUND") records)
  /\ (forall records w st,
        Forall (fun r => serial r = "NOT FOUND") records ->
        enrich_with_gpx records w st
        = (Ret (records, None),
           record_event (ELog NoSerialsToLookUp) (with_records records st))).
Proof.
  split; [intros records; apply to_lookup_from_nil|].
  intros records w st H. rewrite enrich_with_gpx_eval.
  apply (to_lookup_from_nil records 0) in H. now rewrite H.
Qed.

Lemma enrich_with_gpx_without_serials_witness :
  enrich_with_gpx (parse_orders [order_without_serial]) dead_console_world
                  initial_state
  = (Ret (parse_orders [order_without_serial], None),
     record_event (ELog NoSerialsToLookUp)
       (with_records (parse_orders [order_without_serial]) initial_state)).
Proof.
  apply (proj2 enrich_with_gpx_without_serials).
  repeat constructor.
Defined.

(** ** What the enrichment leaves alone *)

Lemma same_identity_refl (r : EnrichmentRecord) : same_identity r r.
Proof. unfold same_identity. intuition. Qed.

Lemma Forall2_same_identity_refl (records : list EnrichmentRecord) :
  Forall2 same_identity records records.
Proof.
  induction records; constructor; [apply same_identity_refl | assumption].
Qed.

Lemma same_identity_merge (gpx_data : LookupResult)
  (r0 r : EnrichmentRecord) :
  serial r0 <> "NOT FOUND" ->
  same_identity r0 r -> same_identity r0 (merge_lookup gpx_data r).
Proof.
  unfold same_identity, merge_lookup. cbn.
  intros Hne (H1 & H2 & H3 & H4 & H5 & H6 & H7).
  repeat split; try assumption; [now right | congruence].
Qed.

Lemma Forall2_update_nth (A B : Type) (R : A -> B -> Prop) (f : B -> B) :
  forall (l : list A) (l' : list B) (i : nat),
    Forall2 R l l' ->
    (forall a b, nth_error l i = Some a -> R a b -> R a (f b)) ->
    Forall2 R l (update_nth i f l').
Proof.
  induction l as [|a l IH]; intros l' i H Hf; inversion H; subst.
  - destruct i; constructor.
  - destruct i as [|i]; cbn [update_nth]; constructor;
      try assumption.
    + apply Hf; [reflexivity | assumption].
    + apply IH; [assumption|]. intros a' b' Ha'. apply Hf. exact Ha'.
Qed.

(** The positions [to_lookup_from] lists hold records with a serial. *)
Lemma to_lookup_from_serials (records : list EnrichmentRecord) :
  forall k i,
    In i (to_lookup_from k records) ->
    k <= i
    /\ forall r, nth_error records (i - k) = Some r ->
                 serial r <> "NOT FOUND".
Proof.
  induction records as [|r records IH]; intros k i Hin; [contradiction|].
  cbn [to_lookup_from] in Hin.
  assert (Hrest : In i (to_lookup_from (S k) records) ->
                  k <= i /\ forall r', nth_error (r :: records) (i - k)
                                       = Some r' ->
                                       serial r' <> "NOT FOUND").
  { intros H. destruct (IH (S k) i H) as [Hle Hr]. split; [lia|].
    replace (i - k) with (S (i - S k)) by lia. exact Hr. }
  destruct (is_not_found r) eqn:E; [now apply Hrest|].
  destruct Hin as [<-|Hin]; [|now apply Hrest].
  split; [lia|]. rewrite Nat.sub_diag. intros r' [= <-].
  intros Hs. apply is_not_found_spec in Hs. congruence.
Qed.

Lemma records_are_stable (rs : list EnrichmentRecord) :
  stable (fun _ => True) (records_are rs).
Proof. constructor; intros; assumption. Qed.

Lemma records_kept_set_result (rs : list EnrichmentRecord) (r : LookupResult) :
  inv (records_are rs) (set_result r).
Proof. intros w st H. exact H. Qed.

Lemma records_kept_update_result (rs : list EnrichmentRecord)
  (f : LookupResult -> LookupResult) :
  inv (records_are rs) (update_result f).
Proof. intros w st H. exact H. Qed.

Ltac records_walk rs known :=
  inv_walk (records_are_stable rs) ltac:(exact I)
           ltac:(first [ apply records_kept_set_result
                       | apply records_kept_update_result | known ]).

Lemma records_kept_dismiss_popup (rs : list EnrichmentRecord)
  (texts : list string) :
  inv (records_are rs) (dismiss_popup texts).
Proof.
  induction texts as [|t rest IH]; cbn [dismiss_popup];
    records_walk rs ltac:(exact IH).
Qed.

Lemma records_kept_start (rs : list EnrichmentRecord) :
  inv (records_are rs) start.
Proof.
  unfold start, _login.
  records_walk rs ltac:(apply records_kept_dismiss_popup).
Qed.

Lemma records_kept_close (rs : list EnrichmentRecord) :
  inv (records_are rs) close.
Proof. unfold close. records_walk rs ltac:(fail). Qed.

Lemma records_kept_lookup_serial (rs : list EnrichmentRecord)
  (serial : string) :
  inv (records_are rs) (lookup_serial serial).
Proof.
  unfold lookup_serial, lookup_try, lookup_search, lookup_extract,
    clear_search.
  records_walk rs ltac:(fail).
Qed.

Lemma lookup_loop_identity (records : list EnrichmentRecord) (w : World)
  (to_lookup : list nat) :
  forall st,
    (forall i r, In i to_lookup -> nth_error records i = Some r ->
                 serial r <> "NOT FOUND") ->
    Forall2 same_identity records (record_dicts st) ->
    Forall2 same_identity records
            (record_dicts (snd (lookup_loop to_lookup w st))).
Proof.
  induction to_lookup as [|i rest IH]; intros st Hidx H; [exact H|].
  cbn [lookup_loop]. unfold bind at 1. cbn [get_state]. unfold bind at 1.
  pose proof (@records_kept_lookup_serial (record_dicts st)
                (serial (nth i (record_dicts st) blank_record)) w st
                eq_refl) as Hk.
  unfold records_are in Hk.
  destruct (lookup_serial _ w st) as [[gpx_data|e|] st1]; cbn [snd] in *;
    try (rewrite Hk; exact H).
  unfold bind at 1. cbn [get_state]. unfold bind at 1. cbn [set_records].
  apply IH; [intros j r Hj; apply Hidx; now right|].
  cbn [record_dicts with_records]. rewrite Hk.
  apply Forall2_update_nth; [exact H|].
  intros a b Ha Hab. apply same_identity_merge; [|exact Hab].
  apply (Hidx i a); [now left | exact Ha].
Qed.

(** Whatever happens, the records handed back are the records given,
    enriched or not. *)
Lemma enrich_with_gpx_identity (records : list EnrichmentRecord) (w : World)
  (st : State) (enriched : list EnrichmentRecord * option GPXScraper) :
  fst (enrich_with_gpx records w st) = Ret enriched ->
  Forall2 same_identity records (fst enriched).
Proof.
  intros Hrun. rewrite enrich_with_gpx_eval in Hrun.
  assert (Hfail : forall e s,
             Forall2 same_identity records (record_dicts s) ->
             fst (enrich_failure w e s) = Ret enriched ->
             Forall2 same_identity records (fst enriched)).
  { intros e s Hs. unfold enrich_failure.
    destruct (is_Exception e); [|discriminate].
    pose proof (@records_kept_close (record_dicts s) w
                  (record_event (ELog (GpxLookupFailed e)) s) eq_refl)
      as Hc.
    unfold records_are in Hc.
    destruct (close w _) as [[[]|e'|] s']; cbn [fst snd] in *;
      try discriminate.
    intros [= <-]. cbn [fst]. now rewrite Hc. }
  destruct (to_lookup_from 0 records) as [|i rest] eqn:El.
  - cbn [fst] in Hrun. injection Hrun as <-.
    apply Forall2_same_identity_refl.
  - pose proof (@records_kept_start records w (before_start records st)
                  eq_refl) as Hs.
    unfold records_are in Hs.
    assert (Hidx : forall j r, In j (i :: rest) ->
                     nth_error records j = Some r ->
                     serial r <> "NOT FOUND").
    { intros j r Hj Hr. rewrite <- El in Hj.
      destruct (to_lookup_from_serials records 0 j Hj) as [_ Hser].
      apply Hser. now rewrite Nat.sub_0_r. }
    destruct (start w _) as [[[]|e|] s1]; cbn [snd] in Hs;
      [| apply (Hfail e s1); [rewrite Hs; apply Forall2_same_identity_refl
                             | exact Hrun]
       | discriminate].
    pose proof (@lookup_loop_identity records w (i :: rest) s1 Hidx) as Hl.
    rewrite Hs in Hl. specialize (Hl (Forall2_same_identity_refl records)).
    destruct (lookup_loop (i :: rest) w s1) as [[[]|e|] s2];
      cbn [fst snd] in *.
    + injection Hrun as <-. exact Hl.
    + now apply (Hfail e s2).
    + discriminate.
Qed.

(** X12: whenever [enrich_with_gpx] returns - with or without a scraper,
    after lookups that succeeded or failed - it hands back the records it
    was given, in the same number and order, each with its sku, serial,
    status, order number and raw notes untouched and its retailer kept or
    set to shopify; a sentinel record is handed back exactly as it was. *)
Theorem enrich_with_gpx_keeps_identity :
  forall (records : list EnrichmentRecord) (w : World) (st : State)
         (enriched : list EnrichmentRecord * option GPXScraper),
    fst (enrich_with_gpx records w st) = Ret enriched ->
    Forall2 same_identity records (fst enriched)
    /\ length (fst enriched) = length records
    /\ map serial (fst enriched) = map serial records.
Proof.
  intros records w st enriched Hrun.
  pose proof (enrich_with_gpx_identity _ _ _ Hrun) as Hmain.
  split; [exact Hmain|]. split.
  - symmetry. exact (Forall2_length Hmain).
  - clear Hrun. induction Hmain as [|r0 r l l' Hr _ IH]; [reflexivity|].
    cbn [map]. rewrite IH. f_equal. apply Hr.
Qed.

Lemma enrich_with_gpx_keeps_identity_witness :
  exists enriched,
    fst (enrich_with_gpx (parse_orders [order_1007; order_without_serial])
           (console_world card_text) initial_state) = Ret enriched
    /\ Forall2 same_identity
         (parse_orders [order_1007; order_without_serial]) (fst enriched)
    /\ length (fst enriched)
       = length (parse_orders [order_1007; order_without_serial])
    /\ map serial (fst enriched)
       = map serial (parse_orders [order_1007; order_without_serial]).
Proof.
  eexists. split; [vm_compute; reflexivity|].
  apply (@enrich_with_gpx_keeps_identity
           (parse_orders [order_1007; order_without_serial])
           (console_world card_text) initial_state).
  vm_compute. reflexivity.
Defined.

Lemma try_except_returned (A : Type) (body : M A) (handler : exn -> M A)
  (w : World) (st st' : State) (a : A) :
  body w st = (Ret a, st') -> try_except body handler w st = (Ret a, st').
Proof. intros H. unfold try_except. now rewrite H. Qed.

Section WorkingConsole.
Variable w : World.
Variable page_text : string.
Hypothesis page_ok : forall k, page_answers w k = Returns page_text.
Hypothesis fs_ok : forall k, fs_answers w k = true.

Lemma page_call_returns (op : PageOp) (st : State) :
  page_call op w st = (Ret page_text, called [op] st).
Proof. apply page_call_ok, page_ok. Qed.

Lemma fs_call_returns (op : FsOp) (st : State) :
  fs_call op w st = (Ret tt, count_fs (record_event (EFs op) st)).
Proof. apply fs_call_ok, fs_ok. Qed.

Lemma dismiss_popup_first (t : string) (rest : list string) (st : State) :
  dismiss_popup (t :: rest) w st
  = (Ret tt, called [PwClick (SelText t)] st).
Proof.
  cbn [dismiss_popup].
  erewrite bind_returned
    by (apply try_except_returned;
        erewrite bind_returned by apply page_call_returns; reflexivity).
  reflexivity.
Qed.

Lemma start_returns (st : State) :
  exists st', start w st = (Ret tt, st')
              /\ record_dicts st' = record_dicts st.
Proof.
  unfold start, _login.
  repeat first
    [ erewrite bind_returned by apply page_call_returns
    | erewrite bind_returned by apply fs_call_returns
    | erewrite bind_returned by reflexivity ].
  erewrite try_except_returned; [eexists; split; [reflexivity|]|].
  2:{ repeat first
        [ erewrite bind_returned by apply page_call_returns
        | erewrite bind_returned by apply dismiss_popup_first
        | erewrite bind_returned by reflexivity ].
      reflexivity. }
  reflexivity.
Qed.

Lemma lookup_serial_returns (serial : string) (st : State) :
  exists st', lookup_serial serial w st
              = (Ret (two_tier serial page_text), st')
              /\ record_dicts st' = record_dicts st.
Proof.
  destruct (@lookup_serial_runs_two_tier serial page_text w st)
    as (st' & Hrun & _).
  - intros k _. exists page_text. apply page_ok.
  - apply page_ok.
  - intros _. exists page_text. apply page_ok.
  - exists st'. split; [exact Hrun|].
    pose proof (@records_kept_lookup_serial (record_dicts st) serial w st
                  eq_refl) as Hk.
    now rewrite Hrun in Hk.
Qed.

Lemma update_nth_at (l : list EnrichmentRecord) :
  forall i,
    update_nth i (merge_lookup
                    (two_tier (serial (nth i l blank_record)) page_text)) l
    = update_nth i (fun r => merge_lookup (two_tier (serial r) page_text) r)
                 l.
Proof.
  induction l as [|r l IH]; intros [|i]; cbn [update_nth nth];
    try reflexivity. now rewrite IH.
Qed.

Lemma lookup_loop_returns (to_lookup : list nat) :
  forall st,
    exists st',
      lookup_loop to_lookup w st = (Ret tt, st')
      /\ record_dicts st' =
         fold_left
           (fun l i =>
              update_nth i
                (fun r => merge_lookup (two_tier (serial r) page_text) r) l)
           to_lookup (record_dicts st).
Proof.
  induction to_lookup as [|i rest IH]; intros st.
  - exists st. split; reflexivity.
  - cbn [lookup_loop fold_left].
    erewrite bind_returned by reflexivity. cbn [fst].
    destruct (lookup_serial_returns
                (serial (nth i (record_dicts st) blank_record)) st)
      as (s1 & Hrun & Hrec).
    erewrite bind_returned by exact Hrun.
    erewrite bind_returned by reflexivity.
    erewrite bind_returned by reflexivity.
    destruct (IH (with_records
                    (update_nth i
                       (merge_lookup
                          (two_tier
                             (serial (nth i (record_dicts st) blank_record))
                             page_text))
                       (record_dicts s1)) s1))
      as (st' & Hloop & Hfinal).
    exists st'. split; [exact Hloop|].
    rewrite Hfinal. cbn [record_dicts with_records].
    now rewrite Hrec, update_nth_at.
Qed.
End WorkingConsole.

Lemma update_nth_middle (A : Type) (f : A -> A) (pre : list A) (x : A)
  (rest : list A) :
  update_nth (length pre) f (pre ++ x :: rest) = pre ++ f x :: rest.
Proof. induction pre as [|y pre IH]; cbn; [reflexivity | now rewrite IH]. Qed.

Lemma lookups_fold (page_text : string) (rest : list EnrichmentRecord) :
  forall pre : list EnrichmentRecord,
    fold_left
      (fun l i =>
         update_nth i
           (fun r => merge_lookup (two_tier (serial r) page_text) r) l)
      (to_lookup_from (length pre) rest) (pre ++ rest)
    = pre ++ map (enriched_from page_text) rest.
Proof.
  induction rest as [|r rest IH]; intros pre; [reflexivity|].
  cbn [to_lookup_from map]. unfold enriched_from at 1.
  destruct (is_not_found r).
  - specialize (IH (pre ++ [r])). rewrite length_app in IH. cbn in IH.
    rewrite Nat.add_1_r, <- !app_assoc in IH. exact IH.
  - cbn [fold_left]. rewrite update_nth_middle.
    set (r' := merge_lookup (two_tier (serial r) page_text) r).
    specialize (IH (pre ++ [r'])). rewrite length_app in IH. cbn in IH.
    rewrite Nat.add_1_r, <- !app_assoc in IH. exact IH.
Qed.

(** X13: on a console where every browser call succeeds and every lookup
    reads the same text, text and serials being made of code points below
    128, and with a working file system, [enrich_with_gpx]
    returns the scraper together with the records in order, each record
    that carries a serial completed with the two-tier extraction of that
    text for its serial, each sentinel record as it was. *)
Theorem enrich_with_gpx_on_working_console :
  forall (w : World) (page_text : string) (records : list EnrichmentRecord)
         (st : State),
    ascii_text page_text = true ->
    Forall (fun r => ascii_text (serial r) = true) records ->
    (forall k, page_answers w k = Returns page_text) ->
    (forall k, fs_answers w k = true) ->
    to_lookup_from 0 records <> [] ->
    exists st',
      enrich_with_gpx records w st
      = (Ret (map (enriched_from page_text) records, Some TheScraper), st').
Proof.
  intros w page_text records st _ _ Hpage Hfs Hsome.
  rewrite enrich_with_gpx_eval.
  destruct (to_lookup_from 0 records) as [|i rest] eqn:El; [congruence|].
  destruct (@start_returns w page_text Hpage Hfs (before_start records st))
    as (s1 & Hstart & Hrec1).
  rewrite Hstart.
  destruct (@lookup_loop_returns w page_text Hpage (i :: rest) s1)
    as (s2 & Hloop & Hrec2).
  rewrite Hloop. exists s2.
  pose proof (lookups_fold page_text records []) as E.
  cbn [length app] in E. rewrite El in E.
  rewrite Hrec2, Hrec1. cbn [before_start record_dicts with_browser with_pw
                             with_records].
  now rewrite E.
Qed.

Lemma enrich_with_gpx_on_working_console_witness :
  exists st',
    enrich_with_gpx (parse_orders [order_1007; order_without_serial])
                    (console_world card_text) initial_state
    = (Ret ([mkRecord "GPX-1" "274341" "862601768000477"
                      "8901176000000000001" EmptyString "shopify"
                      "unassigned" "1007" EmptyString;
             mkRecord "GPX-A, GPX-B" "NOT FOUND" EmptyString EmptyString
                      EmptyString "shopify" "unassigned" "1011"
                      "gift wrap, call first"],
            Some TheScraper), st').
Proof.
  apply (@enrich_with_gpx_on_working_console (console_world card_text)
           card_text (parse_orders [order_1007; order_without_serial])
           initial_state).
  - reflexivity.
  - repeat constructor.
  - reflexivity.
  - reflexivity.
  - vm_compute. discriminate.
Defined.

(** ** Every way a lookup can end *)

Lemma lookup_search_outcome (serial : string) (w : World) (st : State) :
  exists s1,
    lookup_search serial w st
    = (match search_text w st with
       | Some t => Ret t
       | None => Raise PlaywrightError
       end, s1)
    /\ result_dict s1 = result_dict st.
Proof.
  unfold lookup_search, search_text, bind, page_call.
  cbn [seq forallb Nat.add].
  destruct st as [h p f g tr pw br r rs].
  cbn [page_calls record_event count_page with_trace trace result_dict].
  destruct (page_answers w p); cbn; [|eexists; split; reflexivity].
  destruct (page_answers w (S p)); cbn; [|eexists; split; reflexivity].
  destruct (page_answers w (S (S p))); cbn; [|eexists; split; reflexivity].
  destruct (page_answers w (S (S (S p)))); cbn;
    [|eexists; split; reflexivity].
  destruct (page_answers w (S (S (S (S p))))); cbn;
    [|eexists; split; reflexivity].
  destruct (page_answers w (S (S (S (S (S p)))))); cbn;
    eexists; split; reflexivity.
Qed.

Lemma shot_then_log (path : string) (msg : LogMsg) (w : World) (s : State) :
  result_dict (snd ((page_call (PwScreenshot path) ;; log msg) w s))
  = result_dict s
  /\ (fst ((page_call (PwScreenshot path) ;; log msg) w s) = Ret tt
      \/ fst ((page_call (PwScreenshot path) ;; log msg) w s)
         = Raise PlaywrightError).
Proof.
  unfold bind, page_call, log, emit.
  destruct (page_answers w (page_calls s)); cbn; split; auto.
Qed.

(** Whether or not the diagnostic screenshot can be taken, the EXTRACT
    block leaves the two-tier extraction in the result dict. *)
Lemma lookup_extract_result (serial page_text : string) (w : World)
  (st : State) :
  result_dict st = empty_result ->
  forall out,
    lookup_extract serial page_text w st = out ->
    result_dict (snd out) = two_tier serial page_text
    /\ (fst out = Ret tt \/ fst out = Raise PlaywrightError).
Proof.
  intros Hres out Hout. unfold lookup_extract in Hout. unfold two_tier.
  destruct (re_search (primary_pattern serial) page_text) as [m|].
  - unfold bind, update_result, bind, get_state, set_result in Hout.
    cbn in Hout. subst out. cbn. rewrite Hres. split; [reflexivity | now left].
  - destruct (re_search (serial_pattern serial) page_text) as [sm|].
    + cbv zeta in *.
      set (nearby := substring (m_start sm) 300 page_text) in *.
      erewrite bind_returned in Hout by apply assign_found_imei.
      erewrite bind_returned in Hout by apply assign_found_iccid.
      unfold bind at 1 in Hout.
      cbn [get_state with_result result_dict fst lr_imei lr_iccid
           lr_sim_provider] in Hout.
      rewrite Hres in Hout.
      cbn [empty_result lr_imei lr_iccid lr_sim_provider] in Hout.
      match type of Hout with
      | context [if ?c then ret tt else _] => destruct c eqn:Ec
      end.
      * subst out. cbn [ret fst snd result_dict with_result].
        split; [|now left].
        now destruct (re_search imei_pattern nearby),
                     (re_search iccid_pattern nearby).
      * match type of Hout with
        | (page_call (PwScreenshot ?p) ;; log ?m) w ?s = _ =>
            destruct (shot_then_log p m w s) as [Hr Ho]
        end.
        rewrite Hout in Hr, Ho. split; [|exact Ho]. rewrite Hr.
        cbn [result_dict with_result].
        now destruct (re_search imei_pattern nearby),
                     (re_search iccid_pattern nearby).
    + destruct (shot_then_log (search_screenshot serial)
                  (SerialNotInResults serial) w st) as [Hr Ho].
      rewrite Hout in Hr, Ho. split; [now rewrite Hr | exact Ho].
Qed.

(** The handler of [lookup_serial]: it ends well exactly when its
    screenshot can be taken, and leaves the result dict alone. *)
Lemma lookup_handler_outcome (serial : string) (e : exn) (w : World)
  (s : State) :
  forall out,
    (page_call (PwScreenshot (error_screenshot serial)) ;;
     log (LookupError serial e) ;;
     try_except (page_call (PwGoto GPX_ADMIN_URL) ;; ret tt)
                (fun _ => ret tt)) w s = out ->
    result_dict (snd out) = result_dict s
    /\ (exists post,
          trace (snd out)
          = trace s ++ EPage (PwScreenshot (error_screenshot serial)) :: post)
    /\ (fst out = Ret tt \/ fst out = Raise PlaywrightError).
Proof.
  intros out <-. unfold bind, try_except, page_call, log, emit.
  destruct s as [h p f g tr pw br r rs].
  cbn [page_calls record_event count_page with_trace trace].
  destruct (page_answers w p); cbn;
    [|split; [reflexivity|]; split; [eexists; reflexivity | now right]].
  destruct (page_answers w (S p)); cbn;
    (split; [reflexivity|]; split;
     [rewrite <- !app_assoc; eexists; reflexivity | now left]).
Qed.

Lemma since_lookup_try (st0 : State) (serial : string) :
  inv (events_since is_session_event st0) (lookup_try serial).
Proof.
  unfold lookup_try, lookup_search, lookup_extract, clear_search.
  since_walk ltac:(fail).
Qed.

(** The [try] block of [lookup_serial], entered with an empty result
    dict. *)
Lemma lookup_try_outcome (serial : string) (w : World) (st : State) :
  result_dict st = empty_result ->
  forall out,
    lookup_try serial w st = out ->
    result_dict (snd out)
    = match search_text w st with
      | Some text => two_tier serial text
      | None => empty_result
      end
    /\ (fst out = Ret tt \/ fst out = Raise PlaywrightError).
Proof.
  intros Hres out Hout. unfold lookup_try in Hout.
  destruct (lookup_search_outcome serial w st) as (s1 & Hs & Hr1).
  unfold bind at 1 in Hout. rewrite Hs in Hout.
  destruct (search_text w st) as [text|].
  - destruct (@lookup_extract_result serial text w s1
                (eq_trans Hr1 Hres) _ eq_refl) as [Hr2 Ho].
    unfold bind at 1 in Hout.
    destruct (lookup_extract serial text w s1) as [[[]|e|] s2];
      cbn [fst snd] in *.
    + destruct (clear_search_returns w s2) as (s3 & Hc & Hr3 & _).
      rewrite Hc in Hout. subst out. cbn [fst snd].
      split; [now rewrite Hr3 | now left].
    + subst out. cbn [fst snd]. split; [exact Hr2|].
      destruct Ho as [Ho|Ho]; [discriminate | now right].
    + destruct Ho; discriminate.
  - subst out. cbn [fst snd]. split; [now rewrite Hr1 | now right].
Qed.

(** The handler of [lookup_serial] raises exactly when its screenshot
    fails, and has then recorded nothing else. *)
Lemma lookup_handler_raises (serial : string) (e : exn) (w : World)
  (s : State) :
  let handler :=
    (page_call (PwScreenshot (error_screenshot serial)) ;;
     log (LookupError serial e) ;;
     try_except (page_call (PwGoto GPX_ADMIN_URL) ;; ret tt)
                (fun _ => ret tt)) w s in
  match page_answers w (page_calls s) with
  | Fails =>
      handler
      = (Raise PlaywrightError,
         count_page
           (record_event (EPage (PwScreenshot (error_screenshot serial))) s))
  | Returns _ => fst handler = Ret tt
  end.
Proof.
  cbv zeta. unfold bind, try_except, page_call, log, emit.
  destruct s as [h p f g tr pw br r rs].
  cbn [page_calls record_event count_page with_trace trace].
  destruct (page_answers w p); cbn; [|reflexivity].
  now destruct (page_answers w (S p)).
Qed.

(** X14: every way [lookup_serial] can end, for a serial and a result text
    of code points below 128.  When it returns, the result is the two-tier
    extraction of the text its search read, if the six calls of the search
    succeeded, and the empty result otherwise - even when the diagnostic
    screenshot, the clearing of the search or the return to the start page
    failed.  It raises exactly when its [try] block raised and the error
    screenshot, the browser call that follows, failed as well; it then
    raises the browser's error, and nothing is recorded after that
    screenshot.  It never runs out of fuel, and the result never depends on
    the result of an earlier lookup. *)
Theorem lookup_serial_every_outcome :
  forall (serial : string) (w : World) (st : State),
    ascii_text serial = true ->
    (forall text, search_text w st = Some text -> ascii_text text = true) ->
    (forall r,
        fst (lookup_serial serial w st) = Ret r ->
        r = match search_text w st with
            | Some text => two_tier serial text
            | None => empty_result
            end)
    /\ (forall e,
          fst (lookup_serial serial w st) = Raise e <->
          e = PlaywrightError
          /\ exists s1,
               lookup_try serial w (with_result empty_result st)
               = (Raise PlaywrightError, s1)
               /\ page_answers w (page_calls s1) = Fails)
    /\ (forall s1,
          lookup_try serial w (with_result empty_result st)
          = (Raise PlaywrightError, s1) ->
          page_answers w (page_calls s1) = Fails ->
          snd (lookup_serial serial w st)
          = count_page
              (record_event
                 (EPage (PwScreenshot (error_screenshot serial))) s1))
    /\ fst (lookup_serial serial w st) <> Fuel
    /\ (forall r0,
          fst (lookup_serial serial w (with_result r0 st))
          = fst (lookup_serial serial w st)).
Proof.
  intros serial w st _ _.
  enough (Hmain :
            (forall r,
                fst (lookup_serial serial w st) = Ret r ->
                r = match search_text w st with
                    | Some text => two_tier serial text
                    | None => empty_result
                    end)
            /\ (forall e,
                  fst (lookup_serial serial w st) = Raise e <->
                  e = PlaywrightError
                  /\ exists s1,
                       lookup_try serial w (with_result empty_result st)
                       = (Raise PlaywrightError, s1)
                       /\ page_answers w (page_calls s1) = Fails)
            /\ (forall s1,
                  lookup_try serial w (with_result empty_result st)
                  = (Raise PlaywrightError, s1) ->
                  page_answers w (page_calls s1) = Fails ->
                  snd (lookup_serial serial w st)
                  = count_page
                      (record_event
                         (EPage (PwScreenshot (error_screenshot serial))) s1))
            /\ fst (lookup_serial serial w st) <> Fuel).
  { destruct Hmain as (A & B & C & D).
    split; [exact A|]. split; [exact B|]. split; [exact C|].
    split; [exact D | intros r0; reflexivity]. }
  set (H := fun e : exn =>
              page_call (PwScreenshot (error_screenshot serial)) ;;
              log (LookupError serial e) ;;
              try_except (page_call (PwGoto GPX_ADMIN_URL) ;; ret tt)
                         (fun _ => ret tt)).
  set (st0 := with_result empty_result st).
  assert (E : lookup_serial serial w st =
              match try_except (lookup_try serial) H w st0 with
              | (Ret _, s) => (Ret (result_dict s), s)
              | (Raise e, s) => (Raise e, s)
              | (Fuel, s) => (Fuel, s)
              end) by reflexivity.
  destruct (@lookup_try_outcome serial w st0 eq_refl _ eq_refl) as [Hr Ho].
  change (search_text w st0) with (search_text w st) in Hr.
  unfold try_except in E. rewrite E. clear E.
  destruct (lookup_try serial w st0) as [[[]|e|] s1] eqn:Etry;
    cbn [fst snd] in *.
  - (* the try block returns *)
    split; [intros r [= <-]; exact Hr|].
    split; [intros e; split; [discriminate|]|].
    { intros (_ & s & Hs & _). discriminate Hs. }
    split; [intros s Hs; discriminate Hs|].
    discriminate.
  - (* the try block raises *)
    destruct Ho as [Ho|Ho]; [discriminate|]. injection Ho as ->.
    cbn [is_Exception].
    pose proof (@lookup_handler_outcome serial PlaywrightError w s1 _ eq_refl)
      as (Hr2 & _ & _).
    pose proof (lookup_handler_raises serial PlaywrightError w s1) as Hh.
    cbv zeta in Hh. fold (H PlaywrightError) in Hr2, Hh.
    destruct (page_answers w (page_calls s1)) as [t|] eqn:Eshot.
    + destruct (H PlaywrightError w s1) as [[[]|e'|] s2];
        cbn [fst snd] in *; try discriminate.
      split; [intros r [= <-]; now rewrite Hr2|].
      split; [intros e; split; [discriminate|]|].
      { intros (_ & s & [= <-] & Hs). rewrite Eshot in Hs. discriminate Hs. }
      split; [intros s [= <-] Hs; rewrite Eshot in Hs; discriminate Hs|].
      discriminate.
    + rewrite Hh. cbn [fst snd].
      split; [intros r Hr'; discriminate Hr'|].
      split.
      { intros e; split.
        - intros [= <-]. split; [reflexivity|]. exists s1. now split.
        - intros [-> _]. reflexivity. }
      split; [intros s [= <-] _; reflexivity|].
      discriminate.
  - destruct Ho; discriminate.
Qed.

Lemma lookup_serial_every_outcome_witness :
  fst (lookup_serial "274341" search_fails_world initial_state)
  = Ret empty_result
  /\ fst (lookup_serial "274341" dead_console_world initial_state)
     = Raise PlaywrightError.
Proof.
  split.
  - assert (E : exists r,
               fst (lookup_serial "274341" search_fails_world initial_state)
               = Ret r) by (eexists; vm_compute; reflexivity).
    destruct E as (r & E). rewrite E. f_equal.
    apply (proj1 (@lookup_serial_every_outcome "274341" search_fails_world
                    initial_state eq_refl
                    ltac:(intros text H; vm_compute in H; discriminate H))
             r E).
  - apply (proj1 (proj2 (@lookup_serial_every_outcome "274341"
                           dead_console_world initial_state eq_refl
                           ltac:(intros text H; vm_compute in H;
                                 discriminate H)))
             PlaywrightError).
    split; [reflexivity|]. eexists. split; vm_compute; reflexivity.
Defined.

(** [create_and_populate_sheet] once its file is created and written:
    the upload is attempted, then the file removed, whatever the upload
    gave. *)
Lemma create_and_populate_sheet_eval (records : list EnrichmentRecord)
  (date : Date) (w : World) (st : State) :
  fs_answers w (fs_calls st) = true ->
  fs_answers w (S (fs_calls st)) = true ->
  let temp_path := temp_name EmptyString (fs_calls st) ".csv" in
  let out := create_and_populate_sheet records date w st in
  trace (snd out)
  = trace st ++ [EFs (FsTempFile EmptyString ".csv");
                 EFs (FsWrite temp_path (sheet_rows records));
                 EDriveCreate (sheet_file_name date) (sheet_rows records);
                 EFs (FsUnlink temp_path)]
  /\ fst out
     = (if fs_answers w (S (S (fs_calls st)))
        then match google_answers w (google_calls st) with
             | Returns id => Ret id
             | Fails => Raise GoogleError
             end
        else Raise OSError)
  /\ page_calls (snd out) = page_calls st
  /\ scraper_browser (snd out) = scraper_browser st
  /\ scraper_pw (snd out) = scraper_pw st.
Proof.
  intros H1 H2. cbv zeta.
  unfold create_and_populate_sheet, temp_file, temp_name, sheet_file_name,
    try_finally, bind, get_state, fs_call, google_call, ret.
  destruct st as [h p f g tr pw br r rs].
  cbn [fs_calls google_calls record_event count_fs count_google with_trace
       trace fst snd] in *.
  rewrite H1.
  cbn [fs_calls count_fs record_event with_trace fst snd]. rewrite H2.
  cbn [fs_calls google_calls count_fs count_google record_event with_trace
       trace fst snd].
  destruct (google_answers w g);
    cbn [answered fs_calls count_fs count_google record_event with_trace
         fst snd trace];
    destruct (fs_answers w (S (S f)));
    cbn [fst snd trace count_fs count_google record_event with_trace
         page_calls scraper_browser scraper_pw];
    rewrite <- ?app_assoc; repeat split; reflexivity.
Qed.

(** X15: [create_and_populate_sheet] removes its temporary file whatever
    the upload gives: once the file is created and written, the upload is
    attempted under the name Shopify Shipment - M.DD.YY.csv and the file is
    removed next; the call returns the identifier of the uploaded file,
    raises the error of the upload, or raises the error of the removal if
    that fails.  If the file cannot be created or written the call raises
    before any upload, and a file that was created but not written is left
    behind. *)
Theorem create_and_populate_sheet_removes_temp_file :
  forall (records : list EnrichmentRecord) (date : Date) (w : World)
         (st : State),
    let temp_path := temp_name EmptyString (fs_calls st) ".csv" in
    let created := EFs (FsTempFile EmptyString ".csv") in
    let written := EFs (FsWrite temp_path (sheet_rows records)) in
    let out := create_and_populate_sheet records date w st in
    (fs_answers w (fs_calls st) = false ->
     fst out = Raise OSError /\ trace (snd out) = trace st ++ [created])
    /\ (fs_answers w (fs_calls st) = true ->
        fs_answers w (S (fs_calls st)) = false ->
        fst out = Raise OSError
        /\ trace (snd out) = trace st ++ [created; written])
    /\ (fs_answers w (fs_calls st) = true ->
        fs_answers w (S (fs_calls st)) = true ->
        trace (snd out)
        = trace st ++ [created; written;
                       EDriveCreate (sheet_file_name date)
                                    (sheet_rows records);
                       EFs (FsUnlink temp_path)]
        /\ fst out
           = if fs_answers w (S (S (fs_calls st)))
             then match google_answers w (google_calls st) with
                  | Returns id => Ret id
                  | Fails => Raise GoogleError
                  end
             else Raise OSError).
Proof.
  intros records date w st. cbv zeta. split; [|split].
  - unfold create_and_populate_sheet, temp_file, bind, get_state, fs_call.
    intros ->. split; reflexivity.
  - unfold create_and_populate_sheet, temp_file, temp_name, bind, get_state,
      fs_call.
    intros H1 H2. rewrite H1.
    cbn [fs_calls count_fs record_event with_trace fst snd ret]. rewrite H2.
    cbn. rewrite <- app_assoc. split; reflexivity.
  - intros H1 H2.
    destruct (create_and_populate_sheet_eval records date w st H1 H2)
      as (Ht & Ho & _).
    split; assumption.
Qed.

Lemma create_and_populate_sheet_removes_temp_file_witness :
  trace (snd (create_and_populate_sheet [] the_date drive_refuses_world
                initial_state))
  = [EFs (FsTempFile EmptyString ".csv");
     EFs (FsWrite "0.csv" (sheet_rows []));
     EDriveCreate "Shopify Shipment - 2.26.26.csv" (sheet_rows []);
     EFs (FsUnlink "0.csv")]
  /\ fst (create_and_populate_sheet [] the_date drive_refuses_world
            initial_state)
     = Raise GoogleError.
Proof.
  exact (proj2 (proj2 (create_and_populate_sheet_removes_temp_file
                         [] the_date drive_refuses_world initial_state))
               eq_refl eq_refl).
Defined.

(** ** Publishing when the document store fails *)

Lemma bind_raised (A B : Type) (m : M A) (f : A -> M B) (w : World)
  (st st' : State) (e : exn) :
  m w st = (Raise e, st') -> bind m f w st = (Raise e, st').
Proof. intros H. unfold bind. now rewrite H. Qed.

Lemma try_finally_raised (A : Type) (body : M A) (fin : M unit) (w : World)
  (st st1 st2 : State) (e : exn) :
  body w st = (Raise e, st1) -> fin w st1 = (Ret tt, st2) ->
  try_finally body fin w st = (Raise e, st2).
Proof. intros Hb Hf. unfold try_finally. now rewrite Hb, Hf. Qed.

Lemma try_finally_returned (A : Type) (body : M A) (fin : M unit) (w : World)
  (st st1 st2 : State) (a : A) :
  body w st = (Ret a, st1) -> fin w st1 = (Ret tt, st2) ->
  try_finally body fin w st = (Ret a, st2).
Proof. intros Hb Hf. unfold try_finally. now rewrite Hb, Hf. Qed.

Section WorkingBrowserAndDisk.
Variable w : World.
Variable first_ok : nat.
Hypothesis page_ok :
  forall k, first_ok <= k -> exists t, page_answers w k = Returns t.
Hypothesis fs_ok : forall k, fs_answers w k = true.

Lemma page_call_done (op : PageOp) (st : State) :
  first_ok <= page_calls st ->
  exists t, page_call op w st = (Ret t, called [op] st).
Proof.
  intros Hle. destruct (page_ok Hle) as (t & Ht). exists t.
  now apply page_call_ok.
Qed.

Lemma close_returns (st : State) :
  first_ok <= page_calls st ->
  close w st = (Ret tt, called (close_ops st) (record_event EClose st)).
Proof.
  intros Hle. unfold close, close_ops.
  erewrite bind_returned by reflexivity.
  erewrite bind_returned by reflexivity.
  cbn [scraper_browser scraper_pw record_event with_trace].
  destruct (scraper_browser st) eqn:Eb, (scraper_pw st) eqn:Ep.
  - destruct (@page_call_done PwBrowserClose (record_event EClose st) Hle)
      as (t1 & H1).
    erewrite bind_returned
      by (erewrite bind_returned by exact H1; reflexivity).
    erewrite bind_returned by reflexivity.
    cbn [scraper_pw called fold_left count_page record_event with_trace].
    rewrite Ep.
    destruct (@page_call_done PwStop
                (called [PwBrowserClose] (record_event EClose st)))
      as (t2 & H2); [cbn; lia|].
    erewrite bind_returned by exact H2. reflexivity.
  - destruct (@page_call_done PwBrowserClose (record_event EClose st) Hle)
      as (t1 & H1).
    erewrite bind_returned
      by (erewrite bind_returned by exact H1; reflexivity).
    erewrite bind_returned by reflexivity.
    cbn [scraper_pw called fold_left count_page record_event with_trace].
    rewrite Ep. reflexivity.
  - erewrite bind_returned by reflexivity.
    erewrite bind_returned by reflexivity.
    cbn [scraper_pw record_event with_trace]. rewrite Ep.
    destruct (@page_call_done PwStop (record_event EClose st) Hle)
      as (t2 & H2).
    erewrite bind_returned by exact H2. reflexivity.
  - erewrite bind_returned by reflexivity.
    erewrite bind_returned by reflexivity.
    cbn [scraper_pw record_event with_trace]. rewrite Ep. reflexivity.
Qed.

(** The [finally] clause of [run]: close the session if there is one,
    remove the CSV file. *)
Lemma run_cleanup (gpx_scraper : option GPXScraper) (path : string)
  (st : State) :
  first_ok <= page_calls st ->
  exists st',
    (close_if_open gpx_scraper ;; fs_call (FsUnlink path)) w st = (Ret tt, st')
    /\ trace st' = trace st ++ session_closed gpx_scraper st
                             ++ [EFs (FsUnlink path)].
Proof.
  intros Hle.
  destruct gpx_scraper as [[]|]; cbn [close_if_open session_closed].
  - erewrite bind_returned by (apply close_returns; exact Hle).
    rewrite fs_call_ok by apply fs_ok. eexists. split; [reflexivity|].
    cbn [trace fs_calls count_fs record_event with_trace].
    destruct (called_facts (close_ops st) (record_event EClose st))
      as (_ & Ht & _).
    rewrite Ht. cbn [trace record_event with_trace].
    now rewrite <- !app_assoc.
  - erewrite bind_returned by reflexivity.
    rewrite fs_call_ok by apply fs_ok. eexists. split; [reflexivity|].
    reflexivity.
Qed.

Lemma temp_file_returns (prefix suffix : string) (st : State) :
  temp_file prefix suffix w st
  = (Ret (temp_name prefix (fs_calls st) suffix),
     count_fs (record_event (EFs (FsTempFile prefix suffix)) st)).
Proof.
  unfold temp_file. erewrite bind_returned by reflexivity.
  erewrite bind_returned by (apply fs_call_ok, fs_ok). reflexivity.
Qed.

(** The state in which the live branch of [run_publish] enters its
    [try]: the CSV file created and written. *)
Lemma run_publish_live (records : list EnrichmentRecord)
  (gpx_scraper : option GPXScraper) (date : Date) (st : State) :
  exists st1,
    run_publish records gpx_scraper date false w st
    = try_finally
        (get_google_services ;;
         create_and_populate_sheet records date ;;
         match gpx_scraper with
         | Some _ =>
             try_except (upload_csv (csv_name st))
                        (fun e => log (GpxUploadNonFatal e))
         | None => log ScraperNotAvailable
         end)
        (close_if_open gpx_scraper ;; fs_call (FsUnlink (csv_name st)))
        w st1
    /\ trace st1 = trace st ++ csv_written records st
    /\ fs_calls st1 = S (S (fs_calls st))
    /\ google_calls st1 = google_calls st
    /\ page_calls st1 = page_calls st
    /\ scraper_browser st1 = scraper_browser st
    /\ scraper_pw st1 = scraper_pw st.
Proof.
  unfold run_publish.
  erewrite bind_returned by apply temp_file_returns.
  erewrite bind_returned by (apply fs_call_ok, fs_ok).
  eexists. split; [reflexivity|].
  cbn [trace fs_calls google_calls page_calls scraper_browser scraper_pw
       count_fs record_event with_trace].
  rewrite <- app_assoc. repeat split.
Qed.
End WorkingBrowserAndDisk.

(** X16: when the document store cannot be used in a live run - token.json
    is missing, the credentials cannot be loaded, or the upload is refused -
    the run does not reach the console's upload dialog: with a working
    browser and file system, [run_publish] closes the session if there is
    one, removes the CSV file it wrote, and ends with that failure (exit
    status 1 for the missing token). *)
Theorem live_publish_cleans_up_when_store_fails :
  forall (records : list EnrichmentRecord) (gpx_scraper : option GPXScraper)
         (date : Date) (w : World) (st : State),
    (forall k, page_calls st <= k -> exists t, page_answers w k = Returns t) ->
    (forall k, fs_answers w k = true) ->
    let out := run_publish records gpx_scraper date false w st in
    let cleanup := session_closed gpx_scraper st
                   ++ [EFs (FsUnlink (csv_name st))] in
    (token_exists w = false ->
     fst out = Raise (SystemExit 1)
     /\ trace (snd out)
        = trace st ++ csv_written records st ++ [ELog TokenMissing]
          ++ cleanup)
    /\ (token_exists w = true ->
        google_answers w (google_calls st) = Fails ->
        fst out = Raise GoogleError
        /\ trace (snd out)
           = trace st ++ csv_written records st ++ [EGoogleAuth] ++ cleanup)
    /\ (token_exists w = true ->
        (exists t, google_answers w (google_calls st) = Returns t) ->
        google_answers w (S (google_calls st)) = Fails ->
        fst out = Raise GoogleError
        /\ trace (snd out)
           = trace st ++ csv_written records st ++ [EGoogleAuth]
             ++ sheet_uploaded records date st ++ cleanup).
Proof.
  intros records gpx_scraper date w st Hpage Hfs. cbv zeta.
  destruct (@run_publish_live w Hfs records gpx_scraper date st)
    as (st1 & Hrun & Ht1 & Hf1 & Hg1 & Hp1 & Hb1 & Hw1).
  rewrite Hrun. clear Hrun.
  assert (Hclosed : forall s,
             scraper_browser s = scraper_browser st ->
             scraper_pw s = scraper_pw st ->
             session_closed gpx_scraper s = session_closed gpx_scraper st).
  { intros s Hb Hw. unfold session_closed, close_ops. now rewrite Hb, Hw. }
  split; [|split].
  - intros Htok.
    set (s2 := record_event (ELog TokenMissing) st1).
    destruct (@run_cleanup w (page_calls st) Hpage Hfs gpx_scraper
                (csv_name st) s2)
      as (s3 & Hfin & Ht3); [unfold s2; cbn; lia|].
    erewrite try_finally_raised; [| |exact Hfin].
    2:{ apply bind_raised. unfold get_google_services.
        erewrite bind_returned by reflexivity. rewrite Htok.
        erewrite bind_returned by reflexivity. reflexivity. }
    cbn [fst snd]. split; [reflexivity|].
    rewrite Ht3, (Hclosed s2 Hb1 Hw1). unfold s2.
    cbn [trace record_event with_trace]. rewrite Ht1.
    now rewrite <- !app_assoc.
  - intros Htok Hauth.
    set (s2 := count_google (record_event EGoogleAuth st1)).
    destruct (@run_cleanup w (page_calls st) Hpage Hfs gpx_scraper
                (csv_name st) s2)
      as (s3 & Hfin & Ht3); [unfold s2; cbn; lia|].
    erewrite try_finally_raised; [| |exact Hfin].
    2:{ apply bind_raised. unfold get_google_services.
        erewrite bind_returned by reflexivity. rewrite Htok.
        apply bind_raised. unfold google_call. rewrite Hg1, Hauth.
        reflexivity. }
    cbn [fst snd]. split; [reflexivity|].
    rewrite Ht3, (Hclosed s2 Hb1 Hw1). unfold s2.
    cbn [trace count_google record_event with_trace]. rewrite Ht1.
    now rewrite <- !app_assoc.
  - intros Htok (t0 & Hauth) Hcreate.
    set (s2 := count_google (record_event EGoogleAuth st1)).
    assert (Hauth2 : get_google_services w st1 = (Ret tt, s2)).
    { unfold get_google_services.
      erewrite bind_returned by reflexivity. rewrite Htok.
      erewrite bind_returned
        by (apply google_call_ok; rewrite Hg1; exact Hauth).
      reflexivity. }
    destruct (@create_and_populate_sheet_eval records date w s2)
      as (Ht3 & Ho3 & Hp3 & Hb3 & Hw3);
      [apply Hfs | apply Hfs |].
    cbv zeta in Ht3, Ho3.
    rewrite Hfs in Ho3.
    change (google_calls s2) with (S (google_calls st1)) in Ho3.
    rewrite Hg1, Hcreate in Ho3.
    change (fs_calls s2) with (fs_calls st1) in Ht3. rewrite Hf1 in Ht3.
    destruct (create_and_populate_sheet records date w s2) as [o3 s3]
      eqn:Esheet.
    cbn [fst snd] in *. subst o3.
    change (page_calls s2) with (page_calls st1) in Hp3.
    destruct (@run_cleanup w (page_calls st) Hpage Hfs gpx_scraper
                (csv_name st) s3)
      as (s4 & Hfin & Ht4); [lia|].
    erewrite try_finally_raised; [| |exact Hfin].
    2:{ erewrite bind_returned by exact Hauth2.
        apply bind_raised. exact Esheet. }
    cbn [fst snd]. split; [reflexivity|].
    rewrite Ht4, (Hclosed s3); [|now rewrite Hb3 | now rewrite Hw3].
    rewrite Ht3. unfold s2, sheet_uploaded.
    cbn [trace count_google record_event with_trace]. rewrite Ht1.
    now rewrite <- !app_assoc.
Qed.

Lemma live_publish_cleans_up_when_store_fails_witness :
  fst (run_publish [] (Some TheScraper) the_date false no_token_world
                   session_open)
  = Raise (SystemExit 1)
  /\ trace (snd (run_publish [] (Some TheScraper) the_date false
                   no_token_world session_open))
     = [EFs (FsTempFile "shopify_shipment_" ".csv");
        EFs (FsWrite "shopify_shipment_0.csv" (run_rows []));
        ELog TokenMissing;
        EClose; EPage PwBrowserClose; EPage PwStop;
        EFs (FsUnlink "shopify_shipment_0.csv")].
Proof.
  apply (proj1 (@live_publish_cleans_up_when_store_fails
                  [] (Some TheScraper) the_date no_token_world session_open
                  (fun k _ => ex_intro _ EmptyString eq_refl)
                  (fun k => eq_refl))).
  reflexivity.
Defined.

Lemma called_keeps (ops : list PageOp) :
  forall st,
    fs_calls (called ops st) = fs_calls st
    /\ google_calls (called ops st) = google_calls st
    /\ scraper_browser (called ops st) = scraper_browser st
    /\ scraper_pw (called ops st) = scraper_pw st.
Proof.
  induction ops as [|op ops IH]; intros st; cbn [called fold_left];
    [repeat split|].
  fold (called ops (count_page (record_event (EPage op) st))).
  destruct (IH (count_page (record_event (EPage op) st)))
    as (H1 & H2 & H3 & H4).
  rewrite H1, H2, H3, H4. repeat split.
Qed.

Lemma in_turn_all (ops : list PageOp) (w : World) :
  forall st,
    (forall k, k < length ops ->
       exists t, page_answers w (page_calls st + k) = Returns t) ->
    page_calls_in_turn ops w st = (Ret tt, called ops st).
Proof.
  induction ops as [|op ops IH]; intros st H; [reflexivity|].
  cbn [page_calls_in_turn].
  destruct (H 0 ltac:(simpl; lia)) as (t & Ht). rewrite Nat.add_0_r in Ht.
  erewrite bind_returned by (apply page_call_ok; exact Ht).
  rewrite IH; [reflexivity|].
  intros k Hk. destruct (H (S k) ltac:(simpl; lia)) as (t' & Ht').
  exists t'. cbn [called fold_left page_calls count_page record_event
                  with_trace].
  now replace (S (page_calls st) + k) with (page_calls st + S k) by lia.
Qed.

Lemma in_turn_fails (ops : list PageOp) (w : World) :
  forall st j,
    j < length ops ->
    (forall k, k < j ->
       exists t, page_answers w (page_calls st + k) = Returns t) ->
    page_answers w (page_calls st + j) = Fails ->
    page_calls_in_turn ops w st
    = (Raise PlaywrightError, called (firstn (S j) ops) st).
Proof.
  induction ops as [|op ops IH]; intros st j Hj H Hfail; [simpl in Hj; lia|].
  cbn [page_calls_in_turn]. destruct j as [|j].
  - rewrite Nat.add_0_r in Hfail. apply bind_raised.
    unfold page_call. now rewrite Hfail.
  - destruct (H 0 ltac:(lia)) as (t & Ht). rewrite Nat.add_0_r in Ht.
    erewrite bind_returned by (apply page_call_ok; exact Ht).
    rewrite (IH _ j); [reflexivity | simpl in Hj; lia | |].
    + intros k Hk. destruct (H (S k) ltac:(lia)) as (t' & Ht').
      exists t'. cbn [called fold_left page_calls count_page record_event
                      with_trace].
      now replace (S (page_calls st) + k) with (page_calls st + S k) by lia.
    + cbn [called fold_left page_calls count_page record_event with_trace].
      now replace (S (page_calls st) + j) with (page_calls st + S j) by lia.
Qed.

(** Either every call succeeds or there is a first one that fails. *)
Lemma first_failure (w : World) (n : nat) :
  forall base,
    (forall k, k < n -> exists t, page_answers w (base + k) = Returns t)
    \/ (exists j, j < n
                  /\ (forall k, k < j ->
                        exists t, page_answers w (base + k) = Returns t)
                  /\ page_answers w (base + j) = Fails).
Proof.
  induction n as [|n IH]; intros base; [left; intros; lia|].
  destruct (page_answers w (base + 0)) as [t|] eqn:E0.
  - destruct (IH (S base)) as [Hall | (j & Hj & Hbefore & Hfail)].
    + left. intros [|k] Hk; [eauto|].
      replace (base + S k) with (S base + k) by lia. apply Hall. lia.
    + right. exists (S j). split; [lia|]. split.
      * intros [|k] Hk; [eauto|].
        replace (base + S k) with (S base + k) by lia. apply Hbefore. lia.
      * now replace (base + S j) with (S base + j) by lia.
  - right. exists 0. split; [lia|]. split; [intros; lia | exact E0].
Qed.

Lemma upload_csv_in_turn (csv_path : string) :
  upload_csv csv_path
  = try_except
      (page_calls_in_turn (upload_ops csv_path))
      (fun e =>
         page_call (PwScreenshot "/app/screenshots/gpx_upload_error.png") ;;
         log (UploadFailed e) ;;
         raise e).
Proof. reflexivity. Qed.

(** [upload_csv] when its call number [j] fails. *)
Lemma upload_csv_fails (csv_path : string) (w : World) (st : State)
  (j : nat) :
  j < 15 ->
  (forall k, k < j ->
     exists t, page_answers w (page_calls st + k) = Returns t) ->
  page_answers w (page_calls st + j) = Fails ->
  exists st',
    upload_csv csv_path w st = (Raise PlaywrightError, st')
    /\ page_calls st' = page_calls st + S (S j)
    /\ fs_calls st' = fs_calls st
    /\ scraper_browser st' = scraper_browser st
    /\ scraper_pw st' = scraper_pw st
    /\ ((exists t, page_answers w (page_calls st + S j) = Returns t) ->
        trace st' = trace st ++ upload_cut_short csv_path j).
Proof.
  intros Hj Hbefore Hfail. rewrite upload_csv_in_turn. unfold try_except.
  rewrite (@in_turn_fails (upload_ops csv_path) w st j Hj Hbefore Hfail).
  cbn [is_Exception].
  set (s1 := called (firstn (S j) (upload_ops csv_path)) st).
  destruct (called_facts (firstn (S j) (upload_ops csv_path)) st)
    as (Hc1 & Ht1 & _).
  destruct (called_keeps (firstn (S j) (upload_ops csv_path)) st)
    as (Hf1 & _ & Hb1 & Hw1).
  fold s1 in Hc1, Ht1, Hf1, Hb1, Hw1.
  assert (Hlen : length (firstn (S j) (upload_ops csv_path)) = S j)
    by (rewrite length_firstn; cbn [upload_ops length]; lia).
  rewrite Hlen in Hc1.
  unfold bind, page_call, log, emit, raise.
  destruct (page_answers w (page_calls s1)) as [t|] eqn:Eshot;
    cbn [answered fst snd]; eexists; (split; [reflexivity|]);
    cbn [page_calls fs_calls scraper_browser scraper_pw trace count_page
         record_event with_trace];
    (split; [lia|]); (split; [exact Hf1|]); (split; [exact Hb1|]);
    (split; [exact Hw1|]).
  - intros _. rewrite Ht1. unfold upload_cut_short.
    now rewrite <- !app_assoc.
  - intros (t & Ht). rewrite Hc1 in Eshot. congruence.
Qed.

Lemma upload_csv_outcome (csv_path : string) (w : World) (st : State) :
  fst (upload_csv csv_path w st) = Ret tt
  \/ fst (upload_csv csv_path w st) = Raise PlaywrightError.
Proof.
  destruct (first_failure w 15 (page_calls st))
    as [Hall | (j & Hj & Hbefore & Hfail)].
  - left. rewrite upload_csv_in_turn. unfold try_except.
    now rewrite (@in_turn_all (upload_ops csv_path) w st Hall).
  - right. destruct (@upload_csv_fails csv_path w st j Hj Hbefore Hfail)
      as (st' & -> & _). reflexivity.
Qed.

(** X17: a failed bulk update never fails the run.  [upload_csv] returns
    only if its fifteen browser calls all succeed, in the order of
    [upload_ops]; [run] catches whatever it raises, so that step always
    completes.  In a live run where only one call of the upload fails, the
    error screenshot is taken, the failure is logged twice (by [upload_csv]
    and by [run]), the session is closed, the CSV file removed, and the run
    ends normally. *)
Theorem upload_csv_failure_is_not_fatal :
  (forall csv_path w st,
      exists st',
        try_except (upload_csv csv_path)
                   (fun e => log (GpxUploadNonFatal e)) w st
        = (Ret tt, st'))
  /\ (forall csv_path w st,
        fst (upload_csv csv_path w st) = Ret tt
        <-> (forall k, k < 15 ->
               exists t, page_answers w (page_calls st + k) = Returns t))
  /\ (forall csv_path w st,
        fst (upload_csv csv_path w st) = Ret tt ->
        snd (upload_csv csv_path w st) = called (upload_ops csv_path) st)
  /\ (forall records date w st j,
        (forall k, fs_answers w k = true) ->
        token_exists w = true ->
        (forall k, exists t, google_answers w k = Returns t) ->
        j < 15 ->
        page_answers w (page_calls st + j) = Fails ->
        (forall k, k <> page_calls st + j ->
           exists t, page_answers w k = Returns t) ->
        exists st',
          run_publish records (Some TheScraper) date false w st
          = (Ret tt, st')
          /\ trace st'
             = trace st ++ csv_written records st ++ [EGoogleAuth]
               ++ sheet_uploaded records date st
               ++ upload_cut_short (csv_name st) j
               ++ [ELog (GpxUploadNonFatal PlaywrightError)]
               ++ session_closed (Some TheScraper) st
               ++ [EFs (FsUnlink (csv_name st))]).
Proof.
  split; [|split; [|split]].
  - intros csv_path w st. unfold try_except.
    destruct (upload_csv_outcome csv_path w st) as [H|H];
      destruct (upload_csv csv_path w st) as [[[]|e|] s1]; cbn [fst] in H;
      try discriminate.
    + eexists. reflexivity.
    + injection H as ->. cbn [is_Exception]. eexists. reflexivity.
  - intros csv_path w st. split.
    + intros Hret.
      destruct (first_failure w 15 (page_calls st))
        as [Hall | (j & Hj & Hbefore & Hfail)]; [exact Hall|].
      destruct (@upload_csv_fails csv_path w st j Hj Hbefore Hfail)
        as (st' & Hrun & _).
      rewrite Hrun in Hret. discriminate.
    + intros Hall. rewrite upload_csv_in_turn. unfold try_except.
      now rewrite (@in_turn_all (upload_ops csv_path) w st Hall).
  - intros csv_path w st Hret.
    destruct (first_failure w 15 (page_calls st))
      as [Hall | (j & Hj & Hbefore & Hfail)].
    + rewrite upload_csv_in_turn. unfold try_except.
      now rewrite (@in_turn_all (upload_ops csv_path) w st Hall).
    + destruct (@upload_csv_fails csv_path w st j Hj Hbefore Hfail)
        as (st' & Hrun & _).
      rewrite Hrun in Hret. discriminate.
  - intros records date w st j Hfs Htok Hgoogle Hj Hfail Hothers.
    destruct (@run_publish_live w Hfs records (Some TheScraper) date st)
      as (st1 & Hrun & Ht1 & Hf1 & Hg1 & Hp1 & Hb1 & Hw1).
    rewrite Hrun. clear Hrun.
    set (s2 := count_google (record_event EGoogleAuth st1)).
    assert (Hauth : get_google_services w st1 = (Ret tt, s2)).
    { unfold get_google_services.
      erewrite bind_returned by reflexivity. rewrite Htok.
      destruct (Hgoogle (google_calls st1)) as (t0 & Ht0).
      erewrite bind_returned by (apply google_call_ok; exact Ht0).
      reflexivity. }
    destruct (@create_and_populate_sheet_eval records date w s2)
      as (Ht3 & Ho3 & Hp3 & Hb3 & Hw3); [apply Hfs | apply Hfs |].
    cbv zeta in Ht3, Ho3. rewrite Hfs in Ho3.
    destruct (Hgoogle (google_calls s2)) as (id & Hid). rewrite Hid in Ho3.
    change (fs_calls s2) with (fs_calls st1) in Ht3. rewrite Hf1 in Ht3.
    change (page_calls s2) with (page_calls st1) in Hp3.
    change (scraper_browser s2) with (scraper_browser st1) in Hb3.
    change (scraper_pw s2) with (scraper_pw st1) in Hw3.
    destruct (create_and_populate_sheet records date w s2) as [o3 s3]
      eqn:Esheet.
    cbn [fst snd] in *. subst o3.
    assert (Hp3' : page_calls s3 = page_calls st) by congruence.
    destruct (@upload_csv_fails (csv_name st) w s3 j Hj)
      as (s4 & Hup & Hp4 & _ & Hb4 & Hw4 & Ht4).
    { intros k Hk. apply Hothers. lia. }
    { now rewrite Hp3'. }
    specialize (Ht4 ltac:(apply Hothers; lia)).
    set (s5 := record_event (ELog (GpxUploadNonFatal PlaywrightError)) s4).
    destruct (@run_cleanup w (page_calls st + S j)
                ltac:(intros k Hk; apply Hothers; lia) Hfs
                (Some TheScraper) (csv_name st) s5)
      as (s6 & Hfin & Ht6); [unfold s5; cbn; lia|].
    erewrite try_finally_returned; [| |exact Hfin].
    2:{ erewrite bind_returned by exact Hauth.
        erewrite bind_returned by exact Esheet.
        unfold try_except. rewrite Hup. reflexivity. }
    eexists. split; [reflexivity|].
    assert (Hclosed : session_closed (Some TheScraper) s5
                      = session_closed (Some TheScraper) st).
    { unfold session_closed, close_ops, s5.
      cbn [scraper_browser scraper_pw record_event with_trace].
      now rewrite Hb4, Hw4, Hb3, Hw3, Hb1, Hw1. }
    rewrite Ht6, Hclosed. unfold s5. cbn [trace record_event with_trace].
    rewrite Ht4, Ht3. unfold s2, sheet_uploaded.
    cbn [trace count_google record_event with_trace]. rewrite Ht1.
    now rewrite <- !app_assoc.
Qed.

Lemma upload_csv_failure_is_not_fatal_witness :
  exists st',
    run_publish [] (Some TheScraper) the_date false commit_fails_world
                session_open
    = (Ret tt, st')
    /\ trace st'
       = trace session_open ++ csv_written [] session_open ++ [EGoogleAuth]
         ++ sheet_uploaded [] the_date session_open
         ++ upload_cut_short (csv_name session_open) 12
         ++ [ELog (GpxUploadNonFatal PlaywrightError)]
         ++ session_closed (Some TheScraper) session_open
         ++ [EFs (FsUnlink (csv_name session_open))].
Proof.
  apply (proj2 (proj2 (proj2 upload_csv_failure_is_not_fatal))
           [] the_date commit_fails_world session_open 12).
  - reflexivity.
  - reflexivity.
  - intros k. exists "file-1". reflexivity.
  - lia.
  - reflexivity.
  - intros k Hk. exists EmptyString. cbn in *.
    destruct (Nat.eqb_spec k 12); [contradiction | reflexivity].
Defined.

(** ** The payloads of a run, row by row *)

Lemma payloads_since_stable (records : list EnrichmentRecord) (st0 : State) :
  stable (fun e => forall rows, event_payload e = Some rows ->
                                rows = run_rows records)
         (payloads_since records st0).
Proof.
  constructor; try (intros; assumption).
  intros e st He (evs & Ht & Hp). exists (evs ++ [e]).
  cbn [record_event with_trace trace]. rewrite Ht, app_assoc.
  split; [reflexivity|]. apply Forall_app. split; [exact Hp|].
  constructor; [exact He | constructor].
Qed.

Ltac payload_is_rows :=
  let rows := fresh "rows" in
  let H := fresh "H" in
  intros rows H; cbn in H;
  first [ discriminate | injection H as <-; reflexivity ].

Lemma payloads_close (records : list EnrichmentRecord) (st0 : State) :
  inv (payloads_since records st0) close.
Proof.
  unfold close.
  inv_walk (payloads_since_stable records st0) ltac:(payload_is_rows)
           ltac:(fail).
Qed.

Lemma payloads_upload_csv (records : list EnrichmentRecord) (st0 : State)
  (path : string) :
  inv (payloads_since records st0) (upload_csv path).
Proof.
  unfold upload_csv.
  inv_walk (payloads_since_stable records st0) ltac:(payload_is_rows)
           ltac:(fail).
Qed.

Lemma payloads_run_publish (records : list EnrichmentRecord) (st0 : State)
  (gpx_scraper : option GPXScraper) (date : Date) (dry_run : bool) :
  inv (payloads_since records st0)
      (run_publish records gpx_scraper date dry_run).
Proof.
  unfold run_publish, close_if_open, temp_file, create_and_populate_sheet,
    get_google_services, temp_file.
  inv_walk (payloads_since_stable records st0) ltac:(payload_is_rows)
           ltac:(first [apply payloads_close | apply payloads_upload_csv]).
Qed.

Lemma session_event_no_payload (e : Event) :
  is_session_event e = true -> event_payload e = None.
Proof.
  destruct e as [| | | |op| | |]; cbn; try reflexivity; try discriminate.
  destruct op; cbn; try reflexivity; discriminate.
Qed.

Lemma parse_orders_fresh (orders : list Json) :
  Forall fresh_record (parse_orders orders).
Proof.
  rewrite parse_orders_flat. apply Forall_flat_map.
  apply Forall_forall. intros o _. rewrite parse_orders_single.
  destruct (extract_serial_numbers (notes_of o)) as [|sn sns].
  - repeat constructor.
  - match goal with
    | |- Forall _ (serial_records ?a ?b ?c ?d) =>
        apply (Forall_impl _ (P := fun r => fresh_record r
                                 /\ raw_notes r = EmptyString
                                 /\ order_number r = b));
          [|apply serial_records_fresh]
    end.
    now intros r [H _].
Qed.

Lemma run_rows_of_records (parsed enriched : list EnrichmentRecord) :
  Forall fresh_record parsed ->
  Forall2 same_identity parsed enriched ->
  exists data,
    run_rows enriched = SHEET_HEADERS :: data /\ rows_of_records parsed data.
Proof.
  intros Hfresh Hsame. unfold run_rows. eexists. split; [reflexivity|].
  unfold rows_of_records. rewrite length_map, map_map. cbn [nth].
  split; [symmetry; exact (Forall2_length Hsame)|].
  split.
  - clear Hfresh. induction Hsame as [|r0 r l l' Hr _ IH]; [reflexivity|].
    cbn [map]. rewrite IH. f_equal. apply Hr.
  - apply Forall_map. cbn [nth].
    induction Hsame as [|r0 r l l' Hr _ IH]; [constructor|].
    inversion Hfresh as [|? ? Hf0 Hfl]; subst.
    constructor; [|now apply IH].
    destruct Hr as (_ & _ & Hst & _ & _ & Hret & _).
    destruct Hf0 as (_ & _ & _ & Hr0 & Hs0).
    split; [destruct Hret; congruence | congruence].
Qed.

(** X18: every file written and every upload made in a run holds the same
    rows: the header, then one row per record of [parse_orders] applied to
    the orders fetched, in that order, with the record's serial in column C,
    shopify in column H and unassigned in column I. *)
Theorem run_payloads_list_the_parsed_serials :
  forall (fuel : nat) (target_date : option Date) (dry_run : bool)
         (w : World) (st st1 : State) (orders : list Json),
    get_shipped_orders fuel (effective_date w target_date) (store_id w)
                       w st
    = (Ret orders, st1) ->
    exists evs,
      trace (snd (run fuel target_date dry_run w st)) = trace st1 ++ evs
      /\ (forall e rows,
            In e evs -> event_payload e = Some rows ->
            exists data,
              rows = SHEET_HEADERS :: data
              /\ rows_of_records (parse_orders orders) data)
      /\ (forall e e' rows rows',
            In e evs -> In e' evs ->
            event_payload e = Some rows -> event_payload e' = Some rows' ->
            rows = rows').
Proof.
  intros fuel target_date dry_run w st st1 orders Hget.
  rewrite run_eval. cbv zeta. rewrite Hget.
  destruct orders as [|o orders].
  { exists [ELog NoShippedOrders]. split; [reflexivity|].
    split; intros; repeat match goal with
                          | H : In _ [_] |- _ => destruct H as [<-|[]]
                          end; discriminate. }
  destruct (parse_orders (o :: orders)) as [|r records] eqn:Ep;
    [now elim (parse_orders_not_nil o orders)|].
  rewrite <- Ep.
  set (parsed := parse_orders (o :: orders)).
  pose proof (@since_enrich_with_gpx st1 parsed w st1
                (events_since_refl _ st1)) as (evs2 & Ht2 & Hp2).
  assert (Hquiet : forall e rows, In e evs2 ->
                                  event_payload e = Some rows -> False).
  { intros e rows He Hrows. rewrite forallb_forall in Hp2.
    rewrite (session_event_no_payload e (Hp2 e He)) in Hrows.
    discriminate. }
  pose proof (@enrich_with_gpx_identity parsed w st1) as Hid.
  destruct (enrich_with_gpx parsed w st1) as [[en|e|] s2]; cbn [fst snd] in *.
  - pose proof (@payloads_run_publish (fst en) s2 (snd en)
                  (effective_date w target_date) dry_run w s2)
      as (evs3 & Ht3 & Hp3).
    { exists []. split; [now rewrite app_nil_r | constructor]. }
    exists (evs2 ++ evs3). rewrite Ht3, Ht2, app_assoc.
    split; [reflexivity|].
    rewrite Forall_forall in Hp3.
    assert (Hrows : forall e rows, In e (evs2 ++ evs3) ->
                      event_payload e = Some rows ->
                      rows = run_rows (fst en)).
    { intros e rows He Hr. apply in_app_or in He as [He|He].
      - now elim (Hquiet e rows).
      - now apply (Hp3 e He). }
    split.
    + intros e rows He Hr. rewrite (Hrows e rows He Hr).
      apply run_rows_of_records;
        [apply parse_orders_fresh | now apply Hid].
    + intros e e' rows rows' He He' Hr Hr'.
      now rewrite (Hrows e rows He Hr), (Hrows e' rows' He' Hr').
  - exists evs2. split; [exact Ht2|].
    split; intros; exfalso; eauto.
  - exists evs2. split; [exact Ht2|].
    split; intros; exfalso; eauto.
Qed.

Lemma run_payloads_list_the_parsed_serials_witness :
  exists evs,
    trace (snd (run 5 (Some the_date) true (disk_fails_at 99) initial_state))
    = trace (snd (get_shipped_orders 5 the_date 42 (disk_fails_at 99)
                    initial_state)) ++ evs
    /\ (forall e rows,
          In e evs -> event_payload e = Some rows ->
          exists data,
            rows = SHEET_HEADERS :: data
            /\ rows_of_records (parse_orders [order_1007]) data)
    /\ (forall e e' rows rows',
          In e evs -> In e' evs ->
          event_payload e = Some rows -> event_payload e' = Some rows' ->
          rows = rows').
Proof.
  apply (@run_payloads_list_the_parsed_serials 5 (Some the_date) true
           (disk_fails_at 99) initial_state _ [order_1007]).
  vm_compute. reflexivity.
Defined.

(** ** Sessions begun, sessions closed *)

Lemma counts_app (evs evs' : list Event) :
  open_count (evs ++ evs') = open_count evs + open_count evs'
  /\ close_count (evs ++ evs') = close_count evs + close_count evs'.
Proof.
  unfold open_count, close_count. now rewrite !filter_app, !length_app.
Qed.

Lemma counts_neutral (evs : list Event) :
  forallb is_neutral evs = true -> open_count evs = 0 /\ close_count evs = 0.
Proof.
  unfold open_count, close_count.
  induction evs as [|e evs IH]; cbn [forallb filter]; [now split|].
  intros H. apply andb_prop in H as [He H]. destruct (IH H) as [IH1 IH2].
  unfold is_neutral in He. apply negb_true_iff, orb_false_iff in He as [-> ->].
  now split.
Qed.

Lemma marks_refl (st : State) : marks_since 0 0 st st.
Proof. exists []. now rewrite app_nil_r. Qed.

Lemma marks_trans (o1 c1 o2 c2 : nat) (st0 st1 st2 : State) :
  marks_since o1 c1 st0 st1 -> marks_since o2 c2 st1 st2 ->
  marks_since (o1 + o2) (c1 + c2) st0 st2.
Proof.
  intros (e1 & H1 & O1 & C1) (e2 & H2 & O2 & C2). exists (e1 ++ e2).
  destruct (counts_app e1 e2) as [-> ->].
  rewrite H2, H1, app_assoc. repeat split; congruence.
Qed.

Lemma marks_neutral (st0 st : State) :
  events_since is_neutral st0 st -> marks_since 0 0 st0 st.
Proof.
  intros (evs & Ht & Hp). exists evs.
  destruct (counts_neutral evs Hp) as [-> ->]. now repeat split.
Qed.

Lemma marks_event (e : Event) (st : State) :
  marks_since (if is_open e then 1 else 0) (if is_close e then 1 else 0)
              st (record_event e st).
Proof.
  exists [e]. split; [reflexivity|]. unfold open_count, close_count.
  cbn [filter]. now destruct (is_open e), (is_close e).
Qed.

Lemma api_is_neutral (e : Event) :
  is_api_event e = true -> is_neutral e = true.
Proof. destruct e as [| |[]| | | | |]; cbn; congruence. Qed.

Lemma neutral_get_shipped_orders (fuel : nat) (date : Date) (sid : nat) :
  neutral (get_shipped_orders fuel date sid).
Proof.
  intros st0 w st H. apply (events_since_trans H).
  apply (@events_since_weaken _ _ _ _ api_is_neutral).
  apply since_get_shipped_orders, events_since_refl.
Qed.

Lemma neutral_dismiss_popup (texts : list string) :
  neutral (dismiss_popup texts).
Proof.
  intros st0. induction texts as [|t rest IH]; cbn [dismiss_popup];
    since_walk ltac:(exact IH).
Qed.

Lemma neutral_login : neutral _login.
Proof.
  intros st0. unfold _login.
  since_walk ltac:(apply neutral_dismiss_popup).
Qed.

Lemma neutral_lookup_serial (serial : string) : neutral (lookup_serial serial).
Proof.
  intros st0.
  unfold lookup_serial, lookup_try, lookup_search, lookup_extract,
    clear_search.
  since_walk ltac:(fail).
Qed.

Lemma neutral_lookup_loop (to_lookup : list nat) :
  neutral (lookup_loop to_lookup).
Proof.
  intros st0. induction to_lookup as [|i rest IH]; cbn [lookup_loop];
    since_walk ltac:(first [apply neutral_lookup_serial | exact IH]).
Qed.

Lemma neutral_upload_csv (path : string) : neutral (upload_csv path).
Proof. intros st0. unfold upload_csv. since_walk ltac:(fail). Qed.

(** [start] begins one session, whatever comes of it. *)
Lemma start_marks (w : World) (st : State) :
  marks_since 1 0 st (snd (start w st)).
Proof.
  assert (Hrest : neutral (set_pw true ;;
                           headless <- ask headless_cfg ;;
                           page_call (PwLaunch headless) ;;
                           set_browser true ;;
                           page_call PwNewContext ;;
                           page_call PwNewPage ;;
                           _login)).
  { intros st0. since_walk ltac:(apply neutral_login). }
  set (s0 := count_page (record_event (EPage PwStart) st)).
  assert (H0 : marks_since 1 0 st s0)
    by (exists [EPage PwStart]; repeat split).
  unfold start, bind at 1, page_call. fold s0.
  destruct (page_answers w (page_calls st)) as [t|]; cbn [answered];
    [|exact H0].
  apply (marks_trans H0 (o2 := 0) (c2 := 0)). apply marks_neutral.
  apply Hrest, events_since_refl.
Qed.

(** [close] is entered once, whatever comes of it. *)
Lemma close_marks (w : World) (st : State) :
  marks_since 0 1 st (snd (close w st)).
Proof.
  assert (Hrest : neutral (browser <- get_state scraper_browser ;;
                           (if browser
                            then page_call PwBrowserClose ;; ret tt
                            else ret tt) ;;
                           pw <- get_state scraper_pw ;;
                           (if pw then page_call PwStop ;; ret tt
                            else ret tt))).
  { intros st0. since_walk ltac:(fail). }
  assert (H0 : marks_since 0 1 st (record_event EClose st))
    by (exists [EClose]; repeat split).
  unfold close, bind at 1. cbn [emit].
  apply (marks_trans H0 (o2 := 0) (c2 := 0)). apply marks_neutral.
  apply Hrest, events_since_refl.
Qed.

Lemma closes_ret (A : Type) (a : A) : closes 0 (ret a).
Proof.
  intros w st. exists 0. split; [apply marks_refl|]. split; [lia | reflexivity].
Qed.

Lemma closes_close : closes 1 close.
Proof.
  intros w st. exists 1. split; [apply close_marks|]. split; [lia|reflexivity].
Qed.

Lemma closes_close_if_open (gpx_scraper : option GPXScraper) :
  closes (match gpx_scraper with Some _ => 1 | None => 0 end) (close_if_open gpx_scraper).
Proof.
  destruct gpx_scraper; cbn [close_if_open];
    [apply closes_close | apply closes_ret].
Qed.

Lemma closes_after_neutral (A B : Type) (n : nat) (m : M A) (f : A -> M B) :
  neutral m -> (forall a, closes n (f a)) -> closes n (bind m f).
Proof.
  intros Hm Hf w st. unfold bind.
  pose proof (marks_neutral (Hm st w st (events_since_refl _ st))) as H1.
  destruct (m w st) as [[a|e|] s1]; cbn [fst snd] in *.
  - destruct (Hf a w s1) as (c & Hc & Hle & Hex). exists c.
    split; [exact (marks_trans H1 Hc) | now split].
  - exists 0. split; [exact H1|]. split; [lia|].
    intros (b & Hb). discriminate.
  - exists 0. split; [exact H1|]. split; [lia|].
    intros (b & Hb). discriminate.
Qed.

Lemma closes_then_neutral (A B : Type) (n : nat) (m : M A) (f : A -> M B) :
  closes n m -> (forall a, neutral (f a)) -> closes n (bind m f).
Proof.
  intros Hm Hf w st. unfold bind.
  destruct (Hm w st) as (c & Hc & Hle & Hex).
  destruct (m w st) as [[a|e|] s1]; cbn [fst snd] in *.
  - pose proof (marks_neutral (Hf a s1 w s1 (events_since_refl _ s1))) as H2.
    exists c. split.
    + replace c with (c + 0) by lia. exact (marks_trans Hc H2).
    + split; [exact Hle|]. intros _. apply Hex. eauto.
  - exists c. split; [exact Hc|]. split; [exact Hle|].
    intros (b & Hb). discriminate.
  - exists c. split; [exact Hc|]. split; [exact Hle|].
    intros (b & Hb). discriminate.
Qed.

Lemma closes_try_finally (A : Type) (n : nat) (body : M A) (fin : M unit) :
  neutral body -> closes n fin -> closes n (try_finally body fin).
Proof.
  intros Hb Hf w st. unfold try_finally.
  pose proof (marks_neutral (Hb st w st (events_since_refl _ st))) as H1.
  destruct (body w st) as [[a|e|] s1]; cbn [fst snd] in *.
  - destruct (Hf w s1) as (c & Hc & Hle & Hex).
    destruct (fin w s1) as [[[]|e'|] s2]; cbn [fst snd] in *;
      exists c; (split; [exact (marks_trans H1 Hc)|]); (split; [exact Hle|]).
    + intros _. apply Hex. eauto.
    + intros (b & Hb'). discriminate.
    + intros (b & Hb'). discriminate.
  - destruct (Hf w s1) as (c & Hc & Hle & Hex).
    destruct (fin w s1) as [[[]|e'|] s2]; cbn [fst snd] in *;
      exists c; (split; [exact (marks_trans H1 Hc)|]); (split; [exact Hle|]);
      intros (b & Hb'); discriminate.
  - exists 0. split; [exact H1|]. split; [lia|].
    intros (b & Hb'). discriminate.
Qed.

Lemma closes_run_publish (records : list EnrichmentRecord)
  (gpx_scraper : option GPXScraper) (date : Date) (dry_run : bool) :
  closes (match gpx_scraper with Some _ => 1 | None => 0 end)
         (run_publish records gpx_scraper date dry_run).
Proof.
  unfold run_publish.
  apply closes_after_neutral;
    [intros st0; unfold temp_file; since_walk ltac:(fail)|]. intros csv_path.
  apply closes_after_neutral; [intros st0; since_walk ltac:(fail)|].
  intros _. destruct dry_run.
  - apply closes_after_neutral; [intros st0; since_walk ltac:(fail)|].
    intros _. apply closes_then_neutral; [apply closes_close_if_open|].
    intros _ st0. since_walk ltac:(fail).
  - apply closes_try_finally.
    + intros st0.
      unfold get_google_services, create_and_populate_sheet, temp_file.
      since_walk ltac:(apply neutral_upload_csv).
    + apply closes_then_neutral; [apply closes_close_if_open|].
      intros _ st0. since_walk ltac:(fail).
Qed.

(** What [enrich_with_gpx] does to the session, by the way it ends. *)
Lemma enrich_with_gpx_marks (records : list EnrichmentRecord) (w : World)
  (st : State) :
  let o := match to_lookup_from 0 records with [] => 0 | _ :: _ => 1 end in
  exists c,
    marks_since o c st (snd (enrich_with_gpx records w st))
    /\ c <= o
    /\ (forall rs, fst (enrich_with_gpx records w st)
                   = Ret (rs, Some TheScraper) -> o = 1 /\ c = 0)
    /\ (forall rs, fst (enrich_with_gpx records w st) = Ret (rs, None) ->
                   c = o).
Proof.
  rewrite enrich_with_gpx_eval.
  assert (Hfail : forall e s,
             exists c,
               marks_since 0 c s (snd (enrich_failure w e s))
               /\ c <= 1
               /\ (forall rs, fst (enrich_failure w e s)
                              <> Ret (rs, Some TheScraper))
               /\ (forall rs, fst (enrich_failure w e s) = Ret (rs, None) ->
                              c = 1)).
  { intros e s. unfold enrich_failure. destruct (is_Exception e).
    - pose proof (close_marks w (record_event (ELog (GpxLookupFailed e)) s))
        as Hc.
      assert (Hm : marks_since 0 1 s
                     (snd (close w (record_event
                                      (ELog (GpxLookupFailed e)) s))))
        by exact (marks_trans
                    (marks_event (ELog (GpxLookupFailed e)) s) Hc).
      exists 1.
      destruct (close w _) as [[[]|e'|] s']; cbn [fst snd] in *;
        (split; [exact Hm|]); (split; [lia|]); split; congruence.
    - exists 0. split; [apply marks_refl|]. split; [lia|].
      split; discriminate. }
  destruct (to_lookup_from 0 records) as [|i rest]; cbv zeta.
  - exists 0. split.
    + exact (marks_event (ELog NoSerialsToLookUp) (with_records records st)).
    + split; [lia|]. split; [discriminate | reflexivity].
  - pose proof (start_marks w (before_start records st)) as Hs.
    assert (Hs' : marks_since 1 0 st (snd (start w (before_start records st))))
      by exact Hs.
    clear Hs. destruct (start w _) as [[[]|e|] s1]; cbn [snd] in Hs'.
    + pose proof (marks_neutral
                    (@neutral_lookup_loop (i :: rest) s1 w s1
                       (events_since_refl _ s1))) as Hl.
      assert (Hsl : marks_since 1 0 st
                      (snd (lookup_loop (i :: rest) w s1)))
        by exact (marks_trans Hs' Hl).
      destruct (lookup_loop (i :: rest) w s1) as [[[]|e|] s2];
        cbn [fst snd] in *.
      * exists 0. split; [exact Hsl|]. split; [lia|].
        split; [now split | discriminate].
      * destruct (Hfail e s2) as (c & Hc & Hle & Hno & Hyes).
        exists c. split; [exact (marks_trans Hsl Hc)|].
        split; [lia|]. split.
        -- intros rs H. now elim (Hno rs).
        -- intros rs H. exact (Hyes rs H).
      * exists 0. split; [exact Hsl|]. split; [lia|].
        split; discriminate.
    + destruct (Hfail e s1) as (c & Hc & Hle & Hno & Hyes).
      exists c. split.
      * replace c with (0 + c) by lia. exact (marks_trans Hs' Hc).
      * split; [lia|]. split.
        -- intros rs H. now elim (Hno rs).
        -- intros rs H. exact (Hyes rs H).
    + exists 0. split; [exact Hs'|]. split; [lia|].
      split; discriminate.
Qed.

(** X19. [enrich_with_gpx] starts at most one console session, and it
    starts one exactly when some record has a serial to look up.  When
    it hands the scraper back the session is still open; when it hands
    back no scraper, every session it started has been closed, once. *)
Theorem enrich_with_gpx_returns_or_closes_session :
  forall (records : list EnrichmentRecord) (w : World) (st : State),
    exists evs,
      trace (snd (enrich_with_gpx records w st)) = trace st ++ evs
      /\ close_count evs <= open_count evs <= 1
      /\ (open_count evs = 1 <-> to_lookup_from 0 records <> [])
      /\ (forall rs,
            fst (enrich_with_gpx records w st) = Ret (rs, Some TheScraper) ->
            open_count evs = 1 /\ close_count evs = 0)
      /\ (forall rs,
            fst (enrich_with_gpx records w st) = Ret (rs, None) ->
            close_count evs = open_count evs).
Proof.
  intros records w st.
  destruct (enrich_with_gpx_marks records w st)
    as (c & (evs & Ht & Ho & Hc) & Hle & Hsome & Hnone).
  exists evs. split; [exact Ht|]. rewrite Ho, Hc.
  split; [|split; [|split; assumption]].
  - destruct (to_lookup_from 0 records); lia.
  - destruct (to_lookup_from 0 records); split; congruence.
Qed.

(** X20. Whatever the services answer, [run] starts at most one console
    session and never closes more sessions than it started; a run that
    returns has closed the session it started, once. *)
Theorem run_closes_each_session_once :
  forall (fuel : nat) (target_date : option Date) (dry_run : bool)
         (w : World) (st : State),
    exists evs,
      trace (snd (run fuel target_date dry_run w st)) = trace st ++ evs
      /\ close_count evs <= open_count evs <= 1
      /\ (fst (run fuel target_date dry_run w st) = Ret tt ->
          close_count evs = open_count evs).
Proof.
  intros fuel target_date dry_run w st.
  enough (H : exists o c,
             marks_since o c st (snd (run fuel target_date dry_run w st))
             /\ c <= o <= 1
             /\ (fst (run fuel target_date dry_run w st) = Ret tt -> c = o)).
  { destruct H as (o & c & (evs & Ht & Ho & Hc) & Hle & Hret).
    exists evs. rewrite Ho, Hc. now repeat split. }
  rewrite run_eval. cbv zeta.
  set (date := effective_date w target_date).
  pose proof (marks_neutral
                (@neutral_get_shipped_orders fuel date (store_id w) st w st
                   (events_since_refl _ st))) as H1.
  destruct (get_shipped_orders fuel date (store_id w) w st)
    as [[[|o orders]|e|] st1]; cbn [fst snd] in *.
  - exists 0, 0. split; [|split; [lia | reflexivity]].
    exact (marks_trans H1 (marks_event (ELog NoShippedOrders) st1)).
  - destruct (parse_orders (o :: orders)) as [|r records] eqn:Ep;
      [now elim (parse_orders_not_nil o orders)|].
    destruct (enrich_with_gpx_marks (r :: records) w st1)
      as (c & Hm & Hle & Hsome & Hnone).
    cbv zeta in Hm, Hle, Hsome, Hnone.
    set (n := match to_lookup_from 0 (r :: records) with
              | [] => 0
              | _ :: _ => 1
              end) in *.
    assert (Hn : n <= 1) by (unfold n; destruct (to_lookup_from 0 _); lia).
    pose proof (marks_trans H1 Hm) as H2. cbn [Nat.add] in H2.
    destruct (enrich_with_gpx (r :: records) w st1) as [[[rs sc]|e|] st2];
      cbn [fst snd] in *.
    + destruct (closes_run_publish rs sc date dry_run w st2)
        as (c' & Hc' & Hle' & Hex').
      exists n, (c + c'). split.
      * replace n with (n + 0) by lia. exact (marks_trans H2 Hc').
      * destruct sc as [[]|].
        -- destruct (Hsome rs eq_refl) as [-> ->].
           split; [lia|]. intros Hret. rewrite Hex' by eauto. reflexivity.
        -- rewrite (Hnone rs eq_refl). split; [lia|]. intros _. lia.
    + exists n, c. split; [exact H2|]. split; [lia | discriminate].
    + exists n, c. split; [exact H2|]. split; [lia | discriminate].
  - exists 0, 0. split; [exact H1|]. split; [lia | discriminate].
  - exists 0, 0. split; [exact H1|]. split; [lia | discriminate].
Qed.

(** ** Logging in *)

Lemma clicks_tried_le (w : World) (n : nat) :
  forall p, clicks_tried w p n <= n.
Proof.
  induction n as [|n IH]; intros p; cbn [clicks_tried]; [lia|].
  destruct (page_answers w p); [lia|]. specialize (IH (S p)). lia.
Qed.

Lemma dismiss_popup_clicks (w : World) (texts : list string) :
  forall st,
    dismiss_popup texts w st
    = (Ret tt,
       called (map (fun t => PwClick (SelText t))
                   (firstn (clicks_tried w (page_calls st) (length texts))
                           texts)) st).
Proof.
  induction texts as [|t rest IH]; intros st; [reflexivity|].
  cbn [dismiss_popup length clicks_tried].
  unfold bind at 1, try_except, bind at 1, page_call.
  destruct (page_answers w (page_calls st)) as [t0|]; cbn [answered].
  - reflexivity.
  - cbn [is_Exception ret]. rewrite IH. reflexivity.
Qed.

(** X21. Logging in does not depend on the passkey prompt.
    [_dismiss_popup] always returns, having clicked the texts in order up
    to the first click that succeeds.  [_login] returns as soon as the
    form steps and the last screenshot succeed, whichever of the prompt's
    buttons are there.  A form step that fails makes [_login] raise the
    browser's error after it has tried the error screenshot, and the
    failure is logged when that screenshot succeeds. *)
Theorem login_does_not_depend_on_passkey_prompt :
  (forall (texts : list string) (w : World) (st : State),
      let n := clicks_tried w (page_calls st) (length texts) in
      dismiss_popup texts w st
      = (Ret tt,
         called (map (fun t => PwClick (SelText t)) (firstn n texts)) st)
      /\ n <= length texts
      /\ (forall k, S k < n -> page_answers w (page_calls st + k) = Fails)
      /\ (n < length texts ->
          exists t, page_answers w (page_calls st + (n - 1)) = Returns t))
  /\ (forall (w : World) (st : State),
        fs_answers w (fs_calls st) = true ->
        (forall k, k < 5 ->
           exists t, page_answers w (page_calls st + k) = Returns t) ->
        let n := clicks_tried w (page_calls st + 5) 5 in
        (exists t, page_answers w (page_calls st + 5 + n) = Returns t) ->
        exists st',
          _login w st = (Ret tt, st')
          /\ trace st'
             = trace st
               ++ [EPage (PwGoto GPX_ADMIN_URL);
                   EFs (FsMakedirs "/app/screenshots")]
               ++ map EPage (tl (login_form_ops w))
               ++ map (fun t => EPage (PwClick (SelText t)))
                      (firstn n dismiss_texts)
               ++ [EPage (PwScreenshot
                            "/app/screenshots/02_after_login.png")])
  /\ (forall (w : World) (st : State) (j : nat),
        fs_answers w (fs_calls st) = true ->
        1 <= j <= 4 ->
        (forall k, k < j ->
           exists t, page_answers w (page_calls st + k) = Returns t) ->
        page_answers w (page_calls st + j) = Fails ->
        fst (_login w st) = Raise PlaywrightError
        /\ In (EPage (PwScreenshot "/app/screenshots/02_login_error.png"))
              (trace (snd (_login w st)))
        /\ ((exists t, page_answers w (page_calls st + S j) = Returns t) ->
            In (ELog (LoginFailed PlaywrightError))
               (trace (snd (_login w st))))).
Proof.
  split; [|split].
  - intros texts w st n. split; [apply dismiss_popup_clicks|].
    split; [apply clicks_tried_le|]. unfold n. clear n.
    generalize (page_calls st). clear st.
    induction texts as [|t rest IH]; intros p; cbn [length clicks_tried].
    + split; [intros; lia | intros; lia].
    + destruct (page_answers w p) as [t0|] eqn:E.
      * split; [intros; lia|]. intros _. exists t0.
        now rewrite Nat.sub_diag, Nat.add_0_r.
      * destruct (IH (S p)) as [Hfail Hlast]. split.
        -- intros [|k] Hk; [now rewrite Nat.add_0_r|].
           replace (p + S k) with (S p + k) by lia. apply Hfail. lia.
        -- intros Hn. destruct Hlast as (t1 & Ht1); [lia|]. exists t1.
           pose proof (clicks_tried_le w (length rest) (S p)) as Hle.
           destruct (clicks_tried w (S p) (length rest)) as [|m] eqn:Em.
           ++ destruct rest; cbn in Em, Hn; [lia|].
              destruct (page_answers w (S p)); discriminate.
           ++ cbn [Nat.sub] in *. rewrite Nat.sub_0_r in *.
              now replace (p + S m) with (S p + m) by lia.
  - intros w st Hfs Hform.
    replace (page_calls st + 5) with (S (S (S (S (S (page_calls st))))))
      by lia.
    intros n Hshot.
    destruct (Hform 0 ltac:(lia)) as (t0 & H0). rewrite Nat.add_0_r in H0.
    destruct (Hform 1 ltac:(lia)) as (t1 & H1).
    destruct (Hform 2 ltac:(lia)) as (t2 & H2).
    destruct (Hform 3 ltac:(lia)) as (t3 & H3).
    destruct (Hform 4 ltac:(lia)) as (t4 & H4).
    replace (page_calls st + 1) with (S (page_calls st)) in H1 by lia.
    replace (page_calls st + 2) with (S (S (page_calls st))) in H2 by lia.
    replace (page_calls st + 3) with (S (S (S (page_calls st)))) in H3
      by lia.
    replace (page_calls st + 4) with (S (S (S (S (page_calls st))))) in H4
      by lia.
    destruct Hshot as (t5 & H5).
    unfold _login.
    erewrite bind_returned by (apply page_call_ok; exact H0).
    erewrite bind_returned by (apply fs_call_ok; exact Hfs).
    set (s2 := count_fs (record_event (EFs (FsMakedirs "/app/screenshots"))
                           (called [PwGoto GPX_ADMIN_URL] st))).
    set (s6 := called (tl (login_form_ops w)) s2).
    set (clicks := map (fun t => PwClick (SelText t))
                       (firstn n dismiss_texts)).
    assert (Hlen : length clicks = n).
    { unfold clicks. rewrite length_map, length_firstn.
      pose proof (clicks_tried_le w 5 (S (S (S (S (S (page_calls st)))))))
        as Hle.
      fold n in Hle. cbn [dismiss_texts length]. lia. }
    destruct (called_facts clicks s6) as (Hc7 & Ht7 & _).
    rewrite Hlen in Hc7.
    erewrite try_except_returned.
    2:{ erewrite bind_returned by reflexivity.
        erewrite bind_returned by (apply page_call_ok; exact H1).
        erewrite bind_returned by reflexivity.
        erewrite bind_returned by (apply page_call_ok; exact H2).
        erewrite bind_returned by (apply page_call_ok; exact H3).
        erewrite bind_returned by (apply page_call_ok; exact H4).
        erewrite bind_returned by apply dismiss_popup_clicks.
        erewrite bind_returned
          by (apply page_call_ok;
              refine (eq_trans (f_equal (page_answers w) _) H5);
              exact Hc7).
        reflexivity. }
    eexists. split; [reflexivity|].
    match goal with
    | |- trace ?X = _ =>
        change X
          with (called [PwScreenshot "/app/screenshots/02_after_login.png"]
                       (called clicks s6))
    end.
    cbn [called fold_left trace count_page record_event with_trace].
    fold (called clicks s6). rewrite Ht7. unfold clicks. rewrite map_map.
    unfold s6, s2, login_form_ops.
    cbn [tl called fold_left trace count_page count_fs record_event
         with_trace map].
    now rewrite <- !app_assoc.
  - intros w st j Hfs Hj Hbefore Hfail.
    destruct (Hbefore 0 ltac:(lia)) as (t0 & H0). rewrite Nat.add_0_r in H0.
    unfold _login.
    erewrite bind_returned by (apply page_call_ok; exact H0).
    erewrite bind_returned by (apply fs_call_ok; exact Hfs).
    set (s2 := count_fs (record_event (EFs (FsMakedirs "/app/screenshots"))
                           (called [PwGoto GPX_ADMIN_URL] st))).
    assert (Hbody : exists s3,
               (username <- ask gpx_username ;;
                page_call (PwFill SelEmail username) ;;
                password <- ask gpx_password ;;
                page_call (PwFill SelPassword password) ;;
                page_call (PwClick SelSubmit) ;;
                page_call PwWaitLoad ;;
                dismiss_popup
                  ["Not now"; "Don't ask again"; "No thanks"; "Skip";
                   "Close"] ;;
                page_call (PwScreenshot "/app/screenshots/02_after_login.png") ;;
                ret tt) w s2
               = (Raise PlaywrightError, s3)
               /\ page_calls s3 = page_calls st + S j).
    { assert (Hk : forall k, k < j ->
                exists t, page_answers w (k + page_calls st) = Returns t)
        by (intros k Hk; rewrite Nat.add_comm; now apply Hbefore).
      rewrite Nat.add_comm in Hfail.
      erewrite bind_returned by reflexivity.
      destruct j as [|[|[|[|[|j]]]]]; try lia; cbn [Nat.add] in Hfail.
      - eexists. split.
        + apply bind_raised. unfold page_call. cbn [page_calls s2 called
            fold_left count_page count_fs record_event with_trace].
          rewrite Hfail. reflexivity.
        + cbn. lia.
      - destruct (Hk 1 ltac:(lia)) as (t1 & H1). cbn [Nat.add] in H1.
        erewrite bind_returned by (apply page_call_ok; exact H1).
        erewrite bind_returned by reflexivity.
        eexists. split.
        + apply bind_raised. unfold page_call. cbn [page_calls s2 called
            fold_left count_page count_fs record_event with_trace].
          rewrite Hfail. reflexivity.
        + cbn. lia.
      - destruct (Hk 1 ltac:(lia)) as (t1 & H1). cbn [Nat.add] in H1.
        destruct (Hk 2 ltac:(lia)) as (t2 & H2). cbn [Nat.add] in H2.
        erewrite bind_returned by (apply page_call_ok; exact H1).
        erewrite bind_returned by reflexivity.
        erewrite bind_returned by (apply page_call_ok; exact H2).
        eexists. split.
        + apply bind_raised. unfold page_call. cbn [page_calls s2 called
            fold_left count_page count_fs record_event with_trace].
          rewrite Hfail. reflexivity.
        + cbn. lia.
      - destruct (Hk 1 ltac:(lia)) as (t1 & H1). cbn [Nat.add] in H1.
        destruct (Hk 2 ltac:(lia)) as (t2 & H2). cbn [Nat.add] in H2.
        destruct (Hk 3 ltac:(lia)) as (t3 & H3). cbn [Nat.add] in H3.
        erewrite bind_returned by (apply page_call_ok; exact H1).
        erewrite bind_returned by reflexivity.
        erewrite bind_returned by (apply page_call_ok; exact H2).
        erewrite bind_returned by (apply page_call_ok; exact H3).
        eexists. split.
        + apply bind_raised. unfold page_call. cbn [page_calls s2 called
            fold_left count_page count_fs record_event with_trace].
          rewrite Hfail. reflexivity.
        + cbn. lia. }
    destruct Hbody as (s3 & Hbody & Hp3).
    unfold try_except. rewrite Hbody. cbn [is_Exception].
    unfold bind, page_call, log, emit, raise.
    rewrite Hp3.
    destruct (page_answers w (page_calls st + S j)) as [t|];
      cbn [answered fst snd trace count_page record_event with_trace].
    + split; [reflexivity|]. split.
      * apply in_or_app. left. apply in_or_app. right. now left.
      * intros _. apply in_or_app. right. now left.
    + split; [reflexivity|]. split.
      * apply in_or_app. right. now left.
      * intros (t & Ht). discriminate.
Qed.

Lemma login_does_not_depend_on_passkey_prompt_witness :
  exists st',
    _login no_prompt_world initial_state = (Ret tt, st')
    /\ trace st'
       = [EPage (PwGoto GPX_ADMIN_URL);
          EFs (FsMakedirs "/app/screenshots");
          EPage (PwFill SelEmail "operator");
          EPage (PwFill SelPassword "secret");
          EPage (PwClick SelSubmit);
          EPage PwWaitLoad;
          EPage (PwClick (SelText "Not now"));
          EPage (PwClick (SelText "Don't ask again"));
          EPage (PwClick (SelText "No thanks"));
          EPage (PwClick (SelText "Skip"));
          EPage (PwClick (SelText "Close"));
          EPage (PwScreenshot "/app/screenshots/02_after_login.png")].
Proof.
  apply (proj1 (proj2 login_does_not_depend_on_passkey_prompt)
           no_prompt_world initial_state).
  - reflexivity.
  - intros k Hk. exists EmptyString.
    do 5 (destruct k as [|k]; [reflexivity|]). lia.
  - exists EmptyString. reflexivity.
Defined.

(** ** The name of the sheet *)

Lemma string_of_uint_digits (d : Decimal.uint) :
  all_digits (DecimalString.NilEmpty.string_of_uint d) = true.
Proof. induction d; cbn; auto. Qed.

Lemma nat_to_string_digits (n : nat) : all_digits (nat_to_string n) = true.
Proof. apply string_of_uint_digits. Qed.

Lemma string_to_nat_to_string (n : nat) :
  string_to_nat (nat_to_string n) = Some n.
Proof.
  unfold string_to_nat, nat_to_string.
  rewrite DecimalString.NilEmpty.usu. cbn [option_map].
  now rewrite DecimalNat.Unsigned.of_to.
Qed.

Lemma string_to_nat_pad2 (n : nat) : string_to_nat (pad2 n) = Some n.
Proof.
  unfold pad2. destruct (n <? 10); [|apply string_to_nat_to_string].
  pose proof (string_to_nat_to_string n) as H.
  unfold string_to_nat in *. cbn [String.append].
  cbn [DecimalString.NilEmpty.uint_of_string].
  destruct (DecimalString.NilEmpty.uint_of_string (nat_to_string n))
    as [d|]; [|discriminate].
  cbn in *. exact H.
Qed.

Lemma pad2_digits (n : nat) : all_digits (pad2 n) = true.
Proof.
  unfold pad2. destruct (n <? 10); cbn; apply nat_to_string_digits.
Qed.

Lemma nat_to_string_inj (n m : nat) :
  nat_to_string n = nat_to_string m -> n = m.
Proof.
  intros H. apply (f_equal string_to_nat) in H.
  rewrite !string_to_nat_to_string in H. congruence.
Qed.

Lemma pad2_inj (n m : nat) : pad2 n = pad2 m -> n = m.
Proof.
  intros H. apply (f_equal string_to_nat) in H.
  rewrite !string_to_nat_pad2 in H. congruence.
Qed.

(** Digits followed by a dot can be told from what follows the dot. *)
Lemma append_dot_inj (s1 : string) :
  forall (t1 s2 t2 : string),
    all_digits s1 = true -> all_digits t1 = true ->
    String.append s1 (String "." s2) = String.append t1 (String "." t2) ->
    s1 = t1 /\ s2 = t2.
Proof.
  induction s1 as [|c s1 IH]; intros [|d t1] s2 t2 H1 H2 E; cbn in *.
  - injection E as <-. now split.
  - injection E as <- _. discriminate.
  - injection E as -> _. discriminate.
  - apply andb_prop in H1 as [_ H1]. apply andb_prop in H2 as [_ H2].
    injection E as <- E. destruct (IH t1 s2 t2 H1 H2 E) as [<- <-].
    now split.
Qed.

Lemma pad2_length (n : nat) : n < 100 -> String.length (pad2 n) = 2.
Proof.
  intros H. do 100 (destruct n as [|n]; [reflexivity|]). lia.
Qed.

(** X22. The sheet date tells two days apart up to the century: two
    dates get the same text exactly when they agree on the month, on the
    day and on the last two digits of the year.  The text is the month,
    the day and the year on two digits, each a decimal number that reads
    back as the value, separated by dots. *)
Theorem format_sheet_date_up_to_century :
  (forall d1 d2 : Date,
      format_sheet_date d1 = format_sheet_date d2
      <-> month d1 = month d2 /\ day d1 = day d2
          /\ year d1 mod 100 = year d2 mod 100)
  /\ (forall d : Date,
        exists m dd yy,
          format_sheet_date d
          = String.append m (String "." (String.append dd (String "." yy)))
          /\ string_to_nat m = Some (month d)
          /\ string_to_nat dd = Some (day d)
          /\ string_to_nat yy = Some (year d mod 100)
          /\ String.length yy = 2).
Proof.
  split.
  - intros d1 d2. unfold format_sheet_date. split.
    + intros E.
      apply append_dot_inj in E as [Em E];
        [|apply nat_to_string_digits | apply nat_to_string_digits].
      cbn [String.append] in E.
      apply append_dot_inj in E as [Ed Ey];
        [|apply pad2_digits | apply pad2_digits].
      split; [now apply nat_to_string_inj|].
      split; [now apply pad2_inj | now apply pad2_inj].
    + intros (-> & -> & ->). reflexivity.
  - intros d. exists (nat_to_string (month d)), (pad2 (day d)),
      (pad2 (year d mod 100)).
    split; [reflexivity|]. split; [apply string_to_nat_to_string|].
    split; [apply string_to_nat_pad2|]. split; [apply string_to_nat_pad2|].
    apply pad2_length, Nat.mod_upper_bound. lia.
Qed.

(** ** The configuration check *)

Lemma missing_config_nil (env : Env) (token_exists : bool) :
  missing_config env token_exists = []
  <-> (forall var, In var required_vars -> is_set env var = true)
      /\ token_exists = true.
Proof.
  unfold missing_config. split.
  - intros H. apply app_eq_nil in H as [Hf Ht]. split.
    + intros var Hin. destruct (is_set env var) eqn:E; [reflexivity|].
      assert (Hm : In var (filter (fun v => negb (is_set env v))
                             required_vars))
        by (apply filter_In; split; [exact Hin | now rewrite E]).
      rewrite Hf in Hm. destruct Hm.
    + destruct token_exists; [reflexivity | discriminate].
  - intros [Hall ->]. rewrite app_nil_r.
    induction required_vars as [|v vs IH]; [reflexivity|].
    cbn [filter]. rewrite (Hall v) by now left. cbn [negb].
    apply IH. intros var Hin. apply Hall. now right.
Qed.

(** X23. [validate_env] returns without a word exactly when the six
    variables are set to something non-empty and token.json is there.
    Otherwise it logs two error lines, the first listing exactly the
    variables that are unset or empty, and the token when it is absent,
    and the program exits with status 1.  A variable set to the empty
    string counts as missing. *)
Theorem validate_env_passes_iff_configured (env : Env) (token_exists : bool) :
  (validate_env env token_exists = ([], Returned)
   <-> (forall var, In var required_vars -> is_set env var = true)
       /\ token_exists = true)
  /\ (validate_env env token_exists = ([], Returned)
      \/ exists missing,
           missing <> []
           /\ validate_env env token_exists
              = ([ String.append "Missing configuration: "
                     (String.concat ", " missing);
                   "Copy .env.example to .env and fill in your credentials." ],
                 Exited 1)
           /\ (forall entry,
                  In entry missing
                  <-> (In entry required_vars /\ is_set env entry = false)
                      \/ (entry = token_entry /\ token_exists = false)))
  /\ validate_env empty_password_env true
     = ([ "Missing configuration: GPX_PASSWORD";
          "Copy .env.example to .env and fill in your credentials." ],
        Exited 1).
Proof.
  split; [|split; [|reflexivity]].
  - rewrite <- missing_config_nil. unfold validate_env.
    destruct (missing_config env token_exists);
      split; intros H; try reflexivity; discriminate.
  - unfold validate_env.
    destruct (missing_config env token_exists) as [|m ms] eqn:E;
      [now left | right].
    exists (m :: ms). split; [discriminate|]. split; [reflexivity|].
    intros entry. rewrite <- E. unfold missing_config.
    rewrite in_app_iff, filter_In. split.
    + intros [[Hin Hs] | Ht].
      * left. split; [exact Hin|]. now destruct (is_set env entry).
      * right. destruct token_exists; [destruct Ht|].
        destruct Ht as [<- | []]. now split.
    + intros [[Hin Hs] | [-> ->]].
      * left. split; [exact Hin | now rewrite Hs].
      * right. now left.
Qed.
